(** * Battlesnake test platform: moderation, run pipeline, rate limiter, sessions

    A shallow embedding of the Convex backend (convex/battlesnake.ts and
    convex/auth.ts): the document store is an explicit value threaded through
    every handler, thrown errors are an outcome, and the clock, the HTTP
    exchange and the runtime built-ins the handlers call (JSON.parse,
    JSON.stringify, String.prototype.toLowerCase, bcrypt.compareSync) are
    inputs of the model. *)

From Stdlib Require Import ZArith NArith Lia DecimalString.
From stdpp Require Import base option list numbers strings.

Local Open Scope Z_scope.
Set Warnings "-register-all".

(** ** JavaScript strings

    A JavaScript string is a sequence of UTF-16 code units; [===] on strings,
    [slice], [trim], [endsWith] and [includes] all work on code units. *)

Abbreviation jsstring := (list N).

(** An ASCII literal as a JavaScript string. *)
Fixpoint js (s : string) : jsstring :=
  match s with
  | EmptyString => []
  | String c s' => N.of_nat (Ascii.nat_of_ascii c) :: js s'
  end.

Arguments js : simpl never.

(** [!s] for a string: the empty string is the only falsy one. *)
Definition str_falsy (s : jsstring) : bool :=
  match s with [] => true | _ :: _ => false end.

(** WhiteSpace and LineTerminator code units of ECMAScript, the ones
    [String.prototype.trim] removes. *)
Definition is_white_space (c : N) : bool :=
  ((9 <=? c) && (c <=? 13) || (c =? 32) || (c =? 160) || (c =? 5760)
   || (8192 <=? c) && (c <=? 8202) || (c =? 8232) || (c =? 8233)
   || (c =? 8239) || (c =? 8287) || (c =? 12288) || (c =? 65279))%N.

(** The rest of a string after its longest prefix of units satisfying [p]. *)
Fixpoint drop_while (p : N -> bool) (s : jsstring) : jsstring :=
  match s with
  | [] => []
  | c :: s' => if p c then drop_while p s' else s
  end.

(** The same from the end of the string. *)
Definition drop_while_end (p : N -> bool) (s : jsstring) : jsstring :=
  reverse (drop_while p (reverse s)).

Definition trimStart (s : jsstring) : jsstring := drop_while is_white_space s.

Definition trimEnd (s : jsstring) : jsstring := drop_while_end is_white_space s.

(** [s.trim()] *)
Definition trim (s : jsstring) : jsstring := trimEnd (trimStart s).

Definition slash : N := 47%N.

Definition is_slash (c : N) : bool := (c =? slash)%N.

(** [s.replace(/\/+$/, empty)]: the pattern is anchored at the end of the
    input and the match is leftmost, so the whole final run of slashes goes. *)
Definition replace_trailing_slashes (s : jsstring) : jsstring :=
  drop_while_end is_slash s.

(** [s.endsWith(suffix)] *)
Definition endsWith (s suffix : jsstring) : bool :=
  (length suffix <=? length s)%nat
  && bool_decide (drop (length s - length suffix) s = suffix).

(** [s.slice(0, n)] *)
Definition slice0 (n : nat) (s : jsstring) : jsstring := take n s.

(** [arr.includes(x)] on an array of strings (SameValueZero on strings is
    equality of the code-unit sequences). *)
Fixpoint includes (arr : list jsstring) (x : jsstring) : bool :=
  match arr with
  | [] => false
  | y :: arr' => if decide (y = x) then true else includes arr' x
  end.

(** A non-negative integer in a template literal: its decimal digits. *)
Definition Number_toString (n : N) : jsstring :=
  js (NilEmpty.string_of_uint (N.to_uint n)).

Arguments Number_toString : simpl never.

(** ** JSON values

    What [JSON.parse] returns.  Numbers are kept as their source lexeme: the
    handlers never compute with them.  An object keeps its members in source
    order; reading a property takes the last member of that name, which is
    the value [JSON.parse] leaves in the object when a key is repeated. *)

Inductive json : Type :=
| JNull
| JBool (b : bool)
| JNumber (lexeme : jsstring)
| JString (s : jsstring)
| JArray (items : list json)
| JObject (members : list (jsstring * json)).

Fixpoint own_property (members : list (jsstring * json)) (key : jsstring)
  : option json :=
  match members with
  | [] => None
  | (k, v) :: rest =>
      match own_property rest key with
      | Some v' => Some v'
      | None => if decide (k = key) then Some v else None
      end
  end.

(** [data?.key]: [None] is [undefined].  [null] short-circuits the optional
    chain; primitives and arrays have no such property for the keys used
    here ([move], [shout]). *)
Definition optional_get (data : json) (key : jsstring) : option json :=
  match data with
  | JObject members => own_property members key
  | _ => None
  end.

(** [typeof data?.key === "string" ? data.key : null] *)
Definition string_field (data : json) (key : jsstring) : option jsstring :=
  match optional_get data key with
  | Some (JString s) => Some s
  | _ => None
  end.

(** ** Reference implementations of the runtime built-ins

    The handlers are parametric in the built-ins they call.  The definitions
    of this part give one concrete reading of each, used where a statement is
    evaluated on explicit inputs. *)

(** A recursive descent parser for the grammar of ECMA-404, the one
    [JSON.parse] accepts; the fuel bounds the recursion by the input length. *)
Definition is_json_ws (c : N) : bool :=
  ((c =? 32) || (c =? 9) || (c =? 10) || (c =? 13))%N.

Fixpoint skip_ws (s : jsstring) : jsstring :=
  match s with
  | [] => []
  | c :: s' => if is_json_ws c then skip_ws s' else s
  end.

Definition is_digit (c : N) : bool := ((48 <=? c) && (c <=? 57))%N.

Definition hex_digit (c : N) : option N :=
  if is_digit c then Some (c - 48)%N
  else if ((97 <=? c) && (c <=? 102))%N then Some (c - 87)%N
  else if ((65 <=? c) && (c <=? 70))%N then Some (c - 55)%N
  else None.

Definition hex4 (a b c d : N) : option N :=
  match hex_digit a, hex_digit b, hex_digit c, hex_digit d with
  | Some a, Some b, Some c, Some d => Some (((a * 16 + b) * 16 + c) * 16 + d)%N
  | _, _, _, _ => None
  end.

(** The character an escape sequence [\e] stands for. *)
Definition simple_escape (e : N) : option N :=
  if (e =? 34)%N then Some 34%N          (* quote *)
  else if (e =? 92)%N then Some 92%N     (* backslash *)
  else if (e =? 47)%N then Some 47%N     (* slash *)
  else if (e =? 98)%N then Some 8%N      (* b *)
  else if (e =? 102)%N then Some 12%N    (* f *)
  else if (e =? 110)%N then Some 10%N    (* n *)
  else if (e =? 114)%N then Some 13%N    (* r *)
  else if (e =? 116)%N then Some 9%N     (* t *)
  else None.

Definition cons_fst {A B} (a : A) (r : option (list A * B)) : option (list A * B) :=
  match r with
  | Some (l, rest) => Some (a :: l, rest)
  | None => None
  end.

(** The characters of a string literal, after its opening quote. *)
Fixpoint parse_chars (s : jsstring) : option (jsstring * jsstring) :=
  match s with
  | [] => None
  | c :: s1 =>
      if (c =? 34)%N then Some ([], s1)
      else if (c =? 92)%N then
        match s1 with
        | [] => None
        | e :: s2 =>
            if (e =? 117)%N then
              match s2 with
              | h1 :: h2 :: h3 :: h4 :: s3 =>
                  match hex4 h1 h2 h3 h4 with
                  | Some u => cons_fst u (parse_chars s3)
                  | None => None
                  end
              | _ => None
              end
            else
              match simple_escape e with
              | Some x => cons_fst x (parse_chars s2)
              | None => None
              end
        end
      else if (c <? 32)%N then None
      else cons_fst c (parse_chars s1)
  end.

Fixpoint span_digits (s : jsstring) : jsstring * jsstring :=
  match s with
  | c :: s' =>
      if is_digit c then let '(ds, rest) := span_digits s' in (c :: ds, rest)
      else ([], s)
  | [] => ([], [])
  end.

(** A number lexeme: an optional minus sign, an integer part with no leading
    zero, an optional fraction and an optional exponent. *)
Definition parse_number (s : jsstring) : option (jsstring * jsstring) :=
  let '(sign, s0) :=
    match s with
    | c :: s' => if (c =? 45)%N then ([c], s') else ([], s)
    | [] => ([], s)
    end in
  match s0 with
  | [] => None
  | d :: s1 =>
      if negb (is_digit d) then None
      else
        let '(int_part, s2) :=
          if (d =? 48)%N then ([d], s1)
          else let '(ds, r) := span_digits s1 in (d :: ds, r) in
        let frac :=
          match s2 with
          | c :: s3 =>
              if (c =? 46)%N then
                match span_digits s3 with
                | ([], _) => None
                | (ds, r) => Some (c :: ds, r)
                end
              else Some ([], s2)
          | [] => Some ([], s2)
          end in
        match frac with
        | None => None
        | Some (frac_part, s4) =>
            let exp :=
              match s4 with
              | c :: s5 =>
                  if ((c =? 101) || (c =? 69))%N then
                    let '(esign, s6) :=
                      match s5 with
                      | g :: s5' =>
                          if ((g =? 43) || (g =? 45))%N then ([g], s5') else ([], s5)
                      | [] => ([], s5)
                      end in
                    match span_digits s6 with
                    | ([], _) => None
                    | (ds, r) => Some (c :: esign ++ ds, r)
                    end
                  else Some ([], s4)
              | [] => Some ([], s4)
              end in
            match exp with
            | None => None
            | Some (exp_part, s7) =>
                Some (sign ++ int_part ++ frac_part ++ exp_part, s7)
            end
        end
  end.

(** [strip_prefix p s]: the rest of [s] after the literal [p]. *)
Fixpoint strip_prefix (p s : jsstring) : option jsstring :=
  match p, s with
  | [], _ => Some s
  | a :: p', b :: s' => if (a =? b)%N then strip_prefix p' s' else None
  | _ :: _, [] => None
  end.

(** Setting a member of an object under construction: a repeated key keeps
    its place and takes the new value. *)
Fixpoint set_member (members : list (jsstring * json)) (k : jsstring) (v : json)
  : list (jsstring * json) :=
  match members with
  | [] => [(k, v)]
  | (k', v') :: rest =>
      if decide (k' = k) then (k', v) :: rest else (k', v') :: set_member rest k v
  end.

Fixpoint parse_value (fuel : nat) (s : jsstring) {struct fuel}
  : option (json * jsstring) :=
  match fuel with
  | O => None
  | S fuel' =>
      match skip_ws s with
      | [] => None
      | c :: s1 =>
          if (c =? 123)%N then                       (* object *)
            match skip_ws s1 with
            | c' :: s2 =>
                if (c' =? 125)%N then Some (JObject [], s2)
                else
                  match parse_members fuel' [] s1 with
                  | Some (ms, r) => Some (JObject ms, r)
                  | None => None
                  end
            | [] => None
            end
          else if (c =? 91)%N then                   (* array *)
            match skip_ws s1 with
            | c' :: s2 =>
                if (c' =? 93)%N then Some (JArray [], s2)
                else
                  match parse_elements fuel' s1 with
                  | Some (vs, r) => Some (JArray vs, r)
                  | None => None
                  end
            | [] => None
            end
          else if (c =? 34)%N then                   (* string *)
            match parse_chars s1 with
            | Some (str, r) => Some (JString str, r)
            | None => None
            end
          else if (c =? 110)%N then                  (* null *)
            match strip_prefix (js "ull") s1 with
            | Some r => Some (JNull, r)
            | None => None
            end
          else if (c =? 116)%N then                  (* true *)
            match strip_prefix (js "rue") s1 with
            | Some r => Some (JBool true, r)
            | None => None
            end
          else if (c =? 102)%N then                  (* false *)
            match strip_prefix (js "alse") s1 with
            | Some r => Some (JBool false, r)
            | None => None
            end
          else
            match parse_number (c :: s1) with
            | Some (lexeme, r) => Some (JNumber lexeme, r)
            | None => None
            end
      end
  end
with parse_elements (fuel : nat) (s : jsstring) {struct fuel}
  : option (list json * jsstring) :=
  match fuel with
  | O => None
  | S fuel' =>
      match parse_value fuel' s with
      | None => None
      | Some (v, r) =>
          match skip_ws r with
          | c :: r1 =>
              if (c =? 44)%N then cons_fst v (parse_elements fuel' r1)
              else if (c =? 93)%N then Some ([v], r1)
              else None
          | [] => None
          end
      end
  end
with parse_members (fuel : nat) (acc : list (jsstring * json)) (s : jsstring)
  {struct fuel} : option (list (jsstring * json) * jsstring) :=
  match fuel with
  | O => None
  | S fuel' =>
      match skip_ws s with
      | q :: s1 =>
          if negb (q =? 34)%N then None
          else
            match parse_chars s1 with
            | None => None
            | Some (key, s2) =>
                match skip_ws s2 with
                | colon :: s3 =>
                    if negb (colon =? 58)%N then None
                    else
                      match parse_value fuel' s3 with
                      | None => None
                      | Some (v, r) =>
                          let acc' := set_member acc key v in
                          match skip_ws r with
                          | c :: r1 =>
                              if (c =? 44)%N then parse_members fuel' acc' r1
                              else if (c =? 125)%N then Some (acc', r1)
                              else None
                          | [] => None
                          end
                      end
                | [] => None
                end
            end
      | [] => None
      end
  end.

(** [JSON.parse(text)]: [None] when it throws a SyntaxError. *)
Definition JSON_parse_ref (text : jsstring) : option json :=
  match parse_value (S (length text)) text with
  | Some (v, rest) =>
      match skip_ws rest with
      | [] => Some v
      | _ :: _ => None
      end
  | None => None
  end.

(** A double quote, and a string literal between quotes. *)
Definition dquote : N := 34%N.
Definition quoted (s : jsstring) : jsstring := dquote :: s ++ [dquote].

Definition hex_char (d : N) : N := if (d <? 10)%N then (48 + d)%N else (87 + d)%N.

(** The escape of one code unit inside a serialised string. *)
Definition escape_unit (c : N) : jsstring :=
  if (c =? 34)%N then [92; 34]%N
  else if (c =? 92)%N then [92; 92]%N
  else if (c =? 8)%N then [92; 98]%N
  else if (c =? 12)%N then [92; 102]%N
  else if (c =? 10)%N then [92; 110]%N
  else if (c =? 13)%N then [92; 114]%N
  else if (c =? 9)%N then [92; 116]%N
  else if (c <? 32)%N then
    [92; 117; 48; 48; hex_char (c / 16); hex_char (c mod 16)]%N
  else [c].

Definition quote_string (s : jsstring) : jsstring :=
  dquote :: concat (List.map escape_unit s) ++ [dquote].

Fixpoint join_with (sep : jsstring) (parts : list jsstring) : jsstring :=
  match parts with
  | [] => []
  | [p] => p
  | p :: rest => p ++ sep ++ join_with sep rest
  end.

(** [JSON.stringify] on a parsed value, after ECMA-262: compact output,
    members in the order the object holds them, numbers by their lexeme
    (exact for a lexeme already in shortest form). *)
Fixpoint JSON_stringify_ref (v : json) : jsstring :=
  match v with
  | JNull => js "null"
  | JBool true => js "true"
  | JBool false => js "false"
  | JNumber lexeme => lexeme
  | JString s => quote_string s
  | JArray items =>
      js "[" ++ join_with (js ",") (List.map JSON_stringify_ref items) ++ js "]"
  | JObject members =>
      js "{"
      ++ join_with (js ",")
           (List.map (fun kv => quote_string (fst kv) ++ js ":" ++ JSON_stringify_ref (snd kv))
              members)
      ++ js "}"
  end.

(** [toLowerCase] on the ASCII letters; other code units are left alone. *)
Definition toLowerCase_ref (s : jsstring) : jsstring :=
  List.map (fun c => if ((65 <=? c) && (c <=? 90))%N then (c + 32)%N else c) s.

(** A stand-in for [bcrypt.compareSync] in worked examples: the hash of a
    password is the password behind a fixed marker. *)
Definition sample_hash (password : jsstring) : jsstring := js "$2a$10$" ++ password.
Definition sample_compareSync (password hash : jsstring) : bool :=
  bool_decide (hash = sample_hash password).

(** ** Documents (convex/schema.ts)

    A [number] that is an integer in every use of the handlers (a timestamp
    in milliseconds, a counter, a board coordinate) is a [Z]; an optional
    field is an [option], [None] standing for an absent field. *)

Abbreviation Id := nat.

Record Coordinate := { x : Z; y : Z }.

Record Snake := {
  snake_id : jsstring;
  snake_name : jsstring;
  health : Z;
  body : list Coordinate;
  snake_head : Coordinate;
  snake_length : Z;
  latency : option jsstring;
  snake_shout : option jsstring;
  squad : option jsstring;
  headEmoji : option jsstring
}.

Record Board := {
  height : Z;
  width : Z;
  food : list Coordinate;
  hazards : list Coordinate;
  snakes : list Snake
}.

Record RulesetSettings := {
  foodSpawnChance : option Z;
  minimumFood : option Z;
  hazardDamagePerTurn : option Z;
  hazardMap : option jsstring
}.

Record Ruleset := {
  ruleset_name : option jsstring;
  ruleset_version : option jsstring;
  settings : option RulesetSettings
}.

Record Game := {
  game_id : option jsstring;
  game_ruleset : option Ruleset;
  game_map : option jsstring;
  game_timeout : option Z
}.

Inductive TestStatus := approved | pending | rejected | private.

#[export] Instance TestStatus_eq_dec : EqDecision TestStatus.
Proof. solve_decision. Defined.

Record Test := {
  name : jsstring;
  description : option jsstring;
  board : Board;
  game : option Game;
  turn : Z;
  youId : jsstring;
  expectedSafeMoves : list jsstring;
  createdAt : Z;
  ownerId : option Id;
  status : option TestStatus;
  approvedBy : option Id;
  approvedAt : option Z;
  rejectionReason : option jsstring;
  permaRejected : option bool
}.

Inductive RunStatus := running | completed | failed.

#[export] Instance RunStatus_eq_dec : EqDecision RunStatus.
Proof. solve_decision. Defined.

Record TestRun := {
  run_testId : Id;
  run_userId : Id;
  botUrl : jsstring;
  run_status : RunStatus;
  run_move : option jsstring;
  run_shout : option jsstring;
  run_passed : option bool;
  run_error : option jsstring;
  run_httpStatus : option N;
  run_rawResponse : option jsstring;
  run_responseTimeMs : option Z;
  startedAt : Z;
  completedAt : option Z
}.

Record User := {
  email : jsstring;
  emailLower : jsstring;
  passwordHash : jsstring;
  username : jsstring;
  isAdmin : bool
}.

Record UserSession := {
  session_userId : Id;
  session_token : jsstring;
  session_createdAt : Z;
  session_expiresAt : Z
}.

Record AdminSession := {
  admin_token : jsstring;
  admin_createdAt : Z;
  admin_expiresAt : Z
}.

Record RateLimit := {
  clientId : jsstring;
  windowStart : Z;
  attempts : Z;
  blockedUntil : option Z
}.

(** ** The document store

    A table is the sequence of its rows in creation order; a document id is
    the position of its row, and a deleted row leaves a hole, so ids are
    never reused. *)

Abbreviation table A := (list (option A)).

(** [ctx.db.get(id)] *)
Definition db_get {A} (t : table A) (id : Id) : option A := mjoin (t !! id).

(** [ctx.db.insert(table, doc)]: the new id and the table. *)
Definition db_insert {A} (t : table A) (doc : A) : Id * table A :=
  (length t, t ++ [Some doc]).

(** [ctx.db.patch(id, fields)]: [None] when the document does not exist
    (the store throws). *)
Definition db_patch {A} (t : table A) (id : Id) (fields : A -> A) : option (table A) :=
  match db_get t id with
  | Some doc => Some (<[id := Some (fields doc)]> t)
  | None => None
  end.

(** [ctx.db.delete(id)] *)
Definition db_delete {A} (t : table A) (id : Id) : option (table A) :=
  match db_get t id with
  | Some _ => Some (<[id := None]> t)
  | None => None
  end.

(** [ctx.db.query(table).withIndex(ix, q => q.eq(field, v)).first()]: the
    oldest row matching the key, with its id. *)
Fixpoint db_first_from {A} (matches : A -> bool) (t : table A) (i : Id)
  : option (Id * A) :=
  match t with
  | [] => None
  | Some doc :: t' =>
      if matches doc then Some (i, doc) else db_first_from matches t' (S i)
  | None :: t' => db_first_from matches t' (S i)
  end.

Definition db_first {A} (matches : A -> bool) (t : table A) : option (Id * A) :=
  db_first_from matches t 0%nat.

Record Store := {
  users : table User;
  userSessions : table UserSession;
  adminSessions : table AdminSession;
  adminRateLimits : table RateLimit;
  tests : table Test;
  testRuns : table TestRun
}.

Definition with_userSessions (db : Store) (t : table UserSession) : Store :=
  {| users := users db; userSessions := t; adminSessions := adminSessions db;
     adminRateLimits := adminRateLimits db; tests := tests db;
     testRuns := testRuns db |}.

Definition with_adminSessions (db : Store) (t : table AdminSession) : Store :=
  {| users := users db; userSessions := userSessions db; adminSessions := t;
     adminRateLimits := adminRateLimits db; tests := tests db;
     testRuns := testRuns db |}.

Definition with_adminRateLimits (db : Store) (t : table RateLimit) : Store :=
  {| users := users db; userSessions := userSessions db;
     adminSessions := adminSessions db; adminRateLimits := t;
     tests := tests db; testRuns := testRuns db |}.

Definition with_tests (db : Store) (t : table Test) : Store :=
  {| users := users db; userSessions := userSessions db;
     adminSessions := adminSessions db;
     adminRateLimits := adminRateLimits db; tests := t;
     testRuns := testRuns db |}.

Definition with_testRuns (db : Store) (t : table TestRun) : Store :=
  {| users := users db; userSessions := userSessions db;
     adminSessions := adminSessions db;
     adminRateLimits := adminRateLimits db; tests := tests db;
     testRuns := t |}.

(** ** Handlers as store transformers

    A handler either returns a value or throws an [Error] with a message;
    either way it leaves a store behind.  A query or a mutation takes the
    reading [now] of the clock its calls of [Date.now()] return. *)

Inductive outcome (A : Type) : Type :=
| Return (a : A)
| Throw (message : jsstring).
Arguments Return {A} a.
Arguments Throw {A} message.

Definition M (A : Type) : Type := Store -> outcome A * Store.

#[export] Instance M_ret : MRet M := fun A a db => (Return a, db).

#[export] Instance M_bind : MBind M := fun A B f m db =>
  match m db with
  | (Return a, db') => f a db'
  | (Throw e, db') => (Throw e, db')
  end.

Definition throw {A} (message : string) : M A := fun db => (Throw (js message), db).

(** A read-only step: a helper whose context is a query context. *)
Definition query {A} (q : Store -> outcome A) : M A := fun db => (q db, db).

(** [await ctx.db.get(id)] on the tests table. *)
Definition getTest (id : Id) (db : Store) : option Test := db_get (tests db) id.

(** [await ctx.db.patch(id, fields)] on the tests table. *)
Definition patchTest (id : Id) (fields : Test -> Test) : M unit := fun db =>
  match db_patch (tests db) id fields with
  | Some t' => (Return (), with_tests db t')
  | None => (Throw (js "Update on nonexistent document."), db)
  end.

(** ** The runtime built-ins the handlers call *)

Class Runtime := {
  (** [JSON.parse(text)], [None] when it throws *)
  JSON_parse : jsstring -> option json;
  (** [JSON.stringify(data)] *)
  JSON_stringify : json -> jsstring;
  (** [s.toLowerCase()] *)
  toLowerCase : jsstring -> jsstring;
  (** [bcrypt.compareSync(password, hash)] *)
  bcrypt_compareSync : jsstring -> jsstring -> bool
}.

Definition reference_runtime : Runtime := {|
  JSON_parse := JSON_parse_ref;
  JSON_stringify := JSON_stringify_ref;
  toLowerCase := toLowerCase_ref;
  bcrypt_compareSync := sample_compareSync
|}.

(** ** Sessions and the login rate limiter (convex/auth.ts) *)

Definition SESSION_TTL_MS : Z := 24 * 60 * 60 * 1000.
Definition RATE_LIMIT_WINDOW_MS : Z := 5 * 60 * 1000.
Definition RATE_LIMIT_MAX_ATTEMPTS : Z := 5.

(** [x && ...] on an optional number: absent and [0] are falsy. *)
Definition number_truthy (n : option Z) : bool :=
  match n with
  | Some v => negb (v =? 0)
  | None => false
  end.

Definition limiter_by_clientId (db : Store) (client : jsstring)
  : option (Id * RateLimit) :=
  db_first (fun l => bool_decide (clientId l = client)) (adminRateLimits db).

Record RateCheck := { blocked : bool; retryAt : option Z }.

Definition checkRateLimit (now : Z) (client : jsstring) (db : Store) : RateCheck :=
  match limiter_by_clientId db client with
  | Some (_, limiter) =>
      if number_truthy (blockedUntil limiter)
         && bool_decide (default 0 (blockedUntil limiter) > now)
      then {| blocked := true; retryAt := blockedUntil limiter |}
      else {| blocked := false; retryAt := None |}
  | None => {| blocked := false; retryAt := None |}
  end.

Definition patchRateLimit (id : Id) (fields : RateLimit -> RateLimit) : M unit :=
  fun db =>
  match db_patch (adminRateLimits db) id fields with
  | Some t' => (Return (), with_adminRateLimits db t')
  | None => (Throw (js "Update on nonexistent document."), db)
  end.

Definition insertRateLimit (doc : RateLimit) : M Id := fun db =>
  let '(id, t') := db_insert (adminRateLimits db) doc in
  (Return id, with_adminRateLimits db t').

Definition recordFailedAttempt (now : Z) (client : jsstring) : M RateCheck :=
  fun db =>
  let limiter := limiter_by_clientId db client in
  let windowStart0 :=
    match limiter with Some (_, l) => windowStart l | None => now end in
  let withinWindow := bool_decide (now - windowStart0 < RATE_LIMIT_WINDOW_MS) in
  let attempts0 :=
    if withinWindow
    then match limiter with Some (_, l) => attempts l | None => 0 end
    else 0 in
  let nextAttempts := attempts0 + 1 in
  let blockedUntil' :=
    if bool_decide (nextAttempts >= RATE_LIMIT_MAX_ATTEMPTS)
    then Some (now + RATE_LIMIT_WINDOW_MS)
    else None in
  let result :=
    {| blocked := number_truthy blockedUntil'; retryAt := blockedUntil' |} in
  match limiter with
  | Some (id, _) =>
      (_ ← patchRateLimit id (fun l =>
             {| clientId := clientId l;
                windowStart := if withinWindow then windowStart0 else now;
                attempts := nextAttempts;
                blockedUntil := blockedUntil' |});
       mret result) db
  | None =>
      (_ ← insertRateLimit
             {| clientId := client; windowStart := now;
                attempts := nextAttempts; blockedUntil := blockedUntil' |};
       mret result) db
  end.

Definition resetRateLimit (now : Z) (client : jsstring) : M unit := fun db =>
  match limiter_by_clientId db client with
  | Some (id, _) =>
      patchRateLimit id (fun l =>
        {| clientId := clientId l; windowStart := now; attempts := 0;
           blockedUntil := None |}) db
  | None => (Return (), db)
  end.

Definition session_by_token (db : Store) (token : jsstring)
  : option (Id * UserSession) :=
  db_first (fun s => bool_decide (session_token s = token)) (userSessions db).

Definition insertUserSession (doc : UserSession) : M Id := fun db =>
  let '(id, t') := db_insert (userSessions db) doc in
  (Return id, with_userSessions db t').

Record UserInfo := {
  info_id : Id;
  info_email : jsstring;
  info_username : jsstring;
  info_isAdmin : bool
}.

Inductive LoginResult :=
| LoginError (error : jsstring) (retryAt : option Z)
| LoginOk (token : jsstring) (user : UserInfo).

(** [login]; [fresh_token] is what [crypto.randomUUID()] returns. *)
Definition login `{Runtime} (now : Z) (fresh_token : jsstring)
    (arg_email arg_password arg_clientId : jsstring) : M LoginResult := fun db =>
  let rateCheck := checkRateLimit now arg_clientId db in
  if blocked rateCheck
  then (Return (LoginError (js "Too many attempts. Try again later.")
                  (retryAt rateCheck)), db)
  else
    let emailLower' := trim (toLowerCase arg_email) in
    match db_first (fun u => bool_decide (emailLower u = emailLower')) (users db) with
    | None =>
        (_ ← recordFailedAttempt now arg_clientId;
         mret (LoginError (js "Invalid email or password.") None)) db
    | Some (userId, user) =>
        if negb (bcrypt_compareSync arg_password (passwordHash user))
        then
          (_ ← recordFailedAttempt now arg_clientId;
           mret (LoginError (js "Invalid email or password.") None)) db
        else
          (_ ← resetRateLimit now arg_clientId;
           _ ← insertUserSession
                 {| session_userId := userId; session_token := fresh_token;
                    session_createdAt := now;
                    session_expiresAt := now + SESSION_TTL_MS |};
           mret (LoginOk fresh_token
                   {| info_id := userId; info_email := email user;
                      info_username := username user;
                      info_isAdmin := isAdmin user |})) db
    end.

(** [getCurrentUser]: a query; [None] is [null]. *)
Definition getCurrentUser (now : Z) (token : option jsstring) (db : Store)
  : option UserInfo :=
  match token with
  | None => None
  | Some token =>
      if str_falsy token then None
      else
        match session_by_token db token with
        | None => None
        | Some (_, session) =>
            if bool_decide (session_expiresAt session < now) then None
            else
              match db_get (users db) (session_userId session) with
              | None => None
              | Some user =>
                  Some {| info_id := session_userId session;
                          info_email := email user;
                          info_username := username user;
                          info_isAdmin := isAdmin user |}
              end
        end
  end.

(** [requireUserSession]: its context is a query context, it only reads. *)
Definition requireUserSession (now : Z) (token : jsstring) (db : Store)
  : outcome (Id * bool) :=
  match session_by_token db token with
  | None => Throw (js "Session invalid. Please log in again.")
  | Some (_, session) =>
      if bool_decide (session_expiresAt session < now)
      then Throw (js "Session expired. Please log in again.")
      else
        match db_get (users db) (session_userId session) with
        | None => Throw (js "User not found. Please log in again.")
        | Some user => Return (session_userId session, isAdmin user)
        end
  end.

Definition requireAdmin (now : Z) (token : jsstring) (db : Store) : outcome Id :=
  match requireUserSession now token db with
  | Throw e => Throw e
  | Return (userId, isAdmin') =>
      if negb isAdmin' then Throw (js "Admin access required.")
      else Return userId
  end.

(** [requireAdminSession] (convex/battlesnake.ts): the gate of the legacy
    admin-password sessions.  It is called from mutations only, which do not
    catch what it throws, and a mutation that throws commits none of its
    writes: the [ctx.db.delete] it issues on an expired session is followed
    by its [throw], so the store that comes with the [Throw] is the store
    the mutation found. *)
Definition requireAdminSession (now : Z) (token : jsstring) : M unit := fun db =>
  match db_first (fun s => bool_decide (admin_token s = token)) (adminSessions db) with
  | None => (Throw (js "Admin session invalid. Sign in again."), db)
  | Some (id, session) =>
      if bool_decide (admin_expiresAt session < now)
      then
        match db_delete (adminSessions db) id with
        | Some _ => (Throw (js "Admin session expired. Sign in again."), db)
        | None => (Throw (js "Delete on nonexistent document."), db)
        end
      else (Return (), db)
  end.

(** ** Moderation of tests (convex/battlesnake.ts) *)

(** The fields an editor submits. *)
Record TestArgs := {
  arg_name : jsstring;
  arg_description : option jsstring;
  arg_board : Board;
  arg_game : option Game;
  arg_turn : Z;
  arg_youId : jsstring;
  arg_expectedSafeMoves : list jsstring
}.

(** [board.snakes.some(snakeItem => snakeItem.id === youId)] *)
Definition youExists (b : Board) (you : jsstring) : bool :=
  existsb (fun snakeItem => bool_decide (snake_id snakeItem = you)) (snakes b).

(** The patch objects of the handlers, each as the update it makes: a field
    the patch does not name keeps its value, a field patched to [undefined]
    is removed. *)
Definition patch_content (args : TestArgs) (t : Test) : Test :=
  {| name := arg_name args; description := arg_description args;
     board := arg_board args; game := arg_game args; turn := arg_turn args;
     youId := arg_youId args; expectedSafeMoves := arg_expectedSafeMoves args;
     createdAt := createdAt t; ownerId := ownerId t; status := status t;
     approvedBy := approvedBy t; approvedAt := approvedAt t;
     rejectionReason := rejectionReason t; permaRejected := permaRejected t |}.

Definition patch_status (s : TestStatus) (t : Test) : Test :=
  {| name := name t; description := description t; board := board t;
     game := game t; turn := turn t; youId := youId t;
     expectedSafeMoves := expectedSafeMoves t; createdAt := createdAt t;
     ownerId := ownerId t; status := Some s; approvedBy := approvedBy t;
     approvedAt := approvedAt t; rejectionReason := rejectionReason t;
     permaRejected := permaRejected t |}.

Definition patch_rejectionReason (reason : option jsstring) (t : Test) : Test :=
  {| name := name t; description := description t; board := board t;
     game := game t; turn := turn t; youId := youId t;
     expectedSafeMoves := expectedSafeMoves t; createdAt := createdAt t;
     ownerId := ownerId t; status := status t; approvedBy := approvedBy t;
     approvedAt := approvedAt t; rejectionReason := reason;
     permaRejected := permaRejected t |}.

Definition patch_approval (by_user : Id) (at_time : Z) (t : Test) : Test :=
  {| name := name t; description := description t; board := board t;
     game := game t; turn := turn t; youId := youId t;
     expectedSafeMoves := expectedSafeMoves t; createdAt := createdAt t;
     ownerId := ownerId t; status := status t; approvedBy := Some by_user;
     approvedAt := Some at_time; rejectionReason := rejectionReason t;
     permaRejected := permaRejected t |}.

Definition patch_permaRejected (flag : bool) (t : Test) : Test :=
  {| name := name t; description := description t; board := board t;
     game := game t; turn := turn t; youId := youId t;
     expectedSafeMoves := expectedSafeMoves t; createdAt := createdAt t;
     ownerId := ownerId t; status := status t; approvedBy := approvedBy t;
     approvedAt := approvedAt t; rejectionReason := rejectionReason t;
     permaRejected := Some flag |}.

Definition insertTest (doc : Test) : M Id := fun db =>
  let '(id, t') := db_insert (tests db) doc in
  (Return id, with_tests db t').

(** [return await ctx.db.get(id)] *)
Definition readTest (id : Id) : M (option Test) := fun db =>
  (Return (getTest id db), db).

Definition createUserTest (now : Z) (token : jsstring) (args : TestArgs)
  : M (option Test) :=
  '(userId, _) ← query (requireUserSession now token);
  if negb (youExists (arg_board args) (arg_youId args))
  then throw "youId must match a snake in the board."
  else
    id ← insertTest
           {| name := arg_name args; description := arg_description args;
              board := arg_board args; game := arg_game args;
              turn := arg_turn args; youId := arg_youId args;
              expectedSafeMoves := arg_expectedSafeMoves args;
              createdAt := now; ownerId := Some userId;
              status := Some pending; approvedBy := None; approvedAt := None;
              rejectionReason := None; permaRejected := None |};
    readTest id.

Definition updateUserTest (now : Z) (token : jsstring) (id : Id) (args : TestArgs)
  : M (option Test) :=
  '(userId, _) ← query (requireUserSession now token);
  test ← readTest id;
  match test with
  | None => throw "Test not found."
  | Some test =>
      if negb (bool_decide (ownerId test = Some userId))
      then throw "You don't have permission to edit this test."
      else if negb (youExists (arg_board args) (arg_youId args))
      then throw "youId must match a snake in the board."
      else
        _ ← patchTest id (fun t => patch_status pending (patch_content args t));
        readTest id
  end.

Definition adminUpdateTest (now : Z) (token : jsstring) (id : Id) (args : TestArgs)
  : M (option Test) :=
  '(_, isAdmin') ← query (requireUserSession now token);
  if negb isAdmin' then throw "Admin access required."
  else
    test ← readTest id;
    match test with
    | None => throw "Test not found."
    | Some _ =>
        if negb (youExists (arg_board args) (arg_youId args))
        then throw "youId must match a snake in the board."
        else
          _ ← patchTest id (patch_content args);
          readTest id
    end.

Definition approveTest (now : Z) (token : jsstring) (id : Id) : M (option Test) :=
  userId ← query (requireAdmin now token);
  test ← readTest id;
  match test with
  | None => throw "Test not found."
  | Some _ =>
      _ ← patchTest id (fun t =>
            patch_rejectionReason None
              (patch_approval userId now (patch_status approved t)));
      readTest id
  end.

Definition rejectTest (now : Z) (token : jsstring) (id : Id)
    (reason : option jsstring) : M (option Test) :=
  _ ← query (requireAdmin now token);
  test ← readTest id;
  match test with
  | None => throw "Test not found."
  | Some _ =>
      _ ← patchTest id (fun t =>
            patch_rejectionReason reason (patch_status rejected t));
      readTest id
  end.

Definition permaRejectTest (now : Z) (token : jsstring) (id : Id)
    (reason : option jsstring) : M (option Test) :=
  _ ← query (requireAdmin now token);
  test ← readTest id;
  match test with
  | None => throw "Test not found."
  | Some _ =>
      _ ← patchTest id (fun t =>
            patch_permaRejected true
              (patch_rejectionReason reason (patch_status rejected t)));
      readTest id
  end.

Definition resubmitTest (now : Z) (token : jsstring) (id : Id) : M (option Test) :=
  '(userId, _) ← query (requireUserSession now token);
  test ← readTest id;
  match test with
  | None => throw "Test not found."
  | Some test =>
      if negb (bool_decide (ownerId test = Some userId))
      then throw "You don't have permission to resubmit this test."
      else if negb (bool_decide (status test = Some rejected))
      then throw "Only rejected tests can be resubmitted."
      else if bool_decide (permaRejected test = Some true)
      then throw "This test has been permanently rejected and cannot be resubmitted."
      else
        _ ← patchTest id (fun t =>
              patch_rejectionReason None (patch_status pending t));
        readTest id
  end.

Definition makeTestPrivate (now : Z) (token : jsstring) (id : Id)
  : M (option Test) :=
  _ ← query (requireAdmin now token);
  test ← readTest id;
  match test with
  | None => throw "Test not found."
  | Some _ =>
      _ ← patchTest id (patch_status private);
      readTest id
  end.

(** One call of the moderation interface, with the clock reading it gets. *)
Inductive ModerationCall :=
| CallCreateUserTest (now : Z) (token : jsstring) (args : TestArgs)
| CallUpdateUserTest (now : Z) (token : jsstring) (id : Id) (args : TestArgs)
| CallAdminUpdateTest (now : Z) (token : jsstring) (id : Id) (args : TestArgs)
| CallApproveTest (now : Z) (token : jsstring) (id : Id)
| CallRejectTest (now : Z) (token : jsstring) (id : Id) (reason : option jsstring)
| CallPermaRejectTest (now : Z) (token : jsstring) (id : Id) (reason : option jsstring)
| CallResubmitTest (now : Z) (token : jsstring) (id : Id)
| CallMakeTestPrivate (now : Z) (token : jsstring) (id : Id).

Definition moderation_step (c : ModerationCall) : M (option Test) :=
  match c with
  | CallCreateUserTest now token args => createUserTest now token args
  | CallUpdateUserTest now token id args => updateUserTest now token id args
  | CallAdminUpdateTest now token id args => adminUpdateTest now token id args
  | CallApproveTest now token id => approveTest now token id
  | CallRejectTest now token id reason => rejectTest now token id reason
  | CallPermaRejectTest now token id reason => permaRejectTest now token id reason
  | CallResubmitTest now token id => resubmitTest now token id
  | CallMakeTestPrivate now token id => makeTestPrivate now token id
  end.

(** The store after a sequence of calls, whatever each of them answered. *)
Fixpoint moderation_run (calls : list ModerationCall) (db : Store) : Store :=
  match calls with
  | [] => db
  | c :: rest => moderation_run rest (snd (moderation_step c db))
  end.

(** ** The run pipeline (convex/battlesnake.ts) *)

Definition insertTestRun (doc : TestRun) : M Id := fun db =>
  let '(id, t') := db_insert (testRuns db) doc in
  (Return id, with_testRuns db t').

Definition startTestRun (now : Z) (token : jsstring) (testId : Id)
    (arg_botUrl : jsstring) : M Id :=
  '(userId, _) ← query (requireUserSession now token);
  test ← readTest testId;
  match test with
  | None => throw "Test not found."
  | Some _ =>
      insertTestRun
        {| run_testId := testId; run_userId := userId; botUrl := arg_botUrl;
           run_status := running; run_move := None; run_shout := None;
           run_passed := None; run_error := None; run_httpStatus := None;
           run_rawResponse := None; run_responseTimeMs := None;
           startedAt := now; completedAt := None |}
  end.

Definition getTestRun (runId : Id) (db : Store) : option TestRun :=
  db_get (testRuns db) runId.

(** The status a result may carry: the validator of [updateTestRunResult]
    accepts the two terminal literals only. *)
Inductive TerminalStatus := terminal_completed | terminal_failed.

Definition status_of_terminal (s : TerminalStatus) : RunStatus :=
  match s with
  | terminal_completed => completed
  | terminal_failed => failed
  end.

Record ResultArgs := {
  res_status : TerminalStatus;
  res_move : option jsstring;
  res_shout : option jsstring;
  res_passed : option bool;
  res_error : option jsstring;
  res_httpStatus : option N;
  res_rawResponse : option jsstring;
  res_responseTimeMs : option Z
}.

(** The patch [updateTestRunResult] writes. *)
Definition terminal_patch (now : Z) (args : ResultArgs) (r : TestRun) : TestRun :=
  {| run_testId := run_testId r; run_userId := run_userId r; botUrl := botUrl r;
     run_status := status_of_terminal (res_status args);
     run_move := res_move args; run_shout := res_shout args;
     run_passed := res_passed args; run_error := res_error args;
     run_httpStatus := res_httpStatus args;
     run_rawResponse := res_rawResponse args;
     run_responseTimeMs := res_responseTimeMs args;
     startedAt := startedAt r; completedAt := Some now |}.

Definition updateTestRunResult (now : Z) (runId : Id) (args : ResultArgs) : M unit :=
  fun db =>
  match db_patch (testRuns db) runId (terminal_patch now args) with
  | Some t' => (Return (), with_testRuns db t')
  | None => (Throw (js "Update on nonexistent document."), db)
  end.

(** A failed result that carries a message only. *)
Definition failed_with (message : jsstring) : ResultArgs :=
  {| res_status := terminal_failed; res_move := None; res_shout := None;
     res_passed := None; res_error := Some message; res_httpStatus := None;
     res_rawResponse := None; res_responseTimeMs := None |}.

(** The body of the POST, before serialisation. *)
Record RequestGame := {
  req_id : jsstring;
  req_ruleset : Ruleset;
  req_map : jsstring;
  req_timeout : Z
}.

Record RequestBody := {
  req_game : RequestGame;
  req_turn : Z;
  req_board : Board;
  req_you : Snake
}.

Definition default_ruleset : Ruleset :=
  {| ruleset_name := Some (js "standard");
     ruleset_version := Some (js "1.0.0");
     settings :=
       Some {| foodSpawnChance := Some 0; minimumFood := Some 0;
               hazardDamagePerTurn := Some 100;
               hazardMap := Some (js "custom") |} |}.

(** [x?.f ?? d] *)
Definition field_or {A B} (o : option A) (f : A -> option B) (d : B) : B :=
  default d (o ≫= f).

(** The request for a test; the document id is rendered by its position. *)
Definition requestBody (testId : Id) (test : Test) (you : Snake) : RequestBody :=
  {| req_game :=
       {| req_id :=
            field_or (game test) game_id
              (js "test-" ++ Number_toString (N.of_nat testId));
          req_ruleset := field_or (game test) game_ruleset default_ruleset;
          req_map := field_or (game test) game_map (js "custom");
          req_timeout := field_or (game test) game_timeout 500 |};
     req_turn := turn test;
     req_board := board test;
     req_you := you |}.

(** What a [catch] receives: an [Error] with its message, or another value. *)
Inductive Thrown :=
| ThrownError (message : jsstring)
| ThrownOther.

(** [error instanceof Error ? error.message : "Request failed."] *)
Definition error_message (e : Thrown) : jsstring :=
  match e with
  | ThrownError message => message
  | ThrownOther => js "Request failed."
  end.

(** The outcome of [fetch] followed by [response.text()]. *)
Inductive FetchOutcome :=
| FetchRejected (e : Thrown)
| FetchResponse (http_status : N) (text : Thrown + jsstring).

(** [response.ok] *)
Definition response_ok (http_status : N) : bool :=
  ((200 <=? http_status) && (http_status <=? 299))%N.

(** The world of one execution: the bot behind [fetch], and the readings of
    the clock around the call and in the result mutation. *)
Record Env := {
  fetch : jsstring -> RequestBody -> FetchOutcome;
  clock_fetchStart : Z;
  clock_fetchEnd : Z;
  clock_result : Z
}.

Inductive ExecResult :=
| ExecError (error : jsstring)
| ExecOk (move shout : option jsstring) (passed : bool) (responseTimeMs : Z).

(** What an execution does: its answer, the store it leaves, and the HTTP
    calls it made (endpoint and body). *)
Definition Execution : Type :=
  outcome ExecResult * Store * list (jsstring * RequestBody).

(** [await ctx.runMutation(updateTestRunResult, ...); return result] outside
    the [try] block. *)
Definition record_result (env : Env) (runId : Id) (args : ResultArgs)
    (result : ExecResult) (calls : list (jsstring * RequestBody)) (db : Store)
  : Execution :=
  match updateTestRunResult (clock_result env) runId args db with
  | (Return _, db') => (Return result, db', calls)
  | (Throw e, db') => (Throw e, db', calls)
  end.

(** The [catch] block of the request. *)
Definition record_caught (env : Env) (runId : Id) (e : Thrown)
    (calls : list (jsstring * RequestBody)) (db : Store) : Execution :=
  record_result env runId (failed_with (error_message e))
    (ExecError (error_message e)) calls db.

(** The same inside the [try] block: a mutation that throws lands in the
    [catch] block. *)
Definition record_result_try (env : Env) (runId : Id) (args : ResultArgs)
    (result : ExecResult) (calls : list (jsstring * RequestBody)) (db : Store)
  : Execution :=
  match updateTestRunResult (clock_result env) runId args db with
  | (Return _, db') => (Return result, db', calls)
  | (Throw e, db') => record_caught env runId (ThrownError e) calls db'
  end.

(** The endpoint [executeTestRun] posts to; [None] when the URL is blank. *)
Definition endpoint_of (url : jsstring) : option jsstring :=
  let rawUrl := trim url in
  if str_falsy rawUrl then None
  else
    let normalizedUrl := replace_trailing_slashes rawUrl in
    Some (if endsWith normalizedUrl (js "/move")
          then normalizedUrl
          else normalizedUrl ++ js "/move").

Definition executeTestRun `{Runtime} (env : Env) (runId : Id) (db : Store)
  : Execution :=
  match getTestRun runId db with
  | None => (Return (ExecError (js "Test run not found.")), db, [])
  | Some run =>
  if negb (bool_decide (run_status run = running))
  then (Return (ExecError (js "Test run is not in running state.")), db, [])
  else
  match getTest (run_testId run) db with
  | None =>
      record_result env runId (failed_with (js "Test not found."))
        (ExecError (js "Test not found.")) [] db
  | Some test =>
  match List.find (fun snakeItem => bool_decide (snake_id snakeItem = youId test))
          (snakes (board test)) with
  | None =>
      record_result env runId (failed_with (js "You snake not found in test."))
        (ExecError (js "You snake not found in test.")) [] db
  | Some you =>
  match endpoint_of (botUrl run) with
  | None =>
      record_result env runId (failed_with (js "Bot URL is required."))
        (ExecError (js "Bot URL is required.")) [] db
  | Some endpoint =>
  let body := requestBody (run_testId run) test you in
  let calls := [(endpoint, body)] in
  match fetch env endpoint body with
  | FetchRejected e => record_caught env runId e calls db
  | FetchResponse http_status text =>
  let responseTimeMs := clock_fetchEnd env - clock_fetchStart env in
  match text with
  | inl e => record_caught env runId e calls db
  | inr responseText =>
  let parsed :=
    if str_falsy responseText then Some JNull else JSON_parse responseText in
  match parsed with
  | None =>
      let error := js "Non-JSON response (" ++ Number_toString http_status ++ js ")." in
      record_result_try env runId
        {| res_status := terminal_failed; res_move := None; res_shout := None;
           res_passed := None; res_error := Some error;
           res_httpStatus := Some http_status;
           res_rawResponse := Some (slice0 1000 responseText);
           res_responseTimeMs := Some responseTimeMs |}
        (ExecError error) calls db
  | Some data =>
  if negb (response_ok http_status)
  then
    let error := js "HTTP " ++ Number_toString http_status in
    record_result_try env runId
      {| res_status := terminal_failed; res_move := None; res_shout := None;
         res_passed := None; res_error := Some error;
         res_httpStatus := Some http_status;
         res_rawResponse := Some (slice0 1000 (JSON_stringify data));
         res_responseTimeMs := Some responseTimeMs |}
      (ExecError error) calls db
  else
    let move := string_field data (js "move") in
    let shout := string_field data (js "shout") in
    let passed :=
      match move with
      | Some m => includes (expectedSafeMoves test) m
      | None => false
      end in
    record_result_try env runId
      {| res_status := terminal_completed; res_move := move; res_shout := shout;
         res_passed := Some passed; res_error := None;
         res_httpStatus := Some http_status;
         res_rawResponse := Some (slice0 1000 (JSON_stringify data));
         res_responseTimeMs := Some responseTimeMs |}
      (ExecOk move shout passed responseTimeMs) calls db
  end end end end end end end.

(** The parts of an execution. *)
Definition answer_of (e : Execution) : outcome ExecResult := e.1.1.
Definition store_after (e : Execution) : Store := e.1.2.
Definition calls_of (e : Execution) : list (jsstring * RequestBody) := e.2.

(** The run [runId] is running on a test whose snake resolves, and the bot
    answers the POST with the status [http_status] and the body [text]. *)
Definition bot_responds (env : Env) (runId : Id) (db : Store) (test : Test)
    (http_status : N) (text : jsstring) : Prop :=
  ∃ run you endpoint,
    getTestRun runId db = Some run
    ∧ run_status run = running
    ∧ getTest (run_testId run) db = Some test
    ∧ List.find (fun snakeItem => bool_decide (snake_id snakeItem = youId test))
        (snakes (board test)) = Some you
    ∧ endpoint_of (botUrl run) = Some endpoint
    ∧ fetch env endpoint (requestBody (run_testId run) test you)
      = FetchResponse http_status (inr text).

(** The store in which the run [runId] carries a terminal result. *)
Definition closed_with (db : Store) (runId : Id) (now : Z) (args : ResultArgs)
    (run : TestRun) : Store :=
  with_testRuns db (<[runId := Some (terminal_patch now args run)]> (testRuns db)).

(** The normalisation of a bot URL in the words of the specification: trim
    the white space, strip the trailing slashes, and append [/move] unless
    the stripped URL already ends with it. *)
Definition is_trimmed_of (url trimmed : jsstring) : Prop :=
  ∃ lead trail,
    url = lead ++ trimmed ++ trail
    ∧ Forall (fun c => is_white_space c = true) lead
    ∧ Forall (fun c => is_white_space c = true) trail
    ∧ (∀ c, head trimmed = Some c → is_white_space c = false)
    ∧ (∀ c, last trimmed = Some c → is_white_space c = false).

Definition is_stripped_of (trimmed stripped : jsstring) : Prop :=
  ∃ n, trimmed = stripped ++ replicate n slash ∧ last stripped ≠ Some slash.

Definition spec_endpoint (url endpoint : jsstring) : Prop :=
  ∃ trimmed stripped,
    is_trimmed_of url trimmed ∧ trimmed ≠ []
    ∧ is_stripped_of trimmed stripped
    ∧ ((js "/move" `suffix_of` stripped ∧ endpoint = stripped)
       ∨ (¬ js "/move" `suffix_of` stripped ∧ endpoint = stripped ++ js "/move")).

(** ** Login attempts, for statements about sequences of them *)

(** Whether [login] finds the user and the password matches. *)
Definition credentials_ok `{Runtime} (db : Store) (arg_email arg_password : jsstring)
  : bool :=
  match db_first (fun u => bool_decide (emailLower u = trim (toLowerCase arg_email)))
          (users db) with
  | Some (_, user) => bcrypt_compareSync arg_password (passwordHash user)
  | None => false
  end.

Record LoginAttempt := {
  at_time : Z;
  at_token : jsstring;
  at_email : jsstring;
  at_password : jsstring
}.

Definition login_attempt `{Runtime} (client : jsstring) (a : LoginAttempt)
  : M LoginResult :=
  login (at_time a) (at_token a) (at_email a) (at_password a) client.

(** The store after the attempts of one client, in order. *)
Fixpoint login_run `{Runtime} (client : jsstring) (attempts : list LoginAttempt)
    (db : Store) : Store :=
  match attempts with
  | [] => db
  | a :: rest => login_run client rest (login_attempt client a db).2
  end.

(** The row of a client after [n] failures counted in the window that
    started at [start]; [latest] is the time of the latest one. *)
Definition counted (client : jsstring) (start : Z) (n : Z) (latest : Z) : RateLimit :=
  {| clientId := client; windowStart := start; attempts := n;
     blockedUntil :=
       if bool_decide (n >= RATE_LIMIT_MAX_ATTEMPTS)
       then Some (latest + RATE_LIMIT_WINDOW_MS) else None |}.

(** ** The perma-rejection flag across stores *)

(** Every test that carries [permaRejected = true] in [db] is still there,
    and still carries it, in [db']. *)
Definition perma_kept (db db' : Store) : Prop :=
  ∀ id t, getTest id db = Some t → permaRejected t = Some true →
    ∃ t', getTest id db' = Some t' ∧ permaRejected t' = Some true.

(** A handler keeps the flag when every store it can leave does. *)
Definition keeps_perma {A} (m : M A) : Prop := ∀ db, perma_kept db (m db).2.

(** ** A small world for worked examples

    Two users (an owner and an admin) with a live session each and an expired
    one for the owner, one test with the safe moves [up] and [right], and
    four runs of it. *)

Definition sample_snake : Snake :=
  {| snake_id := js "a"; snake_name := js "alpha"; health := 90;
     body := [{| x := 1; y := 1 |}; {| x := 1; y := 0 |}];
     snake_head := {| x := 1; y := 1 |}; snake_length := 2;
     latency := None; snake_shout := None; squad := None; headEmoji := None |}.

Definition sample_board : Board :=
  {| height := 11; width := 11; food := [{| x := 5; y := 5 |}]; hazards := [];
     snakes := [sample_snake] |}.

Definition sample_test (st : option TestStatus) (reason : option jsstring)
    (perma : option bool) : Test :=
  {| name := js "corner"; description := None; board := sample_board;
     game := None; turn := 3; youId := js "a";
     expectedSafeMoves := [js "up"; js "right"]; createdAt := 1000;
     ownerId := Some 0%nat; status := st; approvedBy := None;
     approvedAt := None; rejectionReason := reason; permaRejected := perma |}.

Definition sample_args : TestArgs :=
  {| arg_name := js "corner v2"; arg_description := Some (js "edited");
     arg_board := sample_board; arg_game := None; arg_turn := 4;
     arg_youId := js "a"; arg_expectedSafeMoves := [js "up"] |}.

Definition sample_run (url : jsstring) (st : RunStatus) : TestRun :=
  {| run_testId := 0%nat; run_userId := 0%nat; botUrl := url; run_status := st;
     run_move := None; run_shout := None; run_passed := None;
     run_error := None; run_httpStatus := None; run_rawResponse := None;
     run_responseTimeMs := None; startedAt := 2000; completedAt := None |}.

Definition sample_users : table User :=
  [Some {| email := js "Owner@x.com"; emailLower := js "owner@x.com";
           passwordHash := sample_hash (js "hunter2"); username := js "owner";
           isAdmin := false |};
   Some {| email := js "admin@x.com"; emailLower := js "admin@x.com";
           passwordHash := sample_hash (js "s3cret"); username := js "admin";
           isAdmin := true |}].

Definition sample_sessions : table UserSession :=
  [Some {| session_userId := 0%nat; session_token := js "tok-owner";
           session_createdAt := 0; session_expiresAt := 90000000 |};
   Some {| session_userId := 1%nat; session_token := js "tok-admin";
           session_createdAt := 0; session_expiresAt := 90000000 |};
   Some {| session_userId := 0%nat; session_token := js "tok-old";
           session_createdAt := 0; session_expiresAt := 10 |}].

Definition sample_db (t : Test) : Store :=
  {| users := sample_users;
     userSessions := sample_sessions;
     adminSessions :=
       [Some {| admin_token := js "adm-old"; admin_createdAt := 0;
                admin_expiresAt := 10 |}];
     adminRateLimits := [];
     tests := [Some t];
     testRuns :=
       [Some (sample_run (js "https://x.com") running);
        Some (sample_run (js "https://x.com/move/") running);
        Some (sample_run (js "  ") running);
        Some (sample_run (js "https://x.com") completed)] |}.

Definition sample_approved : Test := sample_test (Some approved) None None.

(** A bot that answers at [https://x.com/move] only. *)
Definition sample_env (http_status : N) (text : jsstring) : Env :=
  {| fetch := fun endpoint _ =>
       if decide (endpoint = js "https://x.com/move")
       then FetchResponse http_status (inr text)
       else FetchRejected (ThrownError (js "fetch failed"));
     clock_fetchStart := 5000; clock_fetchEnd := 5042; clock_result := 5050 |}.

(** The body [{"move":m}]. *)
Definition move_body (m : jsstring) : jsstring :=
  js "{" ++ quoted (js "move") ++ js ":" ++ quoted m ++ js "}".

Definition sample_rejected : Test :=
  sample_test (Some rejected) (Some (js "needs food")) None.

Definition sample_perma : Test :=
  sample_test (Some rejected) (Some (js "spam")) (Some true).

(** A login attempt of the owner at [time] with [password]. *)
Definition owner_attempt (time : Z) (password : jsstring) : LoginAttempt :=
  {| at_time := time; at_token := js "tok-new"; at_email := js " Owner@X.com ";
     at_password := password |}.

(** * More of the backend *)

(** ** Relations between the tests of two stores *)

(** Every test of [db] is still in [db'], under the same id, and related to
    what it was by [R]. *)
Definition tests_kept (R : Test → Test → Prop) (db db' : Store) : Prop :=
  ∀ id t, getTest id db = Some t → ∃ t', getTest id db' = Some t' ∧ R t t'.

Definition keeps_tests {A} (R : Test → Test → Prop) (m : M A) : Prop :=
  ∀ db, tests_kept R db (m db).2.

(** Every test of the store satisfies [P]. *)
Definition all_tests (P : Test → Prop) (db : Store) : Prop :=
  ∀ id t, getTest id db = Some t → P t.

Definition keeps_all_tests {A} (P : Test → Prop) (m : M A) : Prop :=
  ∀ db, all_tests P db → all_tests P (m db).2.

(** The fields an editor controls. *)
Definition content_of (t : Test) : TestArgs :=
  {| arg_name := name t; arg_description := description t;
     arg_board := board t; arg_game := game t; arg_turn := turn t;
     arg_youId := youId t; arg_expectedSafeMoves := expectedSafeMoves t |}.

(** The [you] snake of the test is on its board. *)
Definition you_on_board (t : Test) : Prop :=
  youExists (board t) (youId t) = true.

(** The clock reading and the token of a moderation call. *)
Definition call_now (c : ModerationCall) : Z :=
  match c with
  | CallCreateUserTest now _ _ | CallUpdateUserTest now _ _ _
  | CallAdminUpdateTest now _ _ _ | CallApproveTest now _ _
  | CallRejectTest now _ _ _ | CallPermaRejectTest now _ _ _
  | CallResubmitTest now _ _ | CallMakeTestPrivate now _ _ => now
  end.

Definition call_token (c : ModerationCall) : jsstring :=
  match c with
  | CallCreateUserTest _ token _ | CallUpdateUserTest _ token _ _
  | CallAdminUpdateTest _ token _ _ | CallApproveTest _ token _
  | CallRejectTest _ token _ _ | CallPermaRejectTest _ token _ _
  | CallResubmitTest _ token _ | CallMakeTestPrivate _ token _ => token
  end.

(** The calls that only an admin may make. *)
Definition admin_call (c : ModerationCall) : bool :=
  match c with
  | CallAdminUpdateTest _ _ _ _ | CallApproveTest _ _ _ | CallRejectTest _ _ _ _
  | CallPermaRejectTest _ _ _ _ | CallMakeTestPrivate _ _ _ => true
  | _ => false
  end.

(** The calls that change the moderation state and nothing else. *)
Definition status_call (c : ModerationCall) : bool :=
  match c with
  | CallApproveTest _ _ _ | CallRejectTest _ _ _ _ | CallPermaRejectTest _ _ _ _
  | CallResubmitTest _ _ _ | CallMakeTestPrivate _ _ _ => true
  | _ => false
  end.

(** The test [id] is public: it is in the store and approved. *)
Definition public_test (id : Id) (db : Store) : Prop :=
  ∃ t, getTest id db = Some t ∧ status t = Some approved.

(** The tests that are public after [m] were public before it, or are
    among [ids]. *)
Definition publishes_only {A} (ids : Id → Prop) (m : M A) : Prop :=
  ∀ db id, public_test id (m db).2 → public_test id db ∨ ids id.

(** The tests an approval call of the list names. *)
Definition approval_of (calls : list ModerationCall) (id : Id) : Prop :=
  ∃ now token, CallApproveTest now token id ∈ calls.

(** An approved test says who approved it and when. *)
Definition approval_stamped (t : Test) : Prop :=
  status t = Some approved → is_Some (approvedBy t) ∧ is_Some (approvedAt t).

(** The run [runId] is running on a test whose snake resolves, its URL is
    not blank, and the exchange with the bot ends as [outcome]. *)
Definition bot_exchange (env : Env) (runId : Id) (db : Store) (run : TestRun)
    (test : Test) (outcome : FetchOutcome) : Prop :=
  ∃ you endpoint,
    getTestRun runId db = Some run
    ∧ run_status run = running
    ∧ getTest (run_testId run) db = Some test
    ∧ List.find (fun snakeItem => bool_decide (snake_id snakeItem = youId test))
        (snakes (board test)) = Some you
    ∧ endpoint_of (botUrl run) = Some endpoint
    ∧ fetch env endpoint (requestBody (run_testId run) test you) = outcome.

(** ** Signing out (convex/auth.ts) *)

Definition logout (token : jsstring) : M unit := fun db =>
  match session_by_token db token with
  | Some (id, _) =>
      match db_delete (userSessions db) id with
      | Some t' => (Return (), with_userSessions db t')
      | None => (Throw (js "Delete on nonexistent document."), db)
      end
  | None => (Return (), db)
  end.

(** ** The admin password and its sessions (convex/battlesnake.ts) *)

(** [SESSION_TTL_MS] of convex/battlesnake.ts, twelve hours; the constant of
    the same name in convex/auth.ts is [SESSION_TTL_MS] above. *)
Definition ADMIN_SESSION_TTL_MS : Z := 12 * 60 * 60 * 1000.

(** [requireAdminPassword]; [expected] is the value of the environment
    variable, absent when it is not set. *)
Definition requireAdminPassword (expected : option jsstring) (password : jsstring)
  : outcome unit :=
  match expected with
  | Some e =>
      if str_falsy e
      then Throw (js "Admin password not configured. Set BATTLESNAKE_ADMIN_PASSWORD in Convex env.")
      else if bool_decide (password = e) then Return ()
      else Throw (js "Invalid admin password.")
  | None =>
      Throw (js "Admin password not configured. Set BATTLESNAKE_ADMIN_PASSWORD in Convex env.")
  end.

Inductive VerifyResult :=
| VerifyError (error : jsstring) (retryAt : option Z)
| VerifyOk (token : jsstring) (expiresAt : Z) (sessionId : Id).

Definition insertAdminSession (doc : AdminSession) : M Id := fun db =>
  let '(id, t') := db_insert (adminSessions db) doc in
  (Return id, with_adminSessions db t').

(** [verifyAdminPassword]; [fresh_token] is the token the handler draws. *)
Definition verifyAdminPassword (now : Z) (fresh_token : jsstring)
    (expected : option jsstring) (password client : jsstring) : M VerifyResult :=
  fun db =>
  let limiter := limiter_by_clientId db client in
  let blockedUntil0 :=
    match limiter with Some (_, l) => blockedUntil l | None => None end in
  if number_truthy blockedUntil0 && bool_decide (default 0 blockedUntil0 > now)
  then (Return (VerifyError (js "Too many attempts. Try again later.") blockedUntil0),
        db)
  else
    let windowStart0 :=
      match limiter with Some (_, l) => windowStart l | None => now end in
    let withinWindow := bool_decide (now - windowStart0 < RATE_LIMIT_WINDOW_MS) in
    let attempts0 :=
      if withinWindow
      then match limiter with Some (_, l) => attempts l | None => 0 end
      else 0 in
    match requireAdminPassword expected password with
    | Throw message =>
        let nextAttempts := attempts0 + 1 in
        let blockedUntil' :=
          if bool_decide (nextAttempts >= RATE_LIMIT_MAX_ATTEMPTS)
          then Some (now + RATE_LIMIT_WINDOW_MS)
          else None in
        match limiter with
        | Some (id, _) =>
            (_ ← patchRateLimit id (fun l =>
                   {| clientId := clientId l;
                      windowStart := if withinWindow then windowStart0 else now;
                      attempts := nextAttempts;
                      blockedUntil := blockedUntil' |});
             mret (VerifyError message None)) db
        | None =>
            (_ ← insertRateLimit
                   {| clientId := client; windowStart := now;
                      attempts := nextAttempts; blockedUntil := blockedUntil' |};
             mret (VerifyError message None)) db
        end
    | Return _ =>
        (_ ← match limiter with
             | Some (id, _) =>
                 patchRateLimit id (fun l =>
                   {| clientId := clientId l; windowStart := now; attempts := 0;
                      blockedUntil := None |})
             | None =>
                 _ ← insertRateLimit
                       {| clientId := client; windowStart := now; attempts := 0;
                          blockedUntil := None |};
                 mret ()
             end;
         sessionId ← insertAdminSession
                       {| admin_token := fresh_token; admin_createdAt := now;
                          admin_expiresAt := now + ADMIN_SESSION_TTL_MS |};
         mret (VerifyOk fresh_token (now + ADMIN_SESSION_TTL_MS) sessionId)) db
    end.

Inductive ValidateResult :=
| ValidateError (error : jsstring)
| ValidateOk (expiresAt : Z).

(** [validateAdminSession]: a query. *)
Definition validateAdminSession (now : Z) (token : jsstring) (db : Store)
  : ValidateResult :=
  match db_first (fun s => bool_decide (admin_token s = token)) (adminSessions db) with
  | None => ValidateError (js "Session not found.")
  | Some (_, session) =>
      if bool_decide (admin_expiresAt session < now)
      then ValidateError (js "Session expired.")
      else ValidateOk (admin_expiresAt session)
  end.

(** The handlers behind the admin password. *)
Definition createTest (now : Z) (adminToken : jsstring) (args : TestArgs)
  : M (option Test) :=
  _ ← requireAdminSession now adminToken;
  if negb (youExists (arg_board args) (arg_youId args))
  then throw "youId must match a snake in the board."
  else
    id ← insertTest
           {| name := arg_name args; description := arg_description args;
              board := arg_board args; game := arg_game args;
              turn := arg_turn args; youId := arg_youId args;
              expectedSafeMoves := arg_expectedSafeMoves args;
              createdAt := now; ownerId := None; status := None;
              approvedBy := None; approvedAt := None;
              rejectionReason := None; permaRejected := None |};
    readTest id.

Definition updateTest (now : Z) (adminToken : jsstring) (id : Id) (args : TestArgs)
  : M (option Test) :=
  _ ← requireAdminSession now adminToken;
  if negb (youExists (arg_board args) (arg_youId args))
  then throw "youId must match a snake in the board."
  else
    _ ← patchTest id (patch_content args);
    readTest id.

Definition deleteTestDoc (id : Id) : M unit := fun db =>
  match db_delete (tests db) id with
  | Some t' => (Return (), with_tests db t')
  | None => (Throw (js "Delete on nonexistent document."), db)
  end.

Definition deleteTest (now : Z) (adminToken : jsstring) (id : Id) : M unit :=
  _ ← requireAdminSession now adminToken;
  deleteTestDoc id.

(** ** Running a test without a run record (convex/battlesnake.ts) *)

Inductive RunTestResult :=
| RunTestError (error : jsstring) (http_status : option N) (raw : option (jsstring + json))
| RunTestOk (move shout : option jsstring) (http_status : N) (raw : json).

(** [runTest]: its answer and the calls it made.  The raw answer of an
    error is the text that did not parse, or the parsed body. *)
Definition runTest `{Runtime} (env : Env) (testId : Id) (url : jsstring) (db : Store)
  : RunTestResult * list (jsstring * RequestBody) :=
  match getTest testId db with
  | None => (RunTestError (js "Test not found.") None None, [])
  | Some test =>
  match List.find (fun snakeItem => bool_decide (snake_id snakeItem = youId test))
          (snakes (board test)) with
  | None => (RunTestError (js "You snake not found in test.") None None, [])
  | Some you =>
  match endpoint_of url with
  | None => (RunTestError (js "Bot URL is required.") None None, [])
  | Some endpoint =>
  let body := requestBody testId test you in
  let calls := [(endpoint, body)] in
  match fetch env endpoint body with
  | FetchRejected e => (RunTestError (error_message e) None None, calls)
  | FetchResponse http_status text =>
  match text with
  | inl e => (RunTestError (error_message e) None None, calls)
  | inr responseText =>
  match (if str_falsy responseText then Some JNull else JSON_parse responseText) with
  | None =>
      (RunTestError
         (js "Non-JSON response (" ++ Number_toString http_status ++ js ").")
         (Some http_status) (Some (inl responseText)), calls)
  | Some data =>
      if negb (response_ok http_status)
      then (RunTestError (js "HTTP " ++ Number_toString http_status)
              (Some http_status) (Some (inr data)), calls)
      else (RunTestOk (string_field data (js "move"))
              (string_field data (js "shout")) http_status data, calls)
  end end end end end end.

(** ** Listings (convex/battlesnake.ts) *)

(** [.withIndex(ix, q => q.eq(field, v)).collect()]: the rows matching the
    key, oldest first, each with its id. *)
Fixpoint db_collect_from {A} (matches : A → bool) (t : table A) (i : Id)
  : list (Id * A) :=
  match t with
  | [] => []
  | Some doc :: t' =>
      if matches doc then (i, doc) :: db_collect_from matches t' (S i)
      else db_collect_from matches t' (S i)
  | None :: t' => db_collect_from matches t' (S i)
  end.

Definition db_collect {A} (matches : A → bool) (t : table A) : list (Id * A) :=
  db_collect_from matches t 0%nat.

(** [listPublicTests]: the approved tests, newest first. *)
Definition listPublicTests (db : Store) : list (Id * Test) :=
  reverse (db_collect (fun t => bool_decide (status t = Some approved)) (tests db)).

(** [listMyTests] *)
Definition listMyTests (now : Z) (token : jsstring) (db : Store)
  : outcome (list (Id * Test)) :=
  match requireUserSession now token db with
  | Throw e => Throw e
  | Return (userId, _) =>
      Return (reverse (db_collect (fun t => bool_decide (ownerId t = Some userId))
                         (tests db)))
  end.

(** [listUserTestRuns]: [limit] is the optional argument, a count. *)
Definition listUserTestRuns (now : Z) (token : jsstring) (limit : option nat)
    (db : Store) : outcome (list (Id * TestRun)) :=
  match requireUserSession now token db with
  | Throw e => Throw e
  | Return (userId, _) =>
      Return (take (default 50%nat limit)
                (reverse (db_collect (fun r => bool_decide (run_userId r = userId))
                            (testRuns db))))
  end.
(** ** Collections (convex/battlesnake.ts) *)

Record Collection := {
  col_name : jsstring;
  col_description : option jsstring;
  col_ownerId : Id;
  isPublic : bool;
  shareSlug : jsstring;
  col_createdAt : Z;
  updatedAt : Z
}.

Record CollectionTest := {
  collectionId : Id;
  ct_testId : Id;
  addedAt : Z
}.

(** The store together with the two tables of the collections. *)
Record Library := {
  lib_store : Store;
  collections : table Collection;
  collectionTests : table CollectionTest
}.

Definition with_store (lib : Library) (db : Store) : Library :=
  {| lib_store := db; collections := collections lib;
     collectionTests := collectionTests lib |}.

Definition with_collections (lib : Library) (t : table Collection) : Library :=
  {| lib_store := lib_store lib; collections := t;
     collectionTests := collectionTests lib |}.

Definition with_collectionTests (lib : Library) (t : table CollectionTest)
  : Library :=
  {| lib_store := lib_store lib; collections := collections lib;
     collectionTests := t |}.

(** A handler on the library: its answer and the library it leaves.  A
    mutation that throws commits none of its writes, so what comes with a
    [Throw] is the library the handler found. *)
Definition Lib (A : Type) : Type := Library → outcome A * Library.

Definition slug_chars : jsstring := js "abcdefghijklmnopqrstuvwxyz0123456789".

(** [chars.charAt(i)]: the empty string out of range. *)
Definition charAt (s : jsstring) (i : nat) : jsstring :=
  match s !! i with
  | Some c => [c]
  | None => []
  end.

(** [generateSlug]; [draw i] is the value of
    [Math.floor(Math.random() * chars.length)] in round [i] of the loop. *)
Definition generateSlug (draw : nat → nat) : jsstring :=
  foldl (fun slug i => slug ++ charAt slug_chars (draw i)) [] (seq 0 8).

(** The rows of a collection, oldest first, and the row of a test in it. *)
Definition rows_of_collection (lib : Library) (id : Id)
  : list (Id * CollectionTest) :=
  db_collect (fun ct => bool_decide (collectionId ct = id)) (collectionTests lib).

Definition rows_of_test (lib : Library) (testId : Id)
  : list (Id * CollectionTest) :=
  db_collect (fun ct => bool_decide (ct_testId ct = testId)) (collectionTests lib).

Definition member_row (lib : Library) (id testId : Id)
  : option (Id * CollectionTest) :=
  db_first (fun ct => bool_decide (collectionId ct = id)
                      && bool_decide (ct_testId ct = testId))
    (collectionTests lib).

(** [for (const ct of rows) await ctx.db.delete(ct._id)] *)
Fixpoint delete_each {A} (ids : list Id) (t : table A) : outcome unit * table A :=
  match ids with
  | [] => (Return (), t)
  | id :: rest =>
      match db_delete t id with
      | Some t' => delete_each rest t'
      | None => (Throw (js "Delete on nonexistent document."), t)
      end
  end.

(** The steps every handler of a collection starts with: the session, the
    collection, and the check that the caller owns it; [message] is what a
    caller who does not own it is told. *)
Definition own_collection (now : Z) (token : jsstring) (id : Id)
    (message : string) (lib : Library) : outcome (Id * Collection) :=
  match requireUserSession now token (lib_store lib) with
  | Throw e => Throw e
  | Return (userId, _) =>
      match db_get (collections lib) id with
      | None => Throw (js "Collection not found.")
      | Some collection =>
          if negb (bool_decide (col_ownerId collection = userId))
          then Throw (js message)
          else Return (userId, collection)
      end
  end.

Definition listCollections (now : Z) (token : jsstring) (lib : Library)
  : outcome (list (Id * Collection)) :=
  match requireUserSession now token (lib_store lib) with
  | Throw e => Throw e
  | Return (userId, _) =>
      Return (reverse (db_collect (fun c => bool_decide (col_ownerId c = userId))
                         (collections lib)))
  end.

Definition createCollection (now : Z) (draw : nat → nat) (token : jsstring)
    (name : jsstring) (description : option jsstring) (public : bool)
  : Lib (option Collection) := fun lib =>
  match requireUserSession now token (lib_store lib) with
  | Throw e => (Throw e, lib)
  | Return (userId, _) =>
      let '(id, t') :=
        db_insert (collections lib)
          {| col_name := name; col_description := description;
             col_ownerId := userId; isPublic := public;
             shareSlug := generateSlug draw; col_createdAt := now;
             updatedAt := now |} in
      (Return (db_get t' id), with_collections lib t')
  end.

Definition updateCollection (now : Z) (token : jsstring) (id : Id)
    (name : jsstring) (description : option jsstring) (public : bool)
  : Lib (option Collection) := fun lib =>
  match own_collection now token id
          "You don't have permission to edit this collection." lib with
  | Throw e => (Throw e, lib)
  | Return _ =>
      match db_patch (collections lib) id (fun c =>
              {| col_name := name; col_description := description;
                 col_ownerId := col_ownerId c; isPublic := public;
                 shareSlug := shareSlug c; col_createdAt := col_createdAt c;
                 updatedAt := now |}) with
      | Some t' => (Return (db_get t' id), with_collections lib t')
      | None => (Throw (js "Update on nonexistent document."), lib)
      end
  end.

Definition deleteCollection (now : Z) (token : jsstring) (id : Id)
  : Lib unit := fun lib =>
  match own_collection now token id
          "You don't have permission to delete this collection." lib with
  | Throw e => (Throw e, lib)
  | Return _ =>
      match delete_each (rows_of_collection lib id).*1 (collectionTests lib) with
      | (Throw e, _) => (Throw e, lib)
      | (Return _, rows') =>
          match db_delete (collections lib) id with
          | Some t' =>
              (Return (), with_collections (with_collectionTests lib rows') t')
          | None => (Throw (js "Delete on nonexistent document."), lib)
          end
      end
  end.

Definition regenerateShareSlug (now : Z) (draw : nat → nat) (token : jsstring)
    (id : Id) : Lib jsstring := fun lib =>
  match own_collection now token id
          "You don't have permission to modify this collection." lib with
  | Throw e => (Throw e, lib)
  | Return _ =>
      let newSlug := generateSlug draw in
      match db_patch (collections lib) id (fun c =>
              {| col_name := col_name c; col_description := col_description c;
                 col_ownerId := col_ownerId c; isPublic := isPublic c;
                 shareSlug := newSlug; col_createdAt := col_createdAt c;
                 updatedAt := now |}) with
      | Some t' => (Return newSlug, with_collections lib t')
      | None => (Throw (js "Update on nonexistent document."), lib)
      end
  end.

Definition addTestToCollection (now : Z) (token : jsstring) (id testId : Id)
  : Lib unit := fun lib =>
  match own_collection now token id
          "You don't have permission to modify this collection." lib with
  | Throw e => (Throw e, lib)
  | Return (userId, _) =>
      match getTest testId (lib_store lib) with
      | None => (Throw (js "Test not found."), lib)
      | Some test =>
          if negb (bool_decide (ownerId test = Some userId))
             && negb (bool_decide (status test = Some approved))
          then (Throw (js "You can only add your own tests or public tests to collections."),
                lib)
          else
            match member_row lib id testId with
            | Some _ => (Throw (js "Test is already in this collection."), lib)
            | None =>
                let '(_, rows') :=
                  db_insert (collectionTests lib)
                    {| collectionId := id; ct_testId := testId; addedAt := now |} in
                (Return (), with_collectionTests lib rows')
            end
      end
  end.

Definition removeTestFromCollection (now : Z) (token : jsstring) (id testId : Id)
  : Lib unit := fun lib =>
  match own_collection now token id
          "You don't have permission to modify this collection." lib with
  | Throw e => (Throw e, lib)
  | Return _ =>
      match member_row lib id testId with
      | Some (rowId, _) =>
          match db_delete (collectionTests lib) rowId with
          | Some rows' => (Return (), with_collectionTests lib rows')
          | None => (Throw (js "Delete on nonexistent document."), lib)
          end
      | None => (Return (), lib)
      end
  end.

(** The tests of the rows of a collection that are still in the store, in
    the order of the rows. *)
Definition member_tests (lib : Library) (id : Id) : list (Id * Test) :=
  omap (fun row : Id * CollectionTest =>
          match getTest (ct_testId row.2) (lib_store lib) with
          | Some test => Some (ct_testId row.2, test)
          | None => None
          end)
    (rows_of_collection lib id).

Definition getCollectionTests (now : Z) (token : jsstring) (id : Id)
    (lib : Library) : outcome (list (Id * Test)) :=
  match own_collection now token id
          "You don't have permission to view this collection." lib with
  | Throw e => Throw e
  | Return _ => Return (member_tests lib id)
  end.

Record SharedCollection := {
  shared_id : Id;
  shared_collection : Collection;
  ownerName : jsstring;
  shared_tests : list (Id * Test)
}.

(** [getCollectionBySlug]: [None] is [null]. *)
Definition getCollectionBySlug (slug : jsstring) (lib : Library)
  : option SharedCollection :=
  match db_first (fun c => bool_decide (shareSlug c = slug)) (collections lib) with
  | None => None
  | Some (id, collection) =>
      if negb (isPublic collection) then None
      else
        Some {| shared_id := id; shared_collection := collection;
                ownerName :=
                  match db_get (users (lib_store lib)) (col_ownerId collection) with
                  | Some owner => username owner
                  | None => js "Unknown"
                  end;
                shared_tests := member_tests lib id |}
  end.

(** [deleteUserTest] *)
Definition deleteUserTest (now : Z) (token : jsstring) (id : Id)
  : Lib unit := fun lib =>
  match requireUserSession now token (lib_store lib) with
  | Throw e => (Throw e, lib)
  | Return (userId, isAdmin') =>
      match getTest id (lib_store lib) with
      | None => (Throw (js "Test not found."), lib)
      | Some test =>
          if negb (bool_decide (ownerId test = Some userId)) && negb isAdmin'
          then (Throw (js "You don't have permission to delete this test."), lib)
          else
            match delete_each (rows_of_test lib id).*1 (collectionTests lib) with
            | (Throw e, _) => (Throw e, lib)
            | (Return _, rows') =>
                match deleteTestDoc id (lib_store lib) with
                | (Return _, db') =>
                    (Return (), with_store (with_collectionTests lib rows') db')
                | (Throw e, _) => (Throw e, lib)
                end
            end
      end
  end.

(** One call that writes to the library, with the clock reading and the
    random draws it gets; the moderation calls act on the store. *)
Inductive LibraryCall :=
| CallCreateCollection (now : Z) (draw : nat → nat) (token name : jsstring)
    (description : option jsstring) (public : bool)
| CallUpdateCollection (now : Z) (token : jsstring) (id : Id) (name : jsstring)
    (description : option jsstring) (public : bool)
| CallDeleteCollection (now : Z) (token : jsstring) (id : Id)
| CallRegenerateShareSlug (now : Z) (draw : nat → nat) (token : jsstring) (id : Id)
| CallAddTestToCollection (now : Z) (token : jsstring) (id testId : Id)
| CallRemoveTestFromCollection (now : Z) (token : jsstring) (id testId : Id)
| CallDeleteUserTest (now : Z) (token : jsstring) (id : Id)
| CallModeration (c : ModerationCall).

(** The library a call leaves, whatever it answered. *)
Definition library_step (c : LibraryCall) (lib : Library) : Library :=
  match c with
  | CallCreateCollection now draw token name description public =>
      (createCollection now draw token name description public lib).2
  | CallUpdateCollection now token id name description public =>
      (updateCollection now token id name description public lib).2
  | CallDeleteCollection now token id => (deleteCollection now token id lib).2
  | CallRegenerateShareSlug now draw token id =>
      (regenerateShareSlug now draw token id lib).2
  | CallAddTestToCollection now token id testId =>
      (addTestToCollection now token id testId lib).2
  | CallRemoveTestFromCollection now token id testId =>
      (removeTestFromCollection now token id testId lib).2
  | CallDeleteUserTest now token id => (deleteUserTest now token id lib).2
  | CallModeration c => with_store lib (moderation_step c (lib_store lib)).2
  end.

Fixpoint library_run (calls : list LibraryCall) (lib : Library) : Library :=
  match calls with
  | [] => lib
  | c :: rest => library_run rest (library_step c lib)
  end.

(** No test is twice in a collection. *)
Definition members_unique (lib : Library) : Prop :=
  ∀ i j row row',
    db_get (collectionTests lib) i = Some row →
    db_get (collectionTests lib) j = Some row' →
    collectionId row = collectionId row' → ct_testId row = ct_testId row' →
    i = j.

(** Every row names a collection and a test that exist. *)
Definition members_resolve (lib : Library) : Prop :=
  ∀ i row,
    db_get (collectionTests lib) i = Some row →
    is_Some (db_get (collections lib) (collectionId row))
    ∧ is_Some (getTest (ct_testId row) (lib_store lib)).
(** ** The first admin (convex/admin.ts) *)

Definition with_users (db : Store) (t : table User) : Store :=
  {| users := t; userSessions := userSessions db;
     adminSessions := adminSessions db;
     adminRateLimits := adminRateLimits db; tests := tests db;
     testRuns := testRuns db |}.

(** [createAdminUser]: it answers with its message.  [expected] is the
    value of the environment variable, absent when it is not set, and
    [hash] is what [bcrypt.hash] makes of the password. *)
Definition createAdminUser `{Runtime} (expected : option jsstring)
    (hash : jsstring) (arg_email arg_username adminSecret : jsstring)
  : M jsstring := fun db =>
  match expected with
  | None => (Throw (js "Admin password not configured."), db)
  | Some expectedSecret =>
      if str_falsy expectedSecret
      then (Throw (js "Admin password not configured."), db)
      else if negb (bool_decide (adminSecret = expectedSecret))
      then (Throw (js "Invalid admin secret."), db)
      else
        let emailLower' := trim (toLowerCase arg_email) in
        match db_first (fun u => bool_decide (emailLower u = emailLower'))
                (users db) with
        | Some (id, existingEmail) =>
            if isAdmin existingEmail
            then (Return (js "Admin user already exists."), db)
            else
              match db_patch (users db) id (fun u =>
                      {| email := email u; emailLower := emailLower u;
                         passwordHash := passwordHash u;
                         username := username u; isAdmin := true |}) with
              | Some t' =>
                  (Return (js "Existing user upgraded to admin."),
                   with_users db t')
              | None => (Throw (js "Update on nonexistent document."), db)
              end
        | None =>
            let '(_, t') :=
              db_insert (users db)
                {| email := trim arg_email; emailLower := emailLower';
                   passwordHash := hash; username := trim arg_username;
                   isAdmin := true |} in
            (Return (js "Admin user created."), with_users db t')
        end
  end.

Definition hasAdminUser (db : Store) : bool :=
  match db_first isAdmin (users db) with
  | Some _ => true
  | None => false
  end.

(** ** The engine quota (convex/engine.ts) *)

Definition MONTHLY_ENGINE_LIMIT : Z := 5.

(** The fields of a user that engine.ts reads and writes. *)
Record EngineUser := {
  bannedFromEngine : option bool;
  isSuperAdmin : option bool;
  engineUsageCount : option Z;
  engineUsageResetMonth : option Z
}.

(** The two tables engine.ts works on. *)
Record EngineDb := {
  engine_sessions : table UserSession;
  engine_users : table EngineUser
}.

(** [if (flag)] on an optional boolean. *)
Definition flag_set (flag : option bool) : bool := default false flag.

(** The uses that count in [currentMonth]. *)
Definition usage_in (currentMonth : Z) (user : EngineUser) : Z :=
  let usageCount := default 0 (engineUsageCount user) in
  if negb (bool_decide (engineUsageResetMonth user = Some currentMonth))
  then 0 else usageCount.

Inductive EngineAccess :=
| EngineDenied (error : jsstring)
| EngineAllowed (canUse : bool) (usageRemaining : Z).

(** [checkEngineAccess]: a query; [currentMonth] is [getCurrentMonth()]. *)
Definition checkEngineAccess (now currentMonth : Z) (token : jsstring)
    (db : EngineDb) : EngineAccess :=
  match db_first (fun s => bool_decide (session_token s = token))
          (engine_sessions db) with
  | None => EngineDenied (js "Session invalid.")
  | Some (_, session) =>
      if bool_decide (session_expiresAt session < now)
      then EngineDenied (js "Session expired.")
      else
        match db_get (engine_users db) (session_userId session) with
        | None => EngineDenied (js "User not found.")
        | Some user =>
            if flag_set (bannedFromEngine user)
            then EngineDenied (js "You are banned from using the engine.")
            else if flag_set (isSuperAdmin user)
            then EngineAllowed true (-1)
            else
              let usageRemaining :=
                MONTHLY_ENGINE_LIMIT - usage_in currentMonth user in
              EngineAllowed (bool_decide (usageRemaining > 0)) usageRemaining
        end
  end.

(** [incrementEngineUsage]: [None] is [{ ok: true }], [Some error] is
    [{ ok: false, error }]. *)
Definition incrementEngineUsage (currentMonth : Z) (token : jsstring)
    (db : EngineDb) : outcome (option jsstring) * EngineDb :=
  match db_first (fun s => bool_decide (session_token s = token))
          (engine_sessions db) with
  | None => (Return (Some (js "Session invalid.")), db)
  | Some (_, session) =>
      match db_get (engine_users db) (session_userId session) with
      | None => (Return (Some (js "User not found.")), db)
      | Some user =>
          if flag_set (bannedFromEngine user)
          then (Return (Some (js "You are banned from using the engine.")), db)
          else if flag_set (isSuperAdmin user)
          then (Return None, db)
          else
            let usageCount := usage_in currentMonth user in
            if bool_decide (usageCount >= MONTHLY_ENGINE_LIMIT)
            then (Return (Some (js "Monthly engine usage limit reached (5 uses per month).")),
                  db)
            else
              match db_patch (engine_users db) (session_userId session)
                      (fun u =>
                         {| bannedFromEngine := bannedFromEngine u;
                            isSuperAdmin := isSuperAdmin u;
                            engineUsageCount := Some (usageCount + 1);
                            engineUsageResetMonth := Some currentMonth |}) with
              | Some t' =>
                  (Return None,
                   {| engine_sessions := engine_sessions db;
                      engine_users := t' |})
              | None => (Throw (js "Update on nonexistent document."), db)
              end
      end
  end.

(** The database after [n] calls of [incrementEngineUsage] in a row. *)
Fixpoint engine_uses (n : nat) (currentMonth : Z) (token : jsstring)
    (db : EngineDb) : EngineDb :=
  match n with
  | O => db
  | S n' =>
      engine_uses n' currentMonth token
        (incrementEngineUsage currentMonth token db).2
  end.
(** ** More of the sample world *)

(** The sample store with an admin session that is still good. *)
Definition sample_admin_db : Store :=
  with_adminSessions (sample_db sample_approved)
    [Some {| admin_token := js "adm-old"; admin_createdAt := 0;
             admin_expiresAt := 10 |};
     Some {| admin_token := js "adm-new"; admin_createdAt := 0;
             admin_expiresAt := 43200000 |}].

(** A bot that cannot be reached. *)
Definition sample_dead_env : Env :=
  {| fetch := fun _ _ => FetchRejected (ThrownError (js "connect ECONNREFUSED"));
     clock_fetchStart := 5000; clock_fetchEnd := 5042; clock_result := 5050 |}.

Definition sample_collection (owner : Id) (public : bool) (slug : jsstring)
  : Collection :=
  {| col_name := js "openings"; col_description := None; col_ownerId := owner;
     isPublic := public; shareSlug := slug; col_createdAt := 2000;
     updatedAt := 2000 |}.

(** The owner has a public collection, still empty; the admin has a
    private one that holds the test of the owner. *)
Definition sample_library : Library :=
  {| lib_store := sample_db sample_approved;
     collections :=
       [Some (sample_collection 0 true (js "abcd1234"));
        Some (sample_collection 1 false (js "wxyz5678"))];
     collectionTests :=
       [Some {| collectionId := 1%nat; ct_testId := 0%nat; addedAt := 3000 |}] |}.

(** The owner used the engine five times in month 24310; the admin is a
    super admin. *)
Definition sample_engine_db : EngineDb :=
  {| engine_sessions := sample_sessions;
     engine_users :=
       [Some {| bannedFromEngine := None; isSuperAdmin := None;
                engineUsageCount := Some 5;
                engineUsageResetMonth := Some 24310 |};
        Some {| bannedFromEngine := None; isSuperAdmin := Some true;
                engineUsageCount := None; engineUsageResetMonth := None |}] |}.

(** Five failed logins of the owner from one client. *)
Definition five_failures : list LoginAttempt :=
  [owner_attempt 1000 (js "a"); owner_attempt 2000 (js "b");
   owner_attempt 3000 (js "c"); owner_attempt 4000 (js "d");
   owner_attempt 5000 (js "e")].

(** * Properties *)

(** ** Tables *)

Section Tables.
Context {A : Type}.
Implicit Types (t : table A) (id : Id).

Lemma db_get_patch_eq t t' id f doc :
  db_get t id = Some doc → db_patch t id f = Some t' →
  db_get t' id = Some (f doc).
Proof.
  unfold db_patch, db_get. intros Hget. rewrite Hget. intros [= <-].
  destruct (t !! id) as [o|] eqn:Hl; [|done].
  rewrite list_lookup_insert_eq; [done|]. by eapply lookup_lt_Some.
Qed.

Lemma db_get_patch_ne t t' id id' f :
  id ≠ id' → db_patch t id f = Some t' → db_get t' id' = db_get t id'.
Proof.
  unfold db_patch. destruct (db_get t id); [|done]. intros Hne [= <-].
  unfold db_get. by rewrite list_lookup_insert_ne.
Qed.

Lemma db_patch_is_Some t id f doc :
  db_get t id = Some doc → db_patch t id f = Some (<[id := Some (f doc)]> t).
Proof. unfold db_patch. by intros ->. Qed.

Lemma db_patch_None t id f : db_get t id = None → db_patch t id f = None.
Proof. unfold db_patch. by intros ->. Qed.

Lemma db_get_insert_old t doc id :
  (id < length t)%nat → db_get (db_insert t doc).2 id = db_get t id.
Proof. intros Hlt. unfold db_get, db_insert. simpl. by rewrite lookup_app_l. Qed.

Lemma db_get_Some_lt t id doc : db_get t id = Some doc → (id < length t)%nat.
Proof.
  unfold db_get. destruct (t !! id) eqn:Hl; [|done].
  intros _. by eapply lookup_lt_Some.
Qed.

Lemma db_get_insert_new t doc :
  db_get (db_insert t doc).2 (db_insert t doc).1 = Some doc.
Proof.
  unfold db_get, db_insert. simpl.
  rewrite lookup_app_r; [|done]. by rewrite Nat.sub_diag.
Qed.

Lemma db_first_from_Some matches t i id doc :
  db_first_from matches t i = Some (id, doc) →
  (i ≤ id)%nat ∧ mjoin (t !! (id - i)%nat) = Some doc ∧ matches doc = true.
Proof.
  revert i. induction t as [|[d|] t IH]; intros i; simpl; [done| |].
  - destruct (matches d) eqn:Hm.
    + intros [= <- <-]. by rewrite Nat.sub_diag.
    + intros (Hle & Hl & Hd)%IH. split; [lia|]. split; [|done].
      by replace (id - i)%nat with (S (id - S i)) by lia.
  - intros (Hle & Hl & Hd)%IH. split; [lia|]. split; [|done].
    by replace (id - i)%nat with (S (id - S i)) by lia.
Qed.

Lemma db_first_Some matches t id doc :
  db_first matches t = Some (id, doc) →
  db_get t id = Some doc ∧ matches doc = true.
Proof.
  intros (_ & Hl & Hm)%db_first_from_Some. rewrite Nat.sub_0_r in Hl. done.
Qed.

(** Patching the row a query found, with a row that still matches, leaves
    it the first match. *)
Lemma db_first_from_patch matches t i id doc doc' :
  db_first_from matches t i = Some (id, doc) → matches doc' = true →
  db_first_from matches (<[(id - i)%nat := Some doc']> t) i = Some (id, doc').
Proof.
  revert i. induction t as [|[d|] t IH]; intros i; simpl; [done| |].
  - destruct (matches d) eqn:Hm.
    + intros [= <- <-] Hm'. rewrite Nat.sub_diag. simpl. by rewrite Hm'.
    + intros Hf Hm'. pose proof (db_first_from_Some _ _ _ _ _ Hf) as (Hle & _).
      replace (id - i)%nat with (S (id - S i)) by lia. simpl. rewrite Hm. eauto.
  - intros Hf Hm'. pose proof (db_first_from_Some _ _ _ _ _ Hf) as (Hle & _).
    replace (id - i)%nat with (S (id - S i)) by lia. simpl. eauto.
Qed.

Lemma db_first_patch matches t id doc doc' :
  db_first matches t = Some (id, doc) → matches doc' = true →
  db_first matches (<[id := Some doc']> t) = Some (id, doc').
Proof.
  intros Hf Hm. pose proof (db_first_from_patch _ _ _ _ _ _ Hf Hm) as H.
  by rewrite Nat.sub_0_r in H.
Qed.

(** Inserting a matching row into a table with no match makes it the first. *)
Lemma db_first_from_insert matches t i doc :
  db_first_from matches t i = None → matches doc = true →
  db_first_from matches (t ++ [Some doc]) i = Some ((i + length t)%nat, doc).
Proof.
  revert i. induction t as [|[d|] t IH]; intros i; simpl.
  - intros _ ->. by rewrite Nat.add_0_r.
  - destruct (matches d); [done|]. intros Hf Hm.
    rewrite IH by done. do 2 f_equal. lia.
  - intros Hf Hm. rewrite IH by done. do 2 f_equal. lia.
Qed.

Lemma db_first_insert matches t doc :
  db_first matches t = None → matches doc = true →
  db_first matches (db_insert t doc).2 = Some (length t, doc).
Proof. intros Hf Hm. unfold db_first, db_insert. simpl. by rewrite db_first_from_insert. Qed.

End Tables.

(** ** JavaScript strings *)

Lemma includes_elem_of (arr : list jsstring) (x : jsstring) :
  includes arr x = true ↔ x ∈ arr.
Proof.
  induction arr as [|y arr IH]; simpl.
  - split; [done|]. by intros ?%elem_of_nil.
  - rewrite elem_of_cons. destruct (decide (y = x)) as [->|Hne].
    + split; [by left|done].
    + rewrite IH. split; [by right|]. by intros [->|Hin].
Qed.

Lemma str_falsy_true (s : jsstring) : str_falsy s = true ↔ s = [].
Proof. by destruct s. Qed.

Lemma str_falsy_false (s : jsstring) : str_falsy s = false ↔ s ≠ [].
Proof. by destruct s. Qed.

(** ** The run pipeline *)

Section RunPipeline.
Context `{Runtime}.
Implicit Types (env : Env) (db : Store) (runId : Id).

Lemma updateTestRunResult_existing db runId now args run :
  getTestRun runId db = Some run →
  updateTestRunResult now runId args db
  = (Return (), closed_with db runId now args run).
Proof.
  intros Hrun. unfold updateTestRunResult.
  by rewrite (db_patch_is_Some _ _ _ run).
Qed.

Lemma record_result_existing env db runId args result calls run :
  getTestRun runId db = Some run →
  record_result env runId args result calls db
  = (Return result, closed_with db runId (clock_result env) args run, calls).
Proof.
  intros Hrun. unfold record_result.
  by rewrite (updateTestRunResult_existing _ _ _ _ run).
Qed.

Lemma record_result_try_existing env db runId args result calls run :
  getTestRun runId db = Some run →
  record_result_try env runId args result calls db
  = (Return result, closed_with db runId (clock_result env) args run, calls).
Proof.
  intros Hrun. unfold record_result_try.
  by rewrite (updateTestRunResult_existing _ _ _ _ run).
Qed.

Lemma record_caught_existing env db runId e calls run :
  getTestRun runId db = Some run →
  record_caught env runId e calls db
  = (Return (ExecError (error_message e)),
     closed_with db runId (clock_result env) (failed_with (error_message e)) run,
     calls).
Proof. intros Hrun. unfold record_caught. by apply record_result_existing. Qed.

Lemma getTestRun_closed_with db runId now args run :
  getTestRun runId db = Some run →
  getTestRun runId (closed_with db runId now args run)
  = Some (terminal_patch now args run).
Proof.
  intros Hrun. unfold getTestRun, closed_with, db_get. simpl.
  rewrite list_lookup_insert_eq; [done|]. by eapply db_get_Some_lt.
Qed.

Lemma getTestRun_closed_with_ne db runId runId' now args run :
  runId ≠ runId' →
  getTestRun runId' (closed_with db runId now args run) = getTestRun runId' db.
Proof.
  intros Hne. unfold getTestRun, closed_with, db_get. simpl.
  by rewrite list_lookup_insert_ne.
Qed.

(** An execution that finds its run running closes it with one terminal
    patch, whatever happens on the way. *)
Lemma executeTestRun_running env runId db run :
  getTestRun runId db = Some run → run_status run = running →
  ∃ args,
    store_after (executeTestRun env runId db)
    = closed_with db runId (clock_result env) args run.
Proof.
  intros Hrun Hst. unfold executeTestRun.
  rewrite Hrun, bool_decide_true by done. cbn [negb].
  assert (∀ args result calls,
    ∃ args',
      store_after (record_result env runId args result calls db)
      = closed_with db runId (clock_result env) args' run) as Hrec.
  { intros args result calls. exists args.
    by rewrite (record_result_existing _ _ _ _ _ _ run Hrun). }
  assert (∀ args result calls,
    ∃ args',
      store_after (record_result_try env runId args result calls db)
      = closed_with db runId (clock_result env) args' run) as Htry.
  { intros args result calls. exists args.
    by rewrite (record_result_try_existing _ _ _ _ _ _ run Hrun). }
  destruct (getTest (run_testId run) db) as [test|]; [|by apply Hrec].
  destruct (List.find _ _) as [you|]; [|by apply Hrec].
  destruct (endpoint_of (botUrl run)) as [endpoint|]; [|by apply Hrec].
  cbv zeta. destruct (fetch env _ _) as [e|http_status [e|text]];
    [by apply Hrec|by apply Hrec|].
  destruct (if str_falsy text then _ else _) as [data|]; [|by apply Htry].
  destruct (response_ok http_status); by apply Htry.
Qed.

(** Every execution either leaves the store as it found it, or closes the
    run it was given, which it saw running, with one terminal patch. *)
Lemma executeTestRun_store env runId db :
  store_after (executeTestRun env runId db) = db
  ∨ ∃ run args,
      getTestRun runId db = Some run ∧ run_status run = running
      ∧ store_after (executeTestRun env runId db)
        = closed_with db runId (clock_result env) args run.
Proof.
  destruct (getTestRun runId db) as [run|] eqn:Hrun.
  - destruct (decide (run_status run = running)) as [Hst|Hst].
    + right. destruct (executeTestRun_running env runId db run Hrun Hst) as [args Ha].
      by exists run, args.
    + left. unfold executeTestRun. rewrite Hrun. by rewrite bool_decide_false.
  - left. unfold executeTestRun. by rewrite Hrun.
Qed.

(** What an execution does once the bot has answered. *)
Lemma executeTestRun_response env runId db test http_status text :
  bot_responds env runId db test http_status text →
  ∃ run calls,
    getTestRun runId db = Some run ∧ run_status run = running ∧
    ∀ args result,
      match (if str_falsy text then Some JNull else JSON_parse text) with
      | None =>
          args = {| res_status := terminal_failed; res_move := None;
                    res_shout := None; res_passed := None;
                    res_error := Some (js "Non-JSON response ("
                                       ++ Number_toString http_status ++ js ").");
                    res_httpStatus := Some http_status;
                    res_rawResponse := Some (slice0 1000 text);
                    res_responseTimeMs :=
                      Some (clock_fetchEnd env - clock_fetchStart env) |}
          ∧ result = ExecError (js "Non-JSON response ("
                                ++ Number_toString http_status ++ js ").")
      | Some data =>
          if response_ok http_status then
            args = {| res_status := terminal_completed;
                      res_move := string_field data (js "move");
                      res_shout := string_field data (js "shout");
                      res_passed :=
                        Some match string_field data (js "move") with
                             | Some m => includes (expectedSafeMoves test) m
                             | None => false
                             end;
                      res_error := None;
                      res_httpStatus := Some http_status;
                      res_rawResponse := Some (slice0 1000 (JSON_stringify data));
                      res_responseTimeMs :=
                        Some (clock_fetchEnd env - clock_fetchStart env) |}
            ∧ result = ExecOk (string_field data (js "move"))
                         (string_field data (js "shout"))
                         match string_field data (js "move") with
                         | Some m => includes (expectedSafeMoves test) m
                         | None => false
                         end
                         (clock_fetchEnd env - clock_fetchStart env)
          else
            args = {| res_status := terminal_failed; res_move := None;
                      res_shout := None; res_passed := None;
                      res_error := Some (js "HTTP " ++ Number_toString http_status);
                      res_httpStatus := Some http_status;
                      res_rawResponse := Some (slice0 1000 (JSON_stringify data));
                      res_responseTimeMs :=
                        Some (clock_fetchEnd env - clock_fetchStart env) |}
            ∧ result = ExecError (js "HTTP " ++ Number_toString http_status)
      end →
      executeTestRun env runId db
      = (Return result, closed_with db runId (clock_result env) args run, calls).
Proof.
  intros (run & you & endpoint & Hrun & Hst & Htest & Hyou & Hend & Hfetch).
  exists run, [(endpoint, requestBody (run_testId run) test you)].
  split; [done|]. split; [done|]. intros args result.
  unfold executeTestRun. rewrite Hrun, bool_decide_true by done. simpl.
  rewrite Htest, Hyou, Hend, Hfetch.
  destruct (if str_falsy text then Some JNull else JSON_parse text) as [data|].
  - destruct (response_ok http_status); simpl; intros [-> ->];
      by rewrite (record_result_try_existing _ _ _ _ _ _ run Hrun).
  - intros [-> ->]. by rewrite (record_result_try_existing _ _ _ _ _ _ run Hrun).
Qed.

End RunPipeline.

(** ** Trimming and the endpoint *)

Section DropWhile.
Variable p : N → bool.

Lemma drop_while_split (s : jsstring) :
  ∃ lead, s = lead ++ drop_while p s ∧ Forall (λ c, p c = true) lead.
Proof.
  induction s as [|c s (lead & Hs & Hlead)]; simpl.
  - by exists [].
  - destruct (p c) eqn:Hc.
    + exists (c :: lead). split; [by rewrite Hs at 1|by constructor].
    + by exists [].
Qed.

Lemma drop_while_head (s : jsstring) (c : N) :
  head (drop_while p s) = Some c → p c = false.
Proof.
  induction s as [|d s IH]; simpl; [done|].
  destruct (p d) eqn:Hd; [done|]. by intros [= <-].
Qed.

Lemma drop_while_app (lead rest : jsstring) :
  Forall (λ c, p c = true) lead → drop_while p (lead ++ rest) = drop_while p rest.
Proof. induction 1 as [|c lead Hc _ IH]; simpl; [done|]. by rewrite Hc. Qed.

Lemma drop_while_id (s : jsstring) :
  (∀ c, head s = Some c → p c = false) → drop_while p s = s.
Proof. destruct s as [|c s]; simpl; [done|]. intros Hh. by rewrite Hh. Qed.

Lemma drop_while_all (s : jsstring) :
  Forall (λ c, p c = true) s → drop_while p s = [].
Proof. intros Hs. rewrite <-(app_nil_r s). by rewrite drop_while_app. Qed.

Lemma drop_while_end_split (s : jsstring) :
  ∃ trail, s = drop_while_end p s ++ trail ∧ Forall (λ c, p c = true) trail.
Proof.
  destruct (drop_while_split (reverse s)) as (lead & Hs & Hlead).
  exists (reverse lead). split.
  - unfold drop_while_end. rewrite <-reverse_app, <-Hs. by rewrite reverse_involutive.
  - by apply Forall_reverse.
Qed.

Lemma drop_while_end_last (s : jsstring) (c : N) :
  last (drop_while_end p s) = Some c → p c = false.
Proof. unfold drop_while_end. rewrite last_reverse. apply drop_while_head. Qed.

Lemma drop_while_end_app (s trail : jsstring) :
  Forall (λ c, p c = true) trail → drop_while_end p (s ++ trail) = drop_while_end p s.
Proof.
  intros Htrail. unfold drop_while_end. rewrite reverse_app.
  rewrite drop_while_app; [done|]. by apply Forall_reverse.
Qed.

Lemma drop_while_end_id (s : jsstring) :
  (∀ c, last s = Some c → p c = false) → drop_while_end p s = s.
Proof.
  intros Hl. unfold drop_while_end. rewrite drop_while_id.
  - apply reverse_involutive.
  - intros c. rewrite head_reverse. apply Hl.
Qed.

Lemma drop_while_end_head (s : jsstring) (c : N) :
  head (drop_while_end p s) = Some c → head s = Some c.
Proof.
  destruct (drop_while_end_split s) as (trail & Hs & _).
  intros Hh. rewrite Hs. destruct (drop_while_end p s); [done|]. done.
Qed.

End DropWhile.

Lemma trim_unfold (s : jsstring) :
  trim s = drop_while_end is_white_space (drop_while is_white_space s).
Proof. done. Qed.

Lemma replace_trailing_slashes_unfold (s : jsstring) :
  replace_trailing_slashes s = drop_while_end is_slash s.
Proof. done. Qed.

(** [trim] computes the trimmed string of the specification, and only it. *)
Lemma trim_spec (url trimmed : jsstring) :
  trim url = trimmed ↔ is_trimmed_of url trimmed.
Proof.
  rewrite trim_unfold. split.
  - intros <-.
    destruct (drop_while_split is_white_space url) as (lead & Hurl & Hlead).
    destruct (drop_while_end_split is_white_space (drop_while is_white_space url))
      as (trail & Hrest & Htrail).
    exists lead, trail. split; [by rewrite <-Hrest|]. split; [done|].
    split; [done|]. split.
    + intros c Hc%drop_while_end_head. by eapply drop_while_head.
    + apply drop_while_end_last.
  - intros (lead & trail & -> & Hlead & Htrail & Hhead & Hlast).
    rewrite drop_while_app by done.
    destruct trimmed as [|c t].
    + simpl. rewrite drop_while_all by done. done.
    + rewrite drop_while_id.
      * rewrite drop_while_end_app by done. by apply drop_while_end_id.
      * simpl. intros c' [= <-]. by apply Hhead.
Qed.

Lemma trim_blank (url : jsstring) :
  trim url = [] ↔ Forall (λ c, is_white_space c = true) url.
Proof.
  rewrite trim_spec. split.
  - intros (lead & trail & -> & Hlead & Htrail & _). simpl. by apply Forall_app.
  - intros Hall. exists url, []. rewrite app_nil_r. by repeat split.
Qed.

Lemma Forall_is_slash (s : jsstring) :
  Forall (λ c, is_slash c = true) s ↔ s = replicate (length s) slash.
Proof.
  induction s as [|c s IH]; simpl; [done|]. rewrite Forall_cons, IH.
  unfold is_slash. rewrite N.eqb_eq. split.
  - by intros [-> <-].
  - intros [= -> Hs]. done.
Qed.

(** [replace(/\/+$/, empty)] computes the stripped string of the specification,
    and only it. *)
Lemma replace_trailing_slashes_spec (trimmed stripped : jsstring) :
  replace_trailing_slashes trimmed = stripped ↔ is_stripped_of trimmed stripped.
Proof.
  rewrite replace_trailing_slashes_unfold. split.
  - intros <-.
    destruct (drop_while_end_split is_slash trimmed) as (trail & Htr & Htrail).
    exists (length trail). split.
    + by rewrite <-(proj1 (Forall_is_slash trail)).
    + intros Hl%drop_while_end_last. unfold is_slash in Hl.
      by rewrite N.eqb_refl in Hl.
  - intros (n & -> & Hlast).
    rewrite drop_while_end_app.
    + apply drop_while_end_id. intros c Hc. unfold is_slash.
      apply N.eqb_neq. intros ->. done.
    + apply Forall_is_slash. by rewrite length_replicate.
Qed.

Lemma endsWith_suffix (s suffix : jsstring) :
  endsWith s suffix = true ↔ suffix `suffix_of` s.
Proof.
  unfold endsWith. rewrite andb_true_iff, Nat.leb_le, bool_decide_eq_true. split.
  - intros [Hlen Hdrop]. exists (take (length s - length suffix) s).
    set (n := (length s - length suffix)%nat) in *.
    rewrite <-Hdrop. by rewrite take_drop.
  - intros [k ->]. rewrite length_app. split; [lia|].
    by rewrite drop_app_length' by lia.
Qed.

(** [endpoint_of] refines the endpoint of the specification. *)
Lemma endpoint_of_spec (url endpoint : jsstring) :
  endpoint_of url = Some endpoint ↔ spec_endpoint url endpoint.
Proof.
  unfold endpoint_of, spec_endpoint. split.
  - destruct (str_falsy (trim url)) eqn:Hblank; [done|].
    apply str_falsy_false in Hblank. intros [= <-].
    exists (trim url), (replace_trailing_slashes (trim url)).
    split; [by apply trim_spec|]. split; [done|].
    split; [by apply replace_trailing_slashes_spec|].
    destruct (endsWith _ _) eqn:Hends.
    + left. by rewrite <-endsWith_suffix.
    + right. split; [|done]. rewrite <-endsWith_suffix. by rewrite Hends.
  - intros (trimmed & stripped & <-%trim_spec & Hne
            & <-%replace_trailing_slashes_spec & Hcase).
    apply str_falsy_false in Hne. rewrite Hne.
    destruct Hcase as [[Hsuf ->]|[Hsuf ->]].
    + apply endsWith_suffix in Hsuf. by rewrite Hsuf.
    + rewrite <-endsWith_suffix in Hsuf. by destruct (endsWith _ _).
Qed.

Lemma endpoint_of_blank (url : jsstring) :
  endpoint_of url = None ↔ Forall (λ c, is_white_space c = true) url.
Proof.
  rewrite <-trim_blank. unfold endpoint_of.
  destruct (trim url); simpl; [done|]. split; [|done].
  by destruct (endsWith _ _).
Qed.

(** ** Claims on the run pipeline *)

(** *** The members of a parsed object *)

Lemma own_property_None (members : list (jsstring * json)) (key : jsstring) :
  own_property members key = None ↔ key ∉ members.*1.
Proof.
  induction members as [|[k v] rest IH]; simpl.
  - split; [intros _ Hin; by apply elem_of_nil in Hin|done].
  - rewrite not_elem_of_cons, <- IH.
    destruct (own_property rest key).
    + split; [done|]. by intros [_ ?].
    + destruct (decide (k = key)) as [->|Hne].
      * split; [done|]. by intros [? _].
      * split; [|done]. intros _. split; [|done]. by intros ->.
Qed.

(** The property of an object is its last member of that name. *)
Lemma own_property_Some (members : list (jsstring * json)) (key : jsstring)
    (v : json) :
  own_property members key = Some v
  ↔ ∃ before after, members = before ++ (key, v) :: after ∧ key ∉ after.*1.
Proof.
  induction members as [|[k x] rest IH]; simpl.
  - split; [done|]. intros (before & after & Heq & _). by destruct before.
  - destruct (own_property rest key) as [v'|] eqn:Hrest.
    + split.
      * intros [= ->]. destruct (proj1 IH eq_refl) as (before & after & -> & Hnot).
        by exists ((k, x) :: before), after.
      * intros (before & after & Heq & Hnot). destruct before as [|p before];
          simplify_eq/=.
        -- apply own_property_None in Hnot. congruence.
        -- f_equal. assert (Some v' = Some v) as [= ->]; [|done].
           apply IH. by exists before, after.
    + apply own_property_None in Hrest. split.
      * destruct (decide (k = key)) as [->|]; [|done]. intros [= ->].
        by exists [], rest.
      * intros (before & after & Heq & Hnot). destruct before as [|p before];
          simplify_eq/=.
        -- by rewrite decide_True.
        -- exfalso. apply Hrest.
           rewrite fmap_app, elem_of_app. right. simpl. by left.
Qed.

(** [typeof data?.key === "string"]: [data] is an object whose last member
    named [key] is a string. *)
Lemma string_field_members (data : json) (key s : jsstring) :
  string_field data key = Some s
  ↔ ∃ before after,
      data = JObject (before ++ (key, JString s) :: after)
      ∧ key ∉ after.*1.
Proof.
  unfold string_field, optional_get. destruct data as [| | | | |members];
    try (split; [done|by intros (? & ? & ? & _)]).
  split.
  - destruct (own_property members key) as [[]|] eqn:Hp; try done.
    intros [= ->]. apply own_property_Some in Hp as (before & after & -> & Hnot).
    by exists before, after.
  - intros (before & after & [= ->] & Hnot).
    assert (own_property (before ++ (key, JString s) :: after) key
            = Some (JString s)) as ->; [|done].
    apply own_property_Some. by exists before, after.
Qed.

Section RunClaims.
Context `{Runtime}.
Implicit Types (env : Env) (db : Store) (runId : Id).

(** C2: when the run does not exist or is not running, [executeTestRun]
    answers with an error, leaves the store as it is and calls nobody; and
    whenever an execution changes the store at all, the change is one
    terminal patch on the run it was given, which it saw running.  A run
    that is running is closed by exactly that patch, as completed or as
    failed. *)
Theorem guard_fails_without_mutation env runId db :
  (getTestRun runId db = None →
     executeTestRun env runId db
     = (Return (ExecError (js "Test run not found.")), db, []))
  ∧ (∀ run, getTestRun runId db = Some run → run_status run ≠ running →
     executeTestRun env runId db
     = (Return (ExecError (js "Test run is not in running state.")), db, []))
  ∧ (store_after (executeTestRun env runId db) = db
     ∨ ∃ run args,
         getTestRun runId db = Some run ∧ run_status run = running
         ∧ store_after (executeTestRun env runId db)
           = closed_with db runId (clock_result env) args run)
  ∧ (∀ run, getTestRun runId db = Some run → run_status run = running →
     ∃ args run',
       store_after (executeTestRun env runId db)
       = closed_with db runId (clock_result env) args run
       ∧ getTestRun runId (store_after (executeTestRun env runId db)) = Some run'
       ∧ (run_status run' = completed ∨ run_status run' = failed)
       ∧ completedAt run' = Some (clock_result env)).
Proof.
  split; [|split; [|split]].
  - intros Hrun. unfold executeTestRun. by rewrite Hrun.
  - intros run Hrun Hst. unfold executeTestRun.
    rewrite Hrun. by rewrite bool_decide_false.
  - apply executeTestRun_store.
  - intros run Hrun Hst.
    destruct (executeTestRun_running env runId db run Hrun Hst) as [args Ha].
    exists args, (terminal_patch (clock_result env) args run).
    split; [done|]. rewrite Ha. split; [by apply getTestRun_closed_with|].
    split; [|done]. simpl. destruct (res_status args); [by left|by right].
Qed.

(** C1: when the bot answers 2xx with a JSON body, the run is completed, its
    [move] is the body's [move] field if that is a string and absent
    otherwise (the field of an object being its last member of that name,
    and anything but an object having none), and [passed] is true exactly
    when [move] is present and is, as a sequence of code units, one of the
    test's [expectedSafeMoves]. *)
Theorem passed_iff_move_expected env runId db test http_status text data :
  bot_responds env runId db test http_status text →
  response_ok http_status = true →
  text ≠ [] →
  JSON_parse text = Some data →
  ∃ run' b,
    getTestRun runId (store_after (executeTestRun env runId db)) = Some run'
    ∧ run_status run' = completed
    ∧ (∀ m, run_move run' = Some m
            ↔ ∃ before after,
                data = JObject (before ++ (js "move", JString m) :: after)
                ∧ js "move" ∉ after.*1)
    ∧ run_passed run' = Some b
    ∧ (b = true ↔ ∃ m, run_move run' = Some m ∧ m ∈ expectedSafeMoves test)
    ∧ answer_of (executeTestRun env runId db)
      = Return (ExecOk (run_move run') (run_shout run') b
                  (clock_fetchEnd env - clock_fetchStart env)).
Proof.
  intros Hbot Hok Htext Hparse.
  destruct (executeTestRun_response _ _ _ _ _ _ Hbot) as (run & calls & Hrun & _ & Hexec).
  apply str_falsy_false in Htext. rewrite Htext, Hparse, Hok in Hexec.
  rewrite (Hexec _ _ (conj eq_refl eq_refl)). unfold store_after, answer_of. simpl.
  rewrite (getTestRun_closed_with _ _ _ _ run Hrun).
  eexists _, _. split; [done|]. simpl. split; [done|]. split; [|split; [done|split; [|done]]].
  - intros m. rewrite <- string_field_members. unfold string_field.
    destruct (optional_get data (js "move")) as [[]|]; simpl;
      split; intros Heq; by simplify_eq.
  - destruct (string_field data (js "move")) as [m|].
    + rewrite includes_elem_of. split.
      * intros Hin. by exists m.
      * by intros (m' & [= <-] & Hin).
    + split; [done|]. by intros (m' & [=] & _).
Qed.

(** C4, as the code has it: a body that is not empty and that [JSON.parse]
    rejects closes the run as failed, with the message
    [Non-JSON response (<status>).], the first 1000 code units of the body,
    the HTTP status and the response time. *)
Theorem non_json_body_fails env runId db test http_status text :
  bot_responds env runId db test http_status text →
  text ≠ [] →
  JSON_parse text = None →
  ∃ run',
    getTestRun runId (store_after (executeTestRun env runId db)) = Some run'
    ∧ run_status run' = failed
    ∧ run_error run'
      = Some (js "Non-JSON response (" ++ Number_toString http_status ++ js ").")
    ∧ run_rawResponse run' = Some (take 1000 text)
    ∧ run_httpStatus run' = Some http_status
    ∧ run_responseTimeMs run' = Some (clock_fetchEnd env - clock_fetchStart env)
    ∧ answer_of (executeTestRun env runId db)
      = Return (ExecError (js "Non-JSON response ("
                           ++ Number_toString http_status ++ js ").")).
Proof.
  intros Hbot Htext Hparse.
  destruct (executeTestRun_response _ _ _ _ _ _ Hbot) as (run & calls & Hrun & _ & Hexec).
  apply str_falsy_false in Htext. rewrite Htext, Hparse in Hexec.
  rewrite (Hexec _ _ (conj eq_refl eq_refl)). unfold store_after, answer_of. simpl.
  rewrite (getTestRun_closed_with _ _ _ _ run Hrun).
  eexists. split; [done|]. done.
Qed.

(** C10: a 2xx answer with an empty body closes the run as completed, with
    no move, no shout and [passed = false]: the empty body is not parsed;
    any other body that [JSON.parse] rejects closes the run as failed. *)
Theorem empty_body_completes env runId db test http_status text :
  bot_responds env runId db test http_status text →
  response_ok http_status = true →
  ∃ run',
    getTestRun runId (store_after (executeTestRun env runId db)) = Some run'
    ∧ (text = [] →
         run_status run' = completed ∧ run_move run' = None
         ∧ run_shout run' = None ∧ run_passed run' = Some false
         ∧ run_error run' = None
         ∧ run_rawResponse run' = Some (take 1000 (JSON_stringify JNull))
         ∧ answer_of (executeTestRun env runId db)
           = Return (ExecOk None None false
                       (clock_fetchEnd env - clock_fetchStart env)))
    ∧ (text ≠ [] → JSON_parse text = None →
         run_status run' = failed ∧ run_passed run' = None).
Proof.
  intros Hbot Hok.
  destruct (executeTestRun_response _ _ _ _ _ _ Hbot) as (run & calls & Hrun & _ & Hexec).
  destruct text as [|c text].
  - simpl in Hexec. rewrite Hok in Hexec.
    rewrite (Hexec _ _ (conj eq_refl eq_refl)). unfold store_after, answer_of. simpl.
    rewrite (getTestRun_closed_with _ _ _ _ run Hrun).
    eexists. split; [done|]. split; [done|]. done.
  - simpl in Hexec. destruct (JSON_parse (c :: text)) as [data|] eqn:Hparse.
    + rewrite Hok in Hexec.
      rewrite (Hexec _ _ (conj eq_refl eq_refl)). unfold store_after. simpl.
      rewrite (getTestRun_closed_with _ _ _ _ run Hrun).
      eexists. split; [done|]. split; [done|]. done.
    + rewrite (Hexec _ _ (conj eq_refl eq_refl)). unfold store_after. simpl.
      rewrite (getTestRun_closed_with _ _ _ _ run Hrun).
      eexists. split; [done|]. split; [done|]. done.
Qed.

End RunClaims.

Lemma executeTestRun_calls `{Runtime} env runId db run test you endpoint :
  getTestRun runId db = Some run → run_status run = running →
  getTest (run_testId run) db = Some test →
  List.find (fun snakeItem => bool_decide (snake_id snakeItem = youId test))
    (snakes (board test)) = Some you →
  endpoint_of (botUrl run) = Some endpoint →
  calls_of (executeTestRun env runId db)
  = [(endpoint, requestBody (run_testId run) test you)].
Proof.
  intros Hrun Hst Htest Hyou Hend. unfold executeTestRun.
  rewrite Hrun, bool_decide_true by done. cbn [negb].
  rewrite Htest, Hyou, Hend. cbv zeta.
  destruct (fetch env _ _) as [e|http_status [e|text]].
  - by rewrite (record_caught_existing _ _ _ _ _ run Hrun).
  - by rewrite (record_caught_existing _ _ _ _ _ run Hrun).
  - destruct (if str_falsy text then _ else _) as [data|].
    + destruct (response_ok http_status); cbn [negb];
        by rewrite (record_result_try_existing _ _ _ _ _ _ run Hrun).
    + by rewrite (record_result_try_existing _ _ _ _ _ _ run Hrun).
Qed.


(** ** Moderation *)

(** Unfolding the handler combinators. *)
Ltac unfold_M :=
  unfold mbind, M_bind, mret, M_ret, query, readTest, throw in *.

Lemma getTest_patched db id f test :
  getTest id db = Some test →
  patchTest id f db
  = (Return (), with_tests db (<[id := Some (f test)]> (tests db))).
Proof.
  intros Hget. unfold patchTest. by rewrite (db_patch_is_Some _ _ _ test).
Qed.

Lemma getTest_with_tests_eq db id test doc :
  getTest id db = Some test →
  getTest id (with_tests db (<[id := Some doc]> (tests db))) = Some doc.
Proof.
  intros Hget. unfold getTest, db_get. simpl.
  rewrite list_lookup_insert_eq; [done|]. by eapply db_get_Some_lt.
Qed.

Lemma getTest_with_tests_ne db id id' doc :
  id ≠ id' →
  getTest id' (with_tests db (<[id := Some doc]> (tests db))) = getTest id' db.
Proof.
  intros Hne. unfold getTest, db_get. simpl. by rewrite list_lookup_insert_ne.
Qed.

(** *** The perma-rejection flag is never cleared *)

Lemma perma_kept_refl db : perma_kept db db.
Proof. intros id t Hget Hp. by exists t. Qed.

Lemma perma_kept_trans db1 db2 db3 :
  perma_kept db1 db2 → perma_kept db2 db3 → perma_kept db1 db3.
Proof.
  intros H12 H23 id t Hget Hp.
  destruct (H12 id t Hget Hp) as (t2 & Hget2 & Hp2). by apply (H23 id t2).
Qed.

Lemma keeps_perma_ret {A} (a : A) : keeps_perma (mret a).
Proof. intros db. apply perma_kept_refl. Qed.

Lemma keeps_perma_throw {A} msg : keeps_perma (@throw A msg).
Proof. intros db. apply perma_kept_refl. Qed.

Lemma keeps_perma_query {A} (q : Store → outcome A) : keeps_perma (query q).
Proof. intros db. apply perma_kept_refl. Qed.

Lemma keeps_perma_readTest id : keeps_perma (readTest id).
Proof. intros db. apply perma_kept_refl. Qed.

Lemma keeps_perma_bind {A B} (m : M A) (f : A → M B) :
  keeps_perma m → (∀ a, keeps_perma (f a)) → keeps_perma (m ≫= f).
Proof.
  intros Hm Hf db. unfold mbind, M_bind. specialize (Hm db).
  destruct (m db) as [[a|e] db']; simpl in *; [|done].
  eapply perma_kept_trans; [done|]. apply Hf.
Qed.

Lemma keeps_perma_patchTest id (f : Test → Test) :
  (∀ t, permaRejected t = Some true → permaRejected (f t) = Some true) →
  keeps_perma (patchTest id f).
Proof.
  intros Hf db id' t Hget Hp. unfold patchTest.
  destruct (getTest id db) as [test|] eqn:Hid.
  - unfold getTest in Hid. rewrite (db_patch_is_Some _ _ _ test) by done. simpl.
    destruct (decide (id = id')) as [<-|Hne].
    + rewrite (getTest_with_tests_eq _ _ test) by done.
      eexists. split; [done|]. apply Hf. unfold getTest in Hget. congruence.
    + rewrite getTest_with_tests_ne by done. by exists t.
  - unfold getTest in Hid. rewrite db_patch_None by done. by exists t.
Qed.

Lemma keeps_perma_insertTest doc : keeps_perma (insertTest doc).
Proof.
  intros db id t Hget Hp. unfold insertTest, getTest. simpl.
  exists t. split; [|done].
  pose proof (db_get_Some_lt _ _ _ Hget) as Hlt.
  unfold db_get in *. by rewrite lookup_app_l.
Qed.

Create HintDb perma.

#[local] Hint Resolve keeps_perma_ret keeps_perma_throw keeps_perma_query
  keeps_perma_readTest keeps_perma_insertTest : perma.

Ltac keeps_perma_step :=
  match goal with
  | |- keeps_perma (_ ≫= _) => apply keeps_perma_bind; [|intros ?]
  | |- keeps_perma (patchTest _ _) => apply keeps_perma_patchTest; by intros ?
  | |- keeps_perma (match ?o with _ => _ end) => destruct o
  | |- keeps_perma (if ?b then _ else _) => destruct b
  | |- keeps_perma _ => by auto with perma
  end.

Lemma moderation_step_keeps_perma (c : ModerationCall) :
  keeps_perma (moderation_step c).
Proof.
  destruct c; simpl;
    unfold createUserTest, updateUserTest, adminUpdateTest, approveTest,
      rejectTest, permaRejectTest, resubmitTest, makeTestPrivate;
    repeat keeps_perma_step.
Qed.

Lemma moderation_run_keeps_perma (calls : list ModerationCall) (db : Store) :
  perma_kept db (moderation_run calls db).
Proof.
  revert db. induction calls as [|c calls IH]; intros db; simpl.
  - apply perma_kept_refl.
  - eapply perma_kept_trans; [apply moderation_step_keeps_perma|apply IH].
Qed.

(** C6: [permaRejected = true] is sticky.  Whatever sequence of moderation
    calls runs (create, owner edit, admin edit, approve, reject,
    perma-reject, resubmit, make private; any tokens, any arguments), a test
    that carried the flag still exists and still carries it.  Approval does
    not look at the flag: an admin moves a perma-rejected test to [approved],
    and the flag stays. *)
Theorem permaRejected_is_sticky :
  (∀ (calls : list ModerationCall) (db : Store) (id : Id) (t : Test),
     getTest id db = Some t → permaRejected t = Some true →
     ∃ t', getTest id (moderation_run calls db) = Some t'
           ∧ permaRejected t' = Some true)
  ∧ (∀ now token id db admin t,
       requireAdmin now token db = Return admin →
       getTest id db = Some t → permaRejected t = Some true →
       ∃ t', (approveTest now token id db).1 = Return (Some t')
             ∧ getTest id (approveTest now token id db).2 = Some t'
             ∧ status t' = Some approved
             ∧ permaRejected t' = Some true).
Proof.
  split.
  - intros calls db id t Hget Hp. by apply (moderation_run_keeps_perma calls db id t).
  - intros now token id db admin t Hadmin Hget Hp.
    unfold approveTest. unfold_M. rewrite Hadmin, Hget.
    rewrite (getTest_patched _ _ _ t Hget).
    rewrite (getTest_with_tests_eq _ _ t) by done.
    eexists. split; [done|]. simpl.
    rewrite (getTest_with_tests_eq _ _ t) by done. done.
Qed.

(** C5: [resubmitTest] returns only when the caller owns the test, the test
    is [rejected] and [permaRejected] is not true, and then the test is
    [pending] with no rejection reason; in that situation it does return.
    On a test with [permaRejected = true] it throws, whoever calls, and the
    store is unchanged; for the owner of a rejected test the error is the
    one saying that the test cannot be resubmitted. *)
Theorem resubmit_requires_plain_rejection now token id db :
  (∀ result, (resubmitTest now token id db).1 = Return result →
     ∃ userId admin test,
       requireUserSession now token db = Return (userId, admin)
       ∧ getTest id db = Some test
       ∧ ownerId test = Some userId
       ∧ status test = Some rejected
       ∧ permaRejected test ≠ Some true)
  ∧ (∀ userId admin test,
       requireUserSession now token db = Return (userId, admin) →
       getTest id db = Some test →
       ownerId test = Some userId →
       status test = Some rejected →
       permaRejected test ≠ Some true →
       ∃ test',
         (resubmitTest now token id db).1 = Return (Some test')
         ∧ getTest id (resubmitTest now token id db).2 = Some test'
         ∧ test' = patch_rejectionReason None (patch_status pending test)
         ∧ status test' = Some pending
         ∧ rejectionReason test' = None)
  ∧ (∀ test,
       getTest id db = Some test → permaRejected test = Some true →
       (∃ message, (resubmitTest now token id db).1 = Throw message)
       ∧ (resubmitTest now token id db).2 = db
       ∧ (∀ userId admin,
            requireUserSession now token db = Return (userId, admin) →
            ownerId test = Some userId →
            status test = Some rejected →
            (resubmitTest now token id db).1
            = Throw (js "This test has been permanently rejected and cannot be resubmitted."))).
Proof.
  split; [|split].
  - intros result. unfold resubmitTest. unfold_M.
    destruct (requireUserSession now token db) as [[userId admin]|e]; [|done].
    destruct (getTest id db) as [test|] eqn:Hget; [|done].
    destruct (decide (ownerId test = Some userId)) as [Hown|Hown];
      [rewrite bool_decide_true by done|by rewrite bool_decide_false].
    destruct (decide (status test = Some rejected)) as [Hst|Hst];
      [rewrite bool_decide_true by done|by rewrite bool_decide_false].
    destruct (decide (permaRejected test = Some true)) as [Hp|Hp];
      [by rewrite bool_decide_true|].
    intros _. by exists userId, admin, test.
  - intros userId admin test Hsess Hget Hown Hst Hp.
    unfold resubmitTest. unfold_M. rewrite Hsess, Hget.
    rewrite !bool_decide_true by done. rewrite bool_decide_false by done.
    cbn [negb]. rewrite (getTest_patched _ _ _ test Hget).
    rewrite (getTest_with_tests_eq _ _ test) by done.
    eexists. split; [done|]. simpl.
    rewrite (getTest_with_tests_eq _ _ test) by done. done.
  - intros test Hget Hp. unfold resubmitTest. unfold_M.
    destruct (requireUserSession now token db) as [[userId admin]|e].
    + rewrite Hget. destruct (decide (ownerId test = Some userId)) as [Hown|Hown].
      2: { rewrite bool_decide_false by done. cbn [negb].
           split; [by eexists|]. split; [done|]. intros ?? [= <- <-]. done. }
      rewrite (bool_decide_true (ownerId test = _)) by done.
      destruct (decide (status test = Some rejected)) as [Hst|Hst].
      2: { rewrite bool_decide_false by done. cbn [negb].
           split; [by eexists|]. split; [done|]. done. }
      rewrite (bool_decide_true (status test = _)) by done.
      rewrite bool_decide_true by done. cbn [negb].
      split; [by eexists|]. done.
    + split; [by eexists|]. split; [done|]. done.
Qed.

(** C7, as the code has it: a successful owner edit replaces the content of
    the test and forces its status to [pending], whatever it was; the other
    moderation fields, among them [rejectionReason], keep their value. *)
Theorem owner_edit_forces_pending now token id args db userId admin test :
  requireUserSession now token db = Return (userId, admin) →
  getTest id db = Some test →
  ownerId test = Some userId →
  youExists (arg_board args) (arg_youId args) = true →
  ∃ test',
    (updateUserTest now token id args db).1 = Return (Some test')
    ∧ getTest id (updateUserTest now token id args db).2 = Some test'
    ∧ status test' = Some pending
    ∧ rejectionReason test' = rejectionReason test
    ∧ permaRejected test' = permaRejected test
    ∧ approvedBy test' = approvedBy test
    ∧ approvedAt test' = approvedAt test.
Proof.
  intros Hsess Hget Hown Hyou. unfold updateUserTest. unfold_M.
  rewrite Hsess, Hget, Hyou. rewrite bool_decide_true by done. cbn [negb].
  rewrite (getTest_patched _ _ _ test Hget).
  rewrite (getTest_with_tests_eq _ _ test) by done.
  eexists. split; [done|]. simpl.
  rewrite (getTest_with_tests_eq _ _ test) by done. done.
Qed.

(** ** Sessions and the rate limiter *)

Section Auth.
Context `{Runtime}.
Implicit Types (db : Store) (client : jsstring) (now : Z).

(** Linear arithmetic with the constants of the limiter. *)
Ltac lia_limits :=
  unfold RATE_LIMIT_WINDOW_MS, RATE_LIMIT_MAX_ATTEMPTS in *; lia.

Lemma limiter_clientId db client id l :
  limiter_by_clientId db client = Some (id, l) → clientId l = client.
Proof.
  intros (_ & Hm)%db_first_Some. by apply bool_decide_eq_true in Hm.
Qed.

(** A failed attempt of a client the table does not know yet. *)
Lemma recordFailedAttempt_fresh now client db :
  limiter_by_clientId db client = None →
  ∃ db',
    recordFailedAttempt now client db
    = (Return {| blocked := false; retryAt := None |}, db')
    ∧ users db' = users db
    ∧ limiter_by_clientId db' client
      = Some (length (adminRateLimits db),
              {| clientId := client; windowStart := now; attempts := 1;
                 blockedUntil := None |}).
Proof.
  intros Hnone. unfold recordFailedAttempt. rewrite Hnone.
  unfold mbind, M_bind, mret, M_ret, insertRateLimit. simpl.
  rewrite Z.sub_diag.
  rewrite (bool_decide_true (0 < RATE_LIMIT_WINDOW_MS)) by lia_limits.
  rewrite (bool_decide_false (0 + 1 >= RATE_LIMIT_MAX_ATTEMPTS)) by lia_limits.
  simpl.
  eexists. split; [done|]. split; [done|].
  unfold limiter_by_clientId. simpl.
  apply (db_first_insert _ (adminRateLimits db)); [done|].
  by apply bool_decide_eq_true.
Qed.

(** A failed attempt of a known client, inside its window. *)
Lemma recordFailedAttempt_in_window now client db id l :
  limiter_by_clientId db client = Some (id, l) →
  now - windowStart l < RATE_LIMIT_WINDOW_MS →
  ∃ r db',
    recordFailedAttempt now client db = (Return r, db')
    ∧ users db' = users db
    ∧ limiter_by_clientId db' client
      = Some (id,
              {| clientId := client; windowStart := windowStart l;
                 attempts := attempts l + 1;
                 blockedUntil :=
                   if bool_decide (attempts l + 1 >= RATE_LIMIT_MAX_ATTEMPTS)
                   then Some (now + RATE_LIMIT_WINDOW_MS) else None |}).
Proof.
  intros Hl Hwin. unfold recordFailedAttempt. rewrite Hl.
  rewrite (bool_decide_true (now - windowStart l < _)) by done.
  unfold mbind, M_bind, mret, M_ret, patchRateLimit.
  pose proof (db_first_Some _ _ _ _ Hl) as [Hget Hm].
  rewrite (db_patch_is_Some _ _ _ l Hget).
  eexists _, _. split; [done|]. split; [done|].
  unfold limiter_by_clientId. simpl.
  rewrite (limiter_clientId _ _ _ _ Hl).
  apply (db_first_patch _ _ _ l); [done|]. by apply bool_decide_eq_true.
Qed.

Lemma checkRateLimit_unblocked now client db :
  (∀ id l, limiter_by_clientId db client = Some (id, l) → blockedUntil l = None) →
  blocked (checkRateLimit now client db) = false.
Proof.
  intros Hl. unfold checkRateLimit.
  destruct (limiter_by_clientId db client) as [[id l]|]; [|done].
  by rewrite (Hl id l).
Qed.

(** While the block lasts, [login] answers at once and writes nothing. *)
Lemma login_blocked now token arg_email arg_password client db id l until :
  limiter_by_clientId db client = Some (id, l) →
  blockedUntil l = Some until → until ≠ 0 → now < until →
  login now token arg_email arg_password client db
  = (Return (LoginError (js "Too many attempts. Try again later.") (Some until)),
     db).
Proof.
  intros Hl Hb Hnz Hlt. unfold login, checkRateLimit. rewrite Hl, Hb. simpl.
  rewrite (proj2 (Z.eqb_neq until 0)) by done. simpl.
  rewrite bool_decide_true by lia. done.
Qed.

(** A failed attempt answers [Invalid email or password.] and leaves the
    store [recordFailedAttempt] leaves. *)
Lemma login_failure now token arg_email arg_password client db r db' :
  blocked (checkRateLimit now client db) = false →
  credentials_ok db arg_email arg_password = false →
  recordFailedAttempt now client db = (Return r, db') →
  login now token arg_email arg_password client db
  = (Return (LoginError (js "Invalid email or password.") None), db').
Proof.
  intros Hunblocked Hcred Hrec. unfold login. rewrite Hunblocked.
  unfold credentials_ok in Hcred. unfold mbind, M_bind, mret, M_ret.
  destruct (db_first _ (users db)) as [[userId user]|].
  - rewrite Hcred. cbn [negb]. by rewrite Hrec.
  - by rewrite Hrec.
Qed.

Lemma credentials_ok_users db db' arg_email arg_password :
  users db' = users db →
  credentials_ok db' arg_email arg_password = credentials_ok db arg_email arg_password.
Proof. intros Hu. unfold credentials_ok. by rewrite Hu. Qed.

Lemma last_cons_default {A} (l : list A) (a d1 d2 : A) :
  List.last (a :: l) d1 = List.last (a :: l) d2.
Proof.
  revert a. induction l as [|b l IH]; intros a; [done|].
  change (List.last (b :: l) d1 = List.last (b :: l) d2). apply IH.
Qed.

(** Failures of a known, unblocked client inside its window add up. *)
Lemma login_run_failures client (attempts : list LoginAttempt) :
  ∀ db id start n last,
    limiter_by_clientId db client = Some (id, counted client start n last) →
    n + Z.of_nat (length attempts) ≤ RATE_LIMIT_MAX_ATTEMPTS →
    n < RATE_LIMIT_MAX_ATTEMPTS →
    Forall (λ a, credentials_ok db (at_email a) (at_password a) = false
                 ∧ at_time a - start < RATE_LIMIT_WINDOW_MS) attempts →
    users (login_run client attempts db) = users db
    ∧ limiter_by_clientId (login_run client attempts db) client
      = Some (id, counted client start (n + Z.of_nat (length attempts))
                    (List.last (at_time <$> attempts) last)).
Proof.
  induction attempts as [|a rest IH]; intros db id start n last Hl Hlen Hn Hall.
  - simpl. rewrite Z.add_0_r. done.
  - apply Forall_cons in Hall as [[Hcred Hwin] Hrest].
    destruct (recordFailedAttempt_in_window (at_time a) client db id _ Hl Hwin)
      as (r & db' & Hrec & Husers & Hl').
    assert (blocked (checkRateLimit (at_time a) client db) = false) as Hunblocked.
    { apply checkRateLimit_unblocked. intros id' l'. rewrite Hl. intros [= <- <-].
      simpl. by rewrite bool_decide_false by lia_limits. }
    cbn [login_run]. unfold login_attempt.
    rewrite (login_failure _ _ _ _ _ _ r db' Hunblocked Hcred Hrec). cbn [snd].
    cbn [attempts windowStart counted] in Hl'.
    fold (counted client start (n + 1) (at_time a)) in Hl'.
    destruct rest as [|b rest].
    + simpl. split; [done|]. rewrite Hl'. done.
    + assert (n + 1 < RATE_LIMIT_MAX_ATTEMPTS) as Hn'.
      { cbn [length] in Hlen. lia_limits. }
      destruct (IH db' id start (n + 1) (at_time a)) as [Hu Hfinal].
      * exact Hl'.
      * cbn [length] in *. lia_limits.
      * done.
      * eapply Forall_impl; [exact Hrest|]. intros c [Hc Hw]. split; [|done].
        by rewrite (credentials_ok_users db db').
      * split; [congruence|]. rewrite Hfinal. do 2 f_equal.
        rewrite !fmap_cons.
        rewrite (last_cons_default _ (at_time b) (at_time a) last).
        f_equal; first [done | cbn [length]; lia].
Qed.

Lemma login_run_app client (l1 l2 : list LoginAttempt) db :
  login_run client (l1 ++ l2) db = login_run client l2 (login_run client l1 db).
Proof. revert db. induction l1 as [|a l1 IH]; intros db; simpl; [done|]. apply IH. Qed.

(** The failures of a client the table does not know yet. *)
Lemma login_run_failures_fresh client (first : LoginAttempt)
    (rest : list LoginAttempt) db :
  limiter_by_clientId db client = None →
  (length rest ≤ 4)%nat →
  Forall (λ a, credentials_ok db (at_email a) (at_password a) = false
               ∧ at_time a - at_time first < RATE_LIMIT_WINDOW_MS) (first :: rest) →
  users (login_run client (first :: rest) db) = users db
  ∧ limiter_by_clientId (login_run client (first :: rest) db) client
    = Some (length (adminRateLimits db),
            counted client (at_time first) (1 + Z.of_nat (length rest))
              (List.last (at_time <$> rest) (at_time first))).
Proof.
  intros Hnone Hlen [[Hcred _] Hrest]%Forall_cons.
  destruct (recordFailedAttempt_fresh (at_time first) client db Hnone)
    as (db' & Hrec & Husers & Hl').
  assert (blocked (checkRateLimit (at_time first) client db) = false) as Hunblocked.
  { apply checkRateLimit_unblocked. intros id l. by rewrite Hnone. }
  cbn [login_run]. unfold login_attempt.
  rewrite (login_failure _ _ _ _ _ _ _ db' Hunblocked Hcred Hrec). cbn [snd].
  destruct (login_run_failures client rest db' (length (adminRateLimits db))
              (at_time first) 1 (at_time first)) as [Hu Hfinal].
  - exact Hl'.
  - lia_limits.
  - lia_limits.
  - eapply Forall_impl; [exact Hrest|]. intros c [Hc Hw]. split; [|done].
    by rewrite (credentials_ok_users db db').
  - split; [congruence|done].
Qed.

(** A successful login. *)
Lemma login_success now token arg_email arg_password client db :
  blocked (checkRateLimit now client db) = false →
  credentials_ok db arg_email arg_password = true →
  ∃ user,
    (login now token arg_email arg_password client db).1
    = Return (LoginOk token user)
    ∧ match limiter_by_clientId db client with
      | Some (id, _) =>
          limiter_by_clientId
            (login now token arg_email arg_password client db).2 client
          = Some (id, {| clientId := client; windowStart := now; attempts := 0;
                         blockedUntil := None |})
      | None =>
          limiter_by_clientId
            (login now token arg_email arg_password client db).2 client = None
      end.
Proof.
  intros Hunblocked Hcred. unfold login. rewrite Hunblocked.
  unfold credentials_ok in Hcred.
  destruct (db_first _ (users db)) as [[userId user]|]; [|done].
  rewrite Hcred. cbn [negb].
  unfold mbind, M_bind, mret, M_ret, resetRateLimit, insertUserSession.
  destruct (limiter_by_clientId db client) as [[id l]|] eqn:Hl.
  - unfold patchRateLimit.
    pose proof (db_first_Some _ _ _ _ Hl) as [Hget Hm].
    rewrite (db_patch_is_Some _ _ _ l Hget). simpl.
    eexists. split; [done|]. unfold limiter_by_clientId. simpl.
    rewrite (limiter_clientId _ _ _ _ Hl).
    apply (db_first_patch _ _ _ l); [done|]. by apply bool_decide_eq_true.
  - simpl. eexists. split; [done|]. unfold limiter_by_clientId in *. simpl. done.
Qed.

(** C8: the login rate limiter.  Five failed attempts of a client, counted
    in one window (from a first failure of an unknown client, or after a
    reset), set [blockedUntil] to the time of the fifth plus the window;
    from then on, until that time, every attempt of the client is answered
    [Too many attempts] with the store left as it is, whatever the
    credentials.  While the block lasts no attempt changes the store.  A
    successful login of a client that is not blocked, in particular after
    fewer than five failures, resets its counter to 0 and clears
    [blockedUntil]. *)
Theorem login_rate_limit client :
  (∀ db a1 a2 a3 a4 a5,
     limiter_by_clientId db client = None →
     Forall (λ a, credentials_ok db (at_email a) (at_password a) = false
                  ∧ at_time a - at_time a1 < RATE_LIMIT_WINDOW_MS)
       [a1; a2; a3; a4; a5] →
     0 ≤ at_time a5 →
     ∃ id,
       limiter_by_clientId (login_run client [a1; a2; a3; a4; a5] db) client
       = Some (id, {| clientId := client; windowStart := at_time a1;
                      attempts := 5;
                      blockedUntil := Some (at_time a5 + RATE_LIMIT_WINDOW_MS) |})
       ∧ ∀ a6, at_time a6 < at_time a5 + RATE_LIMIT_WINDOW_MS →
           login_attempt client a6 (login_run client [a1; a2; a3; a4; a5] db)
           = (Return (LoginError (js "Too many attempts. Try again later.")
                        (Some (at_time a5 + RATE_LIMIT_WINDOW_MS))),
              login_run client [a1; a2; a3; a4; a5] db))
  ∧ (∀ db id start a1 a2 a3 a4 a5,
       limiter_by_clientId db client
       = Some (id, {| clientId := client; windowStart := start; attempts := 0;
                      blockedUntil := None |}) →
       Forall (λ a, credentials_ok db (at_email a) (at_password a) = false
                    ∧ at_time a - start < RATE_LIMIT_WINDOW_MS)
         [a1; a2; a3; a4; a5] →
       limiter_by_clientId (login_run client [a1; a2; a3; a4; a5] db) client
       = Some (id, {| clientId := client; windowStart := start; attempts := 5;
                      blockedUntil := Some (at_time a5 + RATE_LIMIT_WINDOW_MS) |}))
  ∧ (∀ db now token arg_email arg_password id l until,
       limiter_by_clientId db client = Some (id, l) →
       blockedUntil l = Some until → until ≠ 0 → now < until →
       login now token arg_email arg_password client db
       = (Return (LoginError (js "Too many attempts. Try again later.")
                    (Some until)), db))
  ∧ (∀ db now token arg_email arg_password,
       blocked (checkRateLimit now client db) = false →
       credentials_ok db arg_email arg_password = true →
       ∃ user,
         (login now token arg_email arg_password client db).1
         = Return (LoginOk token user)
         ∧ match limiter_by_clientId db client with
           | Some (id, _) =>
               limiter_by_clientId
                 (login now token arg_email arg_password client db).2 client
               = Some (id, {| clientId := client; windowStart := now;
                              attempts := 0; blockedUntil := None |})
           | None =>
               limiter_by_clientId
                 (login now token arg_email arg_password client db).2 client
               = None
           end)
  ∧ (∀ db first rest good,
       limiter_by_clientId db client = None →
       (length rest < 4)%nat →
       Forall (λ a, credentials_ok db (at_email a) (at_password a) = false
                    ∧ at_time a - at_time first < RATE_LIMIT_WINDOW_MS)
         (first :: rest) →
       credentials_ok db (at_email good) (at_password good) = true →
       ∃ id user,
         (login_attempt client good (login_run client (first :: rest) db)).1
         = Return (LoginOk (at_token good) user)
         ∧ limiter_by_clientId
             (login_run client (first :: rest ++ [good]) db) client
           = Some (id, {| clientId := client; windowStart := at_time good;
                          attempts := 0; blockedUntil := None |})).
Proof.
  split; [|split; [|split; [|split]]].
  - intros db a1 a2 a3 a4 a5 Hnone Hall Hpos.
    destruct (login_run_failures_fresh client a1 [a2; a3; a4; a5] db)
      as [Hu Hfinal]; [done|simpl; lia|done|].
    exists (length (adminRateLimits db)). split; [exact Hfinal|].
    intros a6 Hlt. unfold login_attempt.
    apply (login_blocked _ _ _ _ _ _ _ _ _ Hfinal); [done|lia_limits|done].
  - intros db id start a1 a2 a3 a4 a5 Hl Hall.
    destruct (login_run_failures client [a1; a2; a3; a4; a5] db id start 0 start)
      as [Hu Hfinal]; [exact Hl|simpl; lia_limits|lia_limits|done|].
    exact Hfinal.
  - intros db now token arg_email arg_password id l until. apply login_blocked.
  - intros db now token arg_email arg_password. apply login_success.
  - intros db first rest good Hnone Hlen Hall Hgood.
    destruct (login_run_failures_fresh client first rest db)
      as [Hu Hfinal]; [done|lia|done|].
    set (db' := login_run client (first :: rest) db) in *.
    assert (blocked (checkRateLimit (at_time good) client db') = false) as Hunblocked.
    { apply checkRateLimit_unblocked. intros id l. rewrite Hfinal.
      intros [= <- <-]. simpl. by rewrite bool_decide_false by lia_limits. }
    rewrite <-(credentials_ok_users db db') in Hgood by done.
    destruct (login_success (at_time good) (at_token good) _ _ client db'
                Hunblocked Hgood) as (user & Hres & Hlim).
    rewrite Hfinal in Hlim.
    exists (length (adminRateLimits db)), user. split; [exact Hres|].
    replace (login_run client (first :: rest ++ [good]) db)
      with (login_attempt client good db').2; [exact Hlim|].
    change (first :: rest ++ [good]) with ((first :: rest) ++ [good]).
    by rewrite login_run_app.
Qed.


End Auth.

(** * Further properties *)

(** ** Who may change a test *)

(** X1: Every moderation call is behind the session gate, and the admin calls
    behind the admin check: without a session the call throws what the gate
    throws, a caller who is not an admin gets [Admin access required.] from
    an admin call, and in both cases the store is the one the call found. *)
Theorem moderation_calls_are_gated (c : ModerationCall) (db : Store) :
  (∀ e, requireUserSession (call_now c) (call_token c) db = Throw e →
     moderation_step c db = (Throw e, db))
  ∧ (∀ userId,
       admin_call c = true →
       requireUserSession (call_now c) (call_token c) db = Return (userId, false) →
       moderation_step c db = (Throw (js "Admin access required."), db)).
Proof.
  split.
  - intros e Hgate.
    destruct c; simpl in *;
      unfold createUserTest, updateUserTest, adminUpdateTest, approveTest,
        rejectTest, permaRejectTest, resubmitTest, makeTestPrivate, requireAdmin;
      unfold_M; by rewrite Hgate.
  - intros userId Hadmin Hgate.
    destruct c; try discriminate; simpl in *;
      unfold adminUpdateTest, approveTest, rejectTest, permaRejectTest,
        makeTestPrivate, requireAdmin;
      unfold_M; by rewrite Hgate.
Qed.

(** The owner calls on a test of somebody else, or of nobody, throw and
    leave the store as it is, also for an admin. *)
Lemma owner_calls_need_owner now token id args db userId admin test :
  requireUserSession now token db = Return (userId, admin) →
  getTest id db = Some test →
  ownerId test ≠ Some userId →
  updateUserTest now token id args db
  = (Throw (js "You don't have permission to edit this test."), db)
  ∧ resubmitTest now token id db
    = (Throw (js "You don't have permission to resubmit this test."), db).
Proof.
  intros Hgate Hget Hown. unfold updateUserTest, resubmitTest. unfold_M.
  rewrite Hgate, Hget. by rewrite bool_decide_false.
Qed.

(** ** What the moderation calls keep *)

Section TestsKept.
Variable R : Test → Test → Prop.
Hypothesis R_refl : ∀ t, R t t.
Hypothesis R_trans : ∀ t1 t2 t3, R t1 t2 → R t2 t3 → R t1 t3.

Lemma tests_kept_refl db : tests_kept R db db.
Proof. intros id t Hget. by exists t. Qed.

Lemma tests_kept_trans db1 db2 db3 :
  tests_kept R db1 db2 → tests_kept R db2 db3 → tests_kept R db1 db3.
Proof.
  intros H12 H23 id t Hget.
  destruct (H12 id t Hget) as (t2 & Hget2 & Hr2).
  destruct (H23 id t2 Hget2) as (t3 & Hget3 & Hr3).
  exists t3. split; [done|]. by eapply R_trans.
Qed.

Lemma keeps_tests_ret {A} (a : A) : keeps_tests R (mret a).
Proof. intros db. apply tests_kept_refl. Qed.

Lemma keeps_tests_throw {A} msg : keeps_tests R (@throw A msg).
Proof. intros db. apply tests_kept_refl. Qed.

Lemma keeps_tests_query {A} (q : Store → outcome A) : keeps_tests R (query q).
Proof. intros db. apply tests_kept_refl. Qed.

Lemma keeps_tests_readTest id : keeps_tests R (readTest id).
Proof. intros db. apply tests_kept_refl. Qed.

Lemma keeps_tests_bind {A B} (m : M A) (f : A → M B) :
  keeps_tests R m → (∀ a, keeps_tests R (f a)) → keeps_tests R (m ≫= f).
Proof.
  intros Hm Hf db. unfold mbind, M_bind. specialize (Hm db).
  destruct (m db) as [[a|e] db']; simpl in *; [|done].
  eapply tests_kept_trans; [done|]. apply Hf.
Qed.

Lemma keeps_tests_patchTest id (f : Test → Test) :
  (∀ t, R t (f t)) → keeps_tests R (patchTest id f).
Proof.
  intros Hf db id' t Hget. unfold patchTest.
  destruct (getTest id db) as [test|] eqn:Hid.
  - unfold getTest in Hid. rewrite (db_patch_is_Some _ _ _ test) by done. simpl.
    destruct (decide (id = id')) as [<-|Hne].
    + rewrite (getTest_with_tests_eq _ _ test) by done.
      eexists. split; [done|]. unfold getTest in Hget.
      replace t with test by congruence. apply Hf.
    + rewrite getTest_with_tests_ne by done. by exists t.
  - unfold getTest in Hid. rewrite db_patch_None by done. by exists t.
Qed.

Lemma keeps_tests_insertTest doc : keeps_tests R (insertTest doc).
Proof.
  intros db id t Hget. unfold insertTest, getTest. simpl.
  exists t. split; [|done].
  pose proof (db_get_Some_lt _ _ _ Hget) as Hlt.
  unfold getTest, db_get in *. by rewrite lookup_app_l.
Qed.

End TestsKept.

Ltac keeps_tests_step :=
  match goal with
  | |- keeps_tests _ (_ ≫= _) =>
      apply keeps_tests_bind; try assumption; [|intros ?]
  | |- keeps_tests _ (patchTest _ _) =>
      apply keeps_tests_patchTest; try assumption; by intros ?
  | |- keeps_tests _ (match ?o with _ => _ end) => destruct o
  | |- keeps_tests _ (if ?b then _ else _) => destruct b
  | |- keeps_tests _ (mret _) => by apply keeps_tests_ret
  | |- keeps_tests _ (throw _) => by apply keeps_tests_throw
  | |- keeps_tests _ (query _) => by apply keeps_tests_query
  | |- keeps_tests _ (readTest _) => by apply keeps_tests_readTest
  | |- keeps_tests _ (insertTest _) => by apply keeps_tests_insertTest
  end.

Ltac unfold_handlers :=
  unfold createUserTest, updateUserTest, adminUpdateTest, approveTest,
    rejectTest, permaRejectTest, resubmitTest, makeTestPrivate.

(** X2: No moderation call removes a test, gives it another owner or another
    creation time: whatever calls run, a test stays under its id with the
    owner (or the absence of owner) it had. *)
Theorem ownership_is_permanent (calls : list ModerationCall) (db : Store) :
  tests_kept (λ t t', ownerId t' = ownerId t ∧ createdAt t' = createdAt t)
    db (moderation_run calls db).
Proof.
  set (R := λ t t' : Test, ownerId t' = ownerId t ∧ createdAt t' = createdAt t).
  assert (∀ t, R t t) as Hrefl by done.
  assert (∀ t1 t2 t3, R t1 t2 → R t2 t3 → R t1 t3) as Htrans.
  { intros t1 t2 t3 [H1 H2] [H3 H4]. split; congruence. }
  revert db. induction calls as [|c calls IH]; intros db; simpl.
  - by apply tests_kept_refl.
  - eapply tests_kept_trans; [done| |apply IH].
    assert (keeps_tests R (moderation_step c)) as Hstep; [|apply Hstep].
    destruct c; simpl; unfold_handlers; repeat keeps_tests_step.
Qed.

(** X3: Moderating and editing touch different fields.  The calls that
    moderate (approve, reject, perma-reject, resubmit, make private) never
    touch what the editor wrote: name, description, board, game, turn,
    [youId] and the expected moves stay as they were.  An admin edit
    changes that content only: the status, the rejection reason, the
    perma-rejection flag and the approval stamp stay, so an approved test
    stays approved, where an owner edit makes it pending. *)
Theorem edits_and_moderation_touch_different_fields now token id args db :
  (∀ c, status_call c = true →
     tests_kept (λ t t', content_of t' = content_of t) db (moderation_step c db).2)
  ∧ tests_kept
      (λ t t', status t' = status t ∧ rejectionReason t' = rejectionReason t
               ∧ permaRejected t' = permaRejected t
               ∧ approvedBy t' = approvedBy t ∧ approvedAt t' = approvedAt t)
      db (adminUpdateTest now token id args db).2
  ∧ (∀ userId test,
       requireUserSession now token db = Return (userId, true) →
       getTest id db = Some test →
       youExists (arg_board args) (arg_youId args) = true →
       ∃ test',
         getTest id (adminUpdateTest now token id args db).2 = Some test'
         ∧ content_of test' = args ∧ status test' = status test).
Proof.
  split; [|split].
  - intros c Hc.
    set (R := λ t t' : Test, content_of t' = content_of t).
    assert (∀ t, R t t) as Hrefl by done.
    assert (∀ t1 t2 t3, R t1 t2 → R t2 t3 → R t1 t3) as Htrans.
    { intros t1 t2 t3 H1 H2. unfold R in *. congruence. }
    assert (keeps_tests R (moderation_step c)) as Hstep; [|apply Hstep].
    destruct c; try discriminate; simpl; unfold_handlers; repeat keeps_tests_step.
  - set (R := λ t t' : Test,
          status t' = status t ∧ rejectionReason t' = rejectionReason t
          ∧ permaRejected t' = permaRejected t
          ∧ approvedBy t' = approvedBy t ∧ approvedAt t' = approvedAt t).
    assert (∀ t, R t t) as Hrefl by done.
    assert (∀ t1 t2 t3, R t1 t2 → R t2 t3 → R t1 t3) as Htrans.
    { intros t1 t2 t3 (?&?&?&?&?) (?&?&?&?&?). repeat split; congruence. }
    assert (keeps_tests R (adminUpdateTest now token id args)) as Hstep;
      [|apply Hstep].
    unfold adminUpdateTest; repeat keeps_tests_step.
  - intros userId test Hgate Hget Hyou. unfold adminUpdateTest. unfold_M.
    rewrite Hgate. cbn [negb]. rewrite Hget, Hyou. cbn [negb].
    rewrite (getTest_patched _ _ _ test Hget). simpl.
    rewrite (getTest_with_tests_eq _ _ test) by done.
    eexists. split; [done|]. by destruct args.
Qed.

(** ** The snake of a test *)

Section AllTests.
Variable P : Test → Prop.

Lemma keeps_all_ret {A} (a : A) : keeps_all_tests P (mret a).
Proof. by intros db Hall. Qed.

Lemma keeps_all_throw {A} msg : keeps_all_tests P (@throw A msg).
Proof. by intros db Hall. Qed.

Lemma keeps_all_query {A} (q : Store → outcome A) : keeps_all_tests P (query q).
Proof. by intros db Hall. Qed.

Lemma keeps_all_readTest id : keeps_all_tests P (readTest id).
Proof. by intros db Hall. Qed.

Lemma keeps_all_bind {A B} (m : M A) (f : A → M B) :
  keeps_all_tests P m → (∀ a, keeps_all_tests P (f a)) →
  keeps_all_tests P (m ≫= f).
Proof.
  intros Hm Hf db Hall. unfold mbind, M_bind. specialize (Hm db Hall).
  destruct (m db) as [[a|e] db']; simpl in *; [|done]. by apply Hf.
Qed.

Lemma keeps_all_patchTest id (f : Test → Test) :
  (∀ t, P t → P (f t)) → keeps_all_tests P (patchTest id f).
Proof.
  intros Hf db Hall id' t. unfold patchTest.
  destruct (getTest id db) as [test|] eqn:Hid.
  - unfold getTest in Hid. rewrite (db_patch_is_Some _ _ _ test) by done. simpl.
    destruct (decide (id = id')) as [<-|Hne].
    + rewrite (getTest_with_tests_eq _ _ test) by done.
      intros [= <-]. apply Hf. by apply (Hall id).
    + rewrite getTest_with_tests_ne by done. apply Hall.
  - unfold getTest in Hid. rewrite db_patch_None by done. apply Hall.
Qed.

Lemma keeps_all_insertTest doc : P doc → keeps_all_tests P (insertTest doc).
Proof.
  intros Hdoc db Hall id t. unfold insertTest, getTest, db_get. simpl.
  destruct (decide (id < length (tests db))%nat) as [Hlt|Hge].
  - rewrite lookup_app_l by done. apply Hall.
  - rewrite lookup_app_r by lia.
    destruct (id - length (tests db))%nat as [|n]; simpl.
    + by intros [= <-].
    + done.
Qed.

End AllTests.

Ltac keeps_all_step :=
  match goal with
  | |- keeps_all_tests _ (_ ≫= _) => apply keeps_all_bind; [|intros ?]
  | |- keeps_all_tests _ (patchTest _ _) =>
      apply keeps_all_patchTest; intros ? ?; unfold you_on_board in *; by simpl
  | |- keeps_all_tests _ (insertTest _) =>
      apply keeps_all_insertTest; unfold you_on_board in *; by simpl
  | |- keeps_all_tests _ (if negb ?b then _ else _) => destruct b eqn:?; cbn [negb]
  | |- keeps_all_tests _ (if ?b then _ else _) => destruct b eqn:?
  | |- keeps_all_tests _ (match ?o with _ => _ end) => destruct o
  | |- keeps_all_tests _ (mret _) => by apply keeps_all_ret
  | |- keeps_all_tests _ (throw _) => by apply keeps_all_throw
  | |- keeps_all_tests _ (query _) => by apply keeps_all_query
  | |- keeps_all_tests _ (readTest _) => by apply keeps_all_readTest
  end.

Lemma moderation_step_keeps_you (c : ModerationCall) :
  keeps_all_tests you_on_board (moderation_step c).
Proof. destruct c; simpl; unfold_handlers; repeat keeps_all_step. Qed.

Lemma youExists_find (b : Board) (you : jsstring) :
  youExists b you = true →
  ∃ s, List.find (fun snakeItem => bool_decide (snake_id snakeItem = you)) (snakes b)
       = Some s.
Proof.
  unfold youExists. induction (snakes b) as [|s l IH]; simpl; [done|].
  destruct (bool_decide (snake_id s = you)); [by eexists|]. apply IH.
Qed.

(** X4: Every handler that writes a board checks that [youId] names one of its
    snakes, so the stores the moderation calls build keep that property of
    every test; and on such a store an execution whose run is running, on a
    test that exists, with a URL that is not blank, always reaches the bot:
    it makes exactly one call, and the [you] of the request is a snake of
    the board whose id is [youId]. *)
Theorem you_is_always_on_board (calls : list ModerationCall) (db : Store) :
  all_tests you_on_board db →
  all_tests you_on_board (moderation_run calls db)
  ∧ ∀ `{Runtime} env runId run test endpoint,
      getTestRun runId (moderation_run calls db) = Some run →
      run_status run = running →
      getTest (run_testId run) (moderation_run calls db) = Some test →
      endpoint_of (botUrl run) = Some endpoint →
      ∃ you,
        calls_of (executeTestRun env runId (moderation_run calls db))
        = [(endpoint, requestBody (run_testId run) test you)]
        ∧ you ∈ snakes (board test)
        ∧ snake_id you = youId test.
Proof.
  intros Hall.
  assert (all_tests you_on_board (moderation_run calls db)) as Hall'.
  { revert db Hall. induction calls as [|c calls IH]; intros db Hall; simpl; [done|].
    apply IH. by apply moderation_step_keeps_you. }
  split; [done|]. intros R env runId run test endpoint Hrun Hst Htest Hend.
  destruct (youExists_find _ _ (Hall' _ _ Htest)) as [you Hyou].
  exists you. split; [by eapply executeTestRun_calls|].
  apply find_some in Hyou as [Hin Hid]. split.
  - by apply list_elem_of_In.
  - by apply bool_decide_eq_true in Hid.
Qed.

(** ** More on the run pipeline *)

Section RunMore.
Context `{Runtime}.
Implicit Types (env : Env) (db : Store) (runId : Id).

Lemma slice0_length (n : nat) (s : jsstring) : (length (slice0 n s) ≤ n)%nat.
Proof. unfold slice0. rewrite length_take. lia. Qed.

Lemma slice0_bound (n : nat) (s raw : jsstring) :
  Some (slice0 n s) = Some raw → (length raw ≤ n)%nat.
Proof. intros [= <-]. apply slice0_length. Qed.

(** X5: An execution after an execution of the same run does nothing: it
    answers with an error, leaves the store as the first one left it and
    calls nobody, whatever the first one did and whatever the bot would
    say. *)
Theorem second_execution_is_a_noop env env' runId db :
  ∃ error,
    executeTestRun env' runId (store_after (executeTestRun env runId db))
    = (Return (ExecError error), store_after (executeTestRun env runId db), []).
Proof.
  destruct (getTestRun runId db) as [run|] eqn:Hrun.
  - destruct (decide (run_status run = running)) as [Hst|Hst].
    + destruct (executeTestRun_running env runId db run Hrun Hst) as [args Ha].
      rewrite Ha. eexists. unfold executeTestRun at 1.
      rewrite (getTestRun_closed_with _ _ _ _ run Hrun).
      rewrite bool_decide_false; [done|]. simpl. by destruct (res_status args).
    + assert (store_after (executeTestRun env runId db) = db) as ->.
      { unfold executeTestRun. rewrite Hrun. by rewrite bool_decide_false. }
      eexists. unfold executeTestRun. rewrite Hrun. by rewrite bool_decide_false.
  - assert (store_after (executeTestRun env runId db) = db) as ->.
    { unfold executeTestRun. by rewrite Hrun. }
    eexists. unfold executeTestRun. by rewrite Hrun.
Qed.

(** X6: What an execution writes when it closes a run is well formed: a
    completed run carries [passed], its HTTP status and response time and no
    error; a failed run carries an error and neither a move, a shout nor
    [passed]; and the raw response kept is never longer than 1000 code
    units. *)
Theorem closed_run_is_well_formed env runId db run :
  getTestRun runId db = Some run → run_status run = running →
  ∃ run',
    getTestRun runId (store_after (executeTestRun env runId db)) = Some run'
    ∧ run_testId run' = run_testId run ∧ run_userId run' = run_userId run
    ∧ botUrl run' = botUrl run ∧ startedAt run' = startedAt run
    ∧ completedAt run' = Some (clock_result env)
    ∧ (∀ raw, run_rawResponse run' = Some raw → (length raw ≤ 1000)%nat)
    ∧ ((run_status run' = completed ∧ is_Some (run_passed run')
        ∧ run_error run' = None ∧ is_Some (run_httpStatus run')
        ∧ is_Some (run_responseTimeMs run'))
       ∨ (run_status run' = failed ∧ is_Some (run_error run')
          ∧ run_passed run' = None ∧ run_move run' = None
          ∧ run_shout run' = None)).
Proof.
  intros Hrun Hst.
  assert (∀ args,
    (∀ raw, res_rawResponse args = Some raw → (length raw ≤ 1000)%nat) →
    ((res_status args = terminal_completed ∧ is_Some (res_passed args)
      ∧ res_error args = None ∧ is_Some (res_httpStatus args)
      ∧ is_Some (res_responseTimeMs args))
     ∨ (res_status args = terminal_failed ∧ is_Some (res_error args)
        ∧ res_passed args = None ∧ res_move args = None
        ∧ res_shout args = None)) →
    ∀ e, store_after e = closed_with db runId (clock_result env) args run →
    ∃ run',
      getTestRun runId (store_after e) = Some run'
      ∧ run_testId run' = run_testId run ∧ run_userId run' = run_userId run
      ∧ botUrl run' = botUrl run ∧ startedAt run' = startedAt run
      ∧ completedAt run' = Some (clock_result env)
      ∧ (∀ raw, run_rawResponse run' = Some raw → (length raw ≤ 1000)%nat)
      ∧ ((run_status run' = completed ∧ is_Some (run_passed run')
          ∧ run_error run' = None ∧ is_Some (run_httpStatus run')
          ∧ is_Some (run_responseTimeMs run'))
         ∨ (run_status run' = failed ∧ is_Some (run_error run')
            ∧ run_passed run' = None ∧ run_move run' = None
            ∧ run_shout run' = None))) as Hshape.
  { intros args Hraw Hkind e ->.
    rewrite (getTestRun_closed_with _ _ _ _ run Hrun). eexists. split; [done|].
    simpl. do 5 (split; [done|]). split; [done|].
    destruct Hkind as [(-> & ?)|(-> & ?)]; [by left|by right]. }
  assert (∀ msg result calls,
    store_after (record_result env runId (failed_with msg) result calls db)
    = closed_with db runId (clock_result env) (failed_with msg) run) as Hrec.
  { intros. by rewrite (record_result_existing _ _ _ _ _ _ run Hrun). }
  assert (∀ args result calls,
    store_after (record_result_try env runId args result calls db)
    = closed_with db runId (clock_result env) args run) as Htry.
  { intros. by rewrite (record_result_try_existing _ _ _ _ _ _ run Hrun). }
  assert (∀ msg, (∀ raw, res_rawResponse (failed_with msg) = Some raw →
                         (length raw ≤ 1000)%nat)
                 ∧ ((res_status (failed_with msg) = terminal_completed
                     ∧ is_Some (res_passed (failed_with msg))
                     ∧ res_error (failed_with msg) = None
                     ∧ is_Some (res_httpStatus (failed_with msg))
                     ∧ is_Some (res_responseTimeMs (failed_with msg)))
                    ∨ (res_status (failed_with msg) = terminal_failed
                       ∧ is_Some (res_error (failed_with msg))
                       ∧ res_passed (failed_with msg) = None
                       ∧ res_move (failed_with msg) = None
                       ∧ res_shout (failed_with msg) = None))) as Hfailed.
  { intros msg. split; [done|]. right. simpl. by repeat split. }
  unfold executeTestRun. rewrite Hrun, bool_decide_true by done. cbn [negb].
  destruct (getTest (run_testId run) db) as [test|].
  2: { eapply Hshape; [apply Hfailed..|apply Hrec]. }
  destruct (List.find _ _) as [you|].
  2: { eapply Hshape; [apply Hfailed..|apply Hrec]. }
  destruct (endpoint_of (botUrl run)) as [endpoint|].
  2: { eapply Hshape; [apply Hfailed..|apply Hrec]. }
  cbv zeta. unfold record_caught.
  destruct (fetch env _ _) as [e|http_status [e|text]].
  { eapply Hshape; [apply Hfailed..|apply Hrec]. }
  { eapply Hshape; [apply Hfailed..|apply Hrec]. }
  destruct (if str_falsy text then _ else _) as [data|].
  - destruct (response_ok http_status); cbn [negb].
    + eapply Hshape; [| |apply Htry].
      * cbn [res_rawResponse]. intros raw. apply slice0_bound.
      * left. simpl. by repeat split.
    + eapply Hshape; [| |apply Htry].
      * cbn [res_rawResponse]. intros raw. apply slice0_bound.
      * right. simpl. by repeat split.
  - eapply Hshape; [| |apply Htry].
    + cbn [res_rawResponse]. intros raw. apply slice0_bound.
    + right. simpl. by repeat split.
Qed.

(** X7: A failed exchange is recorded by its kind.  A failure of the transport
    (a rejected [fetch], or a body that cannot be read) closes the run as
    failed with the message of the error, and with neither an HTTP status,
    a raw response nor a response time.  An answer outside 2xx whose body
    is empty or is JSON closes it as failed with the message
    [HTTP <status>], and keeps the status, the body as parsed and
    serialised again (its first 1000 code units) and the response time. *)
Theorem failures_are_recorded_by_kind env runId db run test :
  (∀ outcome e,
     bot_exchange env runId db run test outcome →
     (outcome = FetchRejected e
      ∨ ∃ http_status, outcome = FetchResponse http_status (inl e)) →
     ∃ run',
       getTestRun runId (store_after (executeTestRun env runId db)) = Some run'
       ∧ run_status run' = failed
       ∧ run_error run' = Some (error_message e)
       ∧ run_httpStatus run' = None
       ∧ run_rawResponse run' = None
       ∧ run_responseTimeMs run' = None
       ∧ answer_of (executeTestRun env runId db)
         = Return (ExecError (error_message e)))
  ∧ (∀ http_status text data,
       bot_exchange env runId db run test
         (FetchResponse http_status (inr text)) →
       response_ok http_status = false →
       (text = [] ∧ data = JNull) ∨ (text ≠ [] ∧ JSON_parse text = Some data) →
       ∃ run',
         getTestRun runId (store_after (executeTestRun env runId db)) = Some run'
         ∧ run_status run' = failed
         ∧ run_error run' = Some (js "HTTP " ++ Number_toString http_status)
         ∧ run_httpStatus run' = Some http_status
         ∧ run_rawResponse run' = Some (take 1000 (JSON_stringify data))
         ∧ run_responseTimeMs run'
           = Some (clock_fetchEnd env - clock_fetchStart env)
         ∧ run_passed run' = None
         ∧ answer_of (executeTestRun env runId db)
           = Return (ExecError (js "HTTP " ++ Number_toString http_status))).
Proof.
  split.
  - intros outcome e
      (you & endpoint & Hrun & Hst & Htest & Hyou & Hend & Hfetch) Hout.
    unfold executeTestRun. rewrite Hrun, bool_decide_true by done. cbn [negb].
    rewrite Htest, Hyou, Hend. cbv zeta. rewrite Hfetch.
    destruct Hout as [->|[http_status ->]];
      rewrite (record_caught_existing _ _ _ _ _ run Hrun);
      unfold store_after, answer_of; cbn [fst snd];
      rewrite (getTestRun_closed_with _ _ _ _ run Hrun);
      by eexists.
  - intros http_status text data
      (you & endpoint & Hrun & Hst & Htest & Hyou & Hend & Hfetch) Hok Hbody.
    unfold executeTestRun. rewrite Hrun, bool_decide_true by done. cbn [negb].
    rewrite Htest, Hyou, Hend. cbv zeta. rewrite Hfetch.
    assert ((if str_falsy text then Some JNull else JSON_parse text) = Some data)
      as ->.
    { destruct Hbody as [[-> ->]|[Hne Hparse]]; [done|].
      apply str_falsy_false in Hne. by rewrite Hne. }
    rewrite Hok. cbn [negb].
    rewrite (record_result_try_existing _ _ _ _ _ _ run Hrun).
    unfold store_after, answer_of. cbn [fst snd].
    rewrite (getTestRun_closed_with _ _ _ _ run Hrun). by eexists.
Qed.

(** A run whose test is gone, or whose test has no snake named by [youId],
    is closed as failed without any call to the bot. *)
Lemma execution_fails_closed env runId db run :
  getTestRun runId db = Some run → run_status run = running →
  (getTest (run_testId run) db = None →
     executeTestRun env runId db
     = (Return (ExecError (js "Test not found.")),
        closed_with db runId (clock_result env)
          (failed_with (js "Test not found.")) run, []))
  ∧ (∀ test,
       getTest (run_testId run) db = Some test →
       youExists (board test) (youId test) = false →
       executeTestRun env runId db
       = (Return (ExecError (js "You snake not found in test.")),
          closed_with db runId (clock_result env)
            (failed_with (js "You snake not found in test.")) run, [])).
Proof.
  intros Hrun Hst. split.
  - intros Htest. unfold executeTestRun.
    rewrite Hrun, bool_decide_true by done. cbn [negb]. rewrite Htest.
    by rewrite (record_result_existing _ _ _ _ _ _ run Hrun).
  - intros test Htest Hyou. unfold executeTestRun.
    rewrite Hrun, bool_decide_true by done. cbn [negb]. rewrite Htest.
    assert (List.find (fun snakeItem => bool_decide (snake_id snakeItem = youId test))
              (snakes (board test)) = None) as ->.
    { unfold youExists in Hyou. induction (snakes (board test)) as [|s l IH];
        simpl in *; [done|].
      destruct (bool_decide (snake_id s = youId test)); [done|]. by apply IH. }
    by rewrite (record_result_existing _ _ _ _ _ _ run Hrun).
Qed.

(** What [startTestRun] does for a caller with a session and a test that
    exists. *)
Lemma startTestRun_success now token testId url db userId admin test :
  requireUserSession now token db = Return (userId, admin) →
  getTest testId db = Some test →
  ∃ db',
    startTestRun now token testId url db = (Return (length (testRuns db)), db')
    ∧ getTestRun (length (testRuns db)) db = None
    ∧ getTestRun (length (testRuns db)) db'
      = Some {| run_testId := testId; run_userId := userId; botUrl := url;
                run_status := running; run_move := None; run_shout := None;
                run_passed := None; run_error := None;
                run_httpStatus := None; run_rawResponse := None;
                run_responseTimeMs := None; startedAt := now;
                completedAt := None |}
    ∧ (∀ id, id ≠ length (testRuns db) → getTestRun id db' = getTestRun id db)
    ∧ tests db' = tests db ∧ users db' = users db
    ∧ userSessions db' = userSessions db.
Proof.
  intros Hgate Htest. unfold startTestRun. unfold_M.
  rewrite Hgate, Htest. unfold insertTestRun, db_insert. simpl.
  eexists. split; [done|]. unfold getTestRun, db_get. simpl.
  split; [by rewrite lookup_ge_None_2|].
  split; [by rewrite lookup_app_r, Nat.sub_diag|].
  split; [|done]. intros id Hne.
  destruct (decide (id < length (testRuns db))%nat) as [Hlt|Hge].
  - by rewrite lookup_app_l.
  - rewrite (lookup_ge_None_2 (testRuns db)) by lia. rewrite lookup_app_r by lia.
    destruct (id - length (testRuns db))%nat eqn:Hd; [lia|done].
Qed.

(** [startTestRun] appends a run that is running, for the caller and the
    test, with the URL exactly as given (it is neither trimmed nor checked),
    returns its id, and changes nothing else; without a session or without
    the test it throws and changes nothing. *)
Lemma startTestRun_inserts_a_running_run now token testId url db :
  (∀ userId admin test,
     requireUserSession now token db = Return (userId, admin) →
     getTest testId db = Some test →
     ∃ db',
       startTestRun now token testId url db = (Return (length (testRuns db)), db')
       ∧ getTestRun (length (testRuns db)) db = None
       ∧ getTestRun (length (testRuns db)) db'
         = Some {| run_testId := testId; run_userId := userId; botUrl := url;
                   run_status := running; run_move := None; run_shout := None;
                   run_passed := None; run_error := None;
                   run_httpStatus := None; run_rawResponse := None;
                   run_responseTimeMs := None; startedAt := now;
                   completedAt := None |}
       ∧ (∀ id, id ≠ length (testRuns db) → getTestRun id db' = getTestRun id db)
       ∧ tests db' = tests db ∧ users db' = users db
       ∧ userSessions db' = userSessions db)
  ∧ (∀ e, requireUserSession now token db = Throw e →
       startTestRun now token testId url db = (Throw e, db))
  ∧ (∀ userId admin,
       requireUserSession now token db = Return (userId, admin) →
       getTest testId db = None →
       startTestRun now token testId url db = (Throw (js "Test not found."), db)).
Proof.
  split; [|split].
  - intros userId admin test. apply startTestRun_success.
  - intros e Hgate. unfold startTestRun. unfold_M. by rewrite Hgate.
  - intros userId admin Hgate Htest. unfold startTestRun. unfold_M.
    by rewrite Hgate, Htest.
Qed.

(** X8: Starting a run and executing it: the run is closed by that execution.
    With a blank URL the start succeeds and it is the execution that
    refuses, without a call; with any other URL the bot is called once, at
    the normalised endpoint. *)
Theorem start_then_execute now token testId url db env userId admin test :
  requireUserSession now token db = Return (userId, admin) →
  getTest testId db = Some test →
  you_on_board test →
  ∃ runId db' run',
    startTestRun now token testId url db = (Return runId, db')
    ∧ getTestRun runId (store_after (executeTestRun env runId db')) = Some run'
    ∧ run_status run' ≠ running
    ∧ (Forall (λ c, is_white_space c = true) url →
         answer_of (executeTestRun env runId db')
         = Return (ExecError (js "Bot URL is required."))
         ∧ calls_of (executeTestRun env runId db') = [])
    ∧ (∀ endpoint, endpoint_of url = Some endpoint →
         ∃ you, calls_of (executeTestRun env runId db')
                = [(endpoint, requestBody testId test you)]).
Proof.
  intros Hgate Htest Hyou.
  destruct (startTestRun_success now token testId url db userId admin test
              Hgate Htest)
    as (db' & Hstart & _ & Hrun & _ & Htests & _).
  assert (getTest testId db' = Some test) as Htest'.
  { unfold getTest in *. by rewrite Htests. }
  destruct (youExists_find _ _ Hyou) as [you Hfind].
  destruct (executeTestRun_running env _ db' _ Hrun eq_refl) as [args Hclosed].
  exists (length (testRuns db)), db', (terminal_patch (clock_result env) args
    {| run_testId := testId; run_userId := userId; botUrl := url;
       run_status := running; run_move := None; run_shout := None;
       run_passed := None; run_error := None; run_httpStatus := None;
       run_rawResponse := None; run_responseTimeMs := None; startedAt := now;
       completedAt := None |}).
  split; [done|].
  split; [by rewrite Hclosed, (getTestRun_closed_with _ _ _ _ _ Hrun)|].
  split; [cbn [terminal_patch run_status]; by destruct (res_status args)|]. split.
  - intros Hblank%endpoint_of_blank. unfold executeTestRun.
    rewrite Hrun. cbn [run_status run_testId botUrl]. rewrite bool_decide_true by done.
    cbn [negb]. rewrite Htest', Hfind, Hblank.
    by rewrite (record_result_existing _ _ _ _ _ _ _ Hrun).
  - intros endpoint Hend. exists you.
    by apply (executeTestRun_calls env _ db' _ test you endpoint Hrun).
Qed.

(** X9: [updateTestRunResult] does not look at the status of the run: a result
    written on top of another replaces it whole, so that the last of two
    results is the one that stays.  On a run that does not exist both
    throw and nothing changes. *)
Theorem last_result_wins now1 now2 runId args1 args2 db :
  updateTestRunResult now2 runId args2 (updateTestRunResult now1 runId args1 db).2
  = updateTestRunResult now2 runId args2 db.
Proof.
  unfold updateTestRunResult.
  destruct (db_get (testRuns db) runId) as [run|] eqn:Hrun.
  - rewrite (db_patch_is_Some _ _ _ run Hrun). simpl.
    assert (db_get (<[runId := Some (terminal_patch now1 args1 run)]> (testRuns db))
              runId = Some (terminal_patch now1 args1 run)) as Hrun1.
    { unfold db_get. rewrite list_lookup_insert_eq; [done|].
      by eapply db_get_Some_lt. }
    rewrite (db_patch_is_Some _ _ _ _ Hrun1). rewrite list_insert_insert_eq.
    rewrite (db_patch_is_Some _ _ (terminal_patch now2 args2) run Hrun).
    by unfold with_testRuns, terminal_patch.
  - rewrite (db_patch_None _ _ _ Hrun). simpl. by rewrite (db_patch_None _ _ _ Hrun).
Qed.

End RunMore.

(** The endpoint of a URL always ends with [/move], and is its own
    endpoint: normalising twice gives nothing new. *)
Lemma endpoint_is_stable (url endpoint : jsstring) :
  endpoint_of url = Some endpoint →
  js "/move" `suffix_of` endpoint ∧ endpoint_of endpoint = Some endpoint.
Proof.
  intros (trimmed & stripped & Htrim & Hne & Hstrip & Hcase)%endpoint_of_spec.
  assert (js "/move" `suffix_of` endpoint) as Hsuf.
  { destruct Hcase as [[Hs ->]|[_ ->]]; [done|]. by exists stripped. }
  split; [done|]. apply endpoint_of_spec.
  destruct Hsuf as [k Hk].
  assert (last endpoint = Some 101%N) as Hlast.
  { rewrite Hk. by rewrite last_app. }
  assert (∀ c, head endpoint = Some c → is_white_space c = false) as Hhead.
  { destruct Htrim as (lead & trail & _ & _ & _ & Hh & _).
    destruct Hstrip as (n & Htr & _).
    destruct stripped as [|c s].
    - destruct Hcase as [[[k' Hk'] _]|[_ ->]].
      + by destruct k'.
      + intros c. by intros [= <-].
    - assert (head endpoint = Some c) as ->.
      { by destruct Hcase as [[_ ->]|[_ ->]]. }
      intros c' [= <-]. apply Hh. by rewrite Htr. }
  exists endpoint, endpoint. split.
  - exists [], []. rewrite app_nil_r. repeat split; [done..|].
    intros c. rewrite Hlast. by intros [= <-].
  - split; [by intros ->|]. split.
    + exists 0%nat. rewrite app_nil_r. split; [done|]. by rewrite Hlast.
    + left. split; [by exists k|done].
Qed.

(** ** More on sessions *)

Section TablesMore.
Context {A : Type}.
Implicit Types (t : table A) (id : Id).

Lemma db_first_from_None matches t i :
  db_first_from matches t i = None ↔
  ∀ id doc, db_get t id = Some doc → matches doc = false.
Proof.
  revert i. induction t as [|[d|] t IH]; intros i; simpl.
  - split; [|done]. intros _ id doc. unfold db_get. by rewrite lookup_nil.
  - destruct (matches d) eqn:Hd.
    + split; [done|]. intros Hall. specialize (Hall 0%nat d eq_refl). congruence.
    + rewrite IH. split.
      * intros Hall [|id] doc; [by intros [= <-]|]. apply (Hall id).
      * intros Hall id doc. apply (Hall (S id)).
  - rewrite IH. split.
    + intros Hall [|id] doc; [done|]. apply (Hall id).
    + intros Hall id doc. apply (Hall (S id)).
Qed.

Lemma db_first_None matches t :
  db_first matches t = None ↔
  ∀ id doc, db_get t id = Some doc → matches doc = false.
Proof. apply db_first_from_None. Qed.

Lemma db_get_delete_eq t t' id : db_delete t id = Some t' → db_get t' id = None.
Proof.
  unfold db_delete. destruct (db_get t id) eqn:Hget; [|done]. intros [= <-].
  unfold db_get. rewrite list_lookup_insert_eq; [done|]. by eapply db_get_Some_lt.
Qed.

Lemma db_get_delete_ne t t' id id' :
  id ≠ id' → db_delete t id = Some t' → db_get t' id' = db_get t id'.
Proof.
  unfold db_delete. destruct (db_get t id); [|done]. intros Hne [= <-].
  unfold db_get. by rewrite list_lookup_insert_ne.
Qed.

Lemma db_delete_is_Some t id doc :
  db_get t id = Some doc → db_delete t id = Some (<[id := None]> t).
Proof. unfold db_delete. by intros ->. Qed.

End TablesMore.

Section SessionsMore.
Context `{Runtime}.
Implicit Types (db : Store) (token : jsstring).

(** What [login] leaves in the store when it succeeds. *)
Lemma login_success_store now token arg_email arg_password client db userId user :
  blocked (checkRateLimit now client db) = false →
  db_first (fun u => bool_decide (emailLower u = trim (toLowerCase arg_email)))
    (users db) = Some (userId, user) →
  bcrypt_compareSync arg_password (passwordHash user) = true →
  ∃ db',
    login now token arg_email arg_password client db
    = (Return (LoginOk token
                 {| info_id := userId; info_email := email user;
                    info_username := username user;
                    info_isAdmin := isAdmin user |}), db')
    ∧ users db' = users db
    ∧ tests db' = tests db
    ∧ userSessions db'
      = userSessions db
        ++ [Some {| session_userId := userId; session_token := token;
                    session_createdAt := now;
                    session_expiresAt := now + SESSION_TTL_MS |}].
Proof.
  intros Hunblocked Huser Hpw. unfold login. rewrite Hunblocked, Huser, Hpw.
  cbn [negb]. unfold mbind, M_bind, mret, M_ret, resetRateLimit, insertUserSession.
  destruct (limiter_by_clientId db client) as [[id l]|] eqn:Hl.
  - unfold patchRateLimit.
    pose proof (db_first_Some _ _ _ _ Hl) as [Hget _].
    rewrite (db_patch_is_Some _ _ _ l Hget). simpl. by eexists.
  - simpl. by eexists.
Qed.

(** X10: A login opens a session of 24 hours: with a token that no session of
    the store carries yet, the gate lets the token pass, as the user who
    signed in, up to and including the instant of expiry, and refuses it as
    expired afterwards. *)
Theorem login_opens_a_session now token arg_email arg_password client db userId user :
  blocked (checkRateLimit now client db) = false →
  db_first (fun u => bool_decide (emailLower u = trim (toLowerCase arg_email)))
    (users db) = Some (userId, user) →
  bcrypt_compareSync arg_password (passwordHash user) = true →
  session_by_token db token = None →
  (login now token arg_email arg_password client db).1
  = Return (LoginOk token
              {| info_id := userId; info_email := email user;
                 info_username := username user; info_isAdmin := isAdmin user |})
  ∧ ∀ later,
      (later ≤ now + SESSION_TTL_MS →
         requireUserSession later token
           (login now token arg_email arg_password client db).2
         = Return (userId, isAdmin user))
      ∧ (now + SESSION_TTL_MS < later →
           requireUserSession later token
             (login now token arg_email arg_password client db).2
           = Throw (js "Session expired. Please log in again.")).
Proof.
  intros Hunblocked Huser Hpw Hfresh.
  destruct (login_success_store now token arg_email arg_password client db
              userId user Hunblocked Huser Hpw) as (db' & -> & Husers & _ & Hsess).
  split; [done|]. cbn [snd].
  assert (session_by_token db' token
          = Some (length (userSessions db),
                  {| session_userId := userId; session_token := token;
                     session_createdAt := now;
                     session_expiresAt := now + SESSION_TTL_MS |})) as Hfound.
  { unfold session_by_token. rewrite Hsess.
    apply (db_first_insert _ (userSessions db)); [done|].
    by apply bool_decide_eq_true. }
  pose proof (db_first_Some _ _ _ _ Huser) as [Hget _].
  intros later. split; intros Hlater; unfold requireUserSession;
    rewrite Hfound; cbn [session_expiresAt session_userId].
  - rewrite bool_decide_false by lia. by rewrite Husers, Hget.
  - by rewrite bool_decide_true by lia.
Qed.

(** X11: [getCurrentUser] is the gate that answers [null] instead of throwing:
    it names the user exactly when [requireUserSession] lets the token
    pass.  Without a token, or with the empty token, it answers [null]
    whatever the store holds. *)
Theorem getCurrentUser_follows_the_gate now token db :
  getCurrentUser now None db = None
  ∧ getCurrentUser now (Some []) db = None
  ∧ (token ≠ [] →
     match requireUserSession now token db with
     | Return (userId, admin) =>
         ∃ user,
           db_get (users db) userId = Some user ∧ isAdmin user = admin
           ∧ getCurrentUser now (Some token) db
             = Some {| info_id := userId; info_email := email user;
                       info_username := username user; info_isAdmin := admin |}
     | Throw _ => getCurrentUser now (Some token) db = None
     end).
Proof.
  split; [done|]. split; [done|]. intros Hne%str_falsy_false.
  unfold requireUserSession, getCurrentUser. rewrite Hne.
  destruct (session_by_token db token) as [[id session]|]; [|done].
  destruct (bool_decide (session_expiresAt session < now)); [done|].
  destruct (db_get (users db) (session_userId session)) as [user|] eqn:Hu;
    [|done].
  by exists user.
Qed.

(** X12: [logout] removes the session of the token, and only it; a token that
    no session carries is answered the same way and nothing changes.  When
    the token belonged to one session, the gate refuses it from then on as
    invalid, at any time. *)
Theorem logout_closes_the_session token db :
  (session_by_token db token = None → logout token db = (Return (), db))
  ∧ (∀ id session,
       session_by_token db token = Some (id, session) →
       (logout token db).1 = Return ()
       ∧ db_get (userSessions (logout token db).2) id = None
       ∧ (∀ id', id' ≠ id →
            db_get (userSessions (logout token db).2) id'
            = db_get (userSessions db) id')
       ∧ users (logout token db).2 = users db
       ∧ tests (logout token db).2 = tests db
       ∧ ((∀ id' session',
             db_get (userSessions db) id' = Some session' →
             session_token session' = token → id' = id) →
          ∀ later,
            requireUserSession later token (logout token db).2
            = Throw (js "Session invalid. Please log in again."))).
Proof.
  split.
  - intros Hnone. unfold logout. by rewrite Hnone.
  - intros id session Hs. unfold logout. rewrite Hs.
    pose proof (db_first_Some _ _ _ _ Hs) as [Hget _].
    rewrite (db_delete_is_Some _ _ _ Hget). cbn [fst snd].
    split; [done|]. unfold with_userSessions. cbn [userSessions users tests].
    split; [|split; [|split; [done|split; [done|]]]].
    + unfold db_get. rewrite list_lookup_insert_eq; [done|].
      by eapply db_get_Some_lt.
    + intros id' Hne. unfold db_get. by rewrite list_lookup_insert_ne.
    + intros Hunique later. unfold requireUserSession, session_by_token.
      cbn [userSessions].
      assert (db_first (λ s, bool_decide (session_token s = token))
                (<[id := None]> (userSessions db)) = None) as ->; [|done].
      apply db_first_None. intros id' s' Hget'.
      apply bool_decide_eq_false. intros Htok.
      destruct (decide (id' = id)) as [->|Hne].
      * unfold db_get in Hget'. rewrite list_lookup_insert_eq in Hget'; [done|].
        by eapply db_get_Some_lt.
      * unfold db_get in Hget'. rewrite list_lookup_insert_ne in Hget' by done.
        by specialize (Hunique id' s' Hget' Htok).
Qed.

End SessionsMore.

(** ** More on the rate limiter, and the admin password *)

Section LimiterMore.
Context `{Runtime}.
Implicit Types (db : Store) (client : jsstring) (now : Z).

Ltac lia_limits :=
  unfold RATE_LIMIT_WINDOW_MS, RATE_LIMIT_MAX_ATTEMPTS in *; lia.

(** A failed attempt of a known client whose window is over. *)
Lemma recordFailedAttempt_window_over now client db id l :
  limiter_by_clientId db client = Some (id, l) →
  RATE_LIMIT_WINDOW_MS ≤ now - windowStart l →
  ∃ r db',
    recordFailedAttempt now client db = (Return r, db')
    ∧ users db' = users db
    ∧ limiter_by_clientId db' client
      = Some (id, {| clientId := client; windowStart := now; attempts := 1;
                     blockedUntil := None |}).
Proof.
  intros Hl Hover. unfold recordFailedAttempt. rewrite Hl.
  rewrite (bool_decide_false (now - windowStart l < _)) by lia.
  rewrite (bool_decide_false (0 + 1 >= RATE_LIMIT_MAX_ATTEMPTS)) by lia_limits.
  unfold mbind, M_bind, mret, M_ret, patchRateLimit.
  pose proof (db_first_Some _ _ _ _ Hl) as [Hget Hm].
  rewrite (db_patch_is_Some _ _ _ l Hget).
  eexists _, _. split; [done|]. split; [done|].
  unfold limiter_by_clientId. simpl.
  rewrite (limiter_clientId _ _ _ _ Hl).
  apply (db_first_patch _ _ _ l); [done|]. by apply bool_decide_eq_true.
Qed.

Lemma checkRateLimit_over now client db id l :
  limiter_by_clientId db client = Some (id, l) →
  (∀ until, blockedUntil l = Some until → until ≤ now) →
  blocked (checkRateLimit now client db) = false.
Proof.
  intros Hl Hover. unfold checkRateLimit. rewrite Hl.
  destruct (blockedUntil l) as [until|]; [|done].
  specialize (Hover until eq_refl).
  cbn [default]. rewrite (bool_decide_false (until > now)) by lia.
  by rewrite andb_false_r.
Qed.

(** X13: The block ends at [blockedUntil], and the count does not survive its
    window: for a client whose window is over and whose block, if it had
    one, has run out, a failed login is answered as a plain failure and
    leaves a fresh window that starts now with one attempt and no block; a
    login with the right credentials goes through. *)
Theorem a_window_that_is_over_starts_afresh
    now token arg_email arg_password client db id l :
  limiter_by_clientId db client = Some (id, l) →
  RATE_LIMIT_WINDOW_MS ≤ now - windowStart l →
  (∀ until, blockedUntil l = Some until → until ≤ now) →
  (credentials_ok db arg_email arg_password = false →
     (login now token arg_email arg_password client db).1
     = Return (LoginError (js "Invalid email or password.") None)
     ∧ limiter_by_clientId
         (login now token arg_email arg_password client db).2 client
       = Some (id, {| clientId := client; windowStart := now; attempts := 1;
                      blockedUntil := None |}))
  ∧ (credentials_ok db arg_email arg_password = true →
       ∃ user,
         (login now token arg_email arg_password client db).1
         = Return (LoginOk token user)).
Proof.
  intros Hl Hover Hblock.
  pose proof (checkRateLimit_over now client db id l Hl Hblock) as Hunblocked.
  split.
  - intros Hcred.
    destruct (recordFailedAttempt_window_over now client db id l Hl Hover)
      as (r & db' & Hrec & _ & Hl').
    by rewrite (login_failure _ token _ _ _ _ r db' Hunblocked Hcred Hrec).
  - intros Hcred.
    destruct (login_success now token arg_email arg_password client db
                Hunblocked Hcred) as (user & Hok & _).
    by exists user.
Qed.

(** X14: [verifyAdminPassword] counts on the limiter of [login], in the same
    way: a client the limiter blocks is refused before the password is
    looked at, with the store left as it is; a wrong password, or one
    given while no password is configured, leaves the store that a failed
    login at the same instant leaves. *)
Theorem admin_password_shares_the_limiter
    now token expected password client db :
  (blocked (checkRateLimit now client db) = true →
     verifyAdminPassword now token expected password client db
     = (Return (VerifyError (js "Too many attempts. Try again later.")
                  (retryAt (checkRateLimit now client db))), db))
  ∧ (blocked (checkRateLimit now client db) = false →
     ∀ message, requireAdminPassword expected password = Throw message →
       verifyAdminPassword now token expected password client db
       = (Return (VerifyError message None),
          (recordFailedAttempt now client db).2)).
Proof.
  unfold checkRateLimit, verifyAdminPassword, recordFailedAttempt.
  destruct (limiter_by_clientId db client) as [[id l]|] eqn:Hl.
  - destruct (number_truthy (blockedUntil l)
              && bool_decide (default 0 (blockedUntil l) > now)) eqn:Hb;
      cbn [blocked retryAt]; (split; [done || by intros _|]); [done|].
    intros _ message ->. unfold mbind, M_bind, mret, M_ret, patchRateLimit.
    pose proof (db_first_Some _ _ _ _ Hl) as [Hget _].
    by rewrite !(db_patch_is_Some _ _ _ l Hget).
  - cbn [number_truthy andb blocked retryAt]. split; [done|].
    by intros _ message ->.
Qed.

(** What passes [requireAdminPassword]: the configured password, when it
    is not empty. *)
Lemma requireAdminPassword_Return expected password :
  requireAdminPassword expected password = Return ()
  ↔ expected = Some password ∧ password ≠ [].
Proof.
  unfold requireAdminPassword. destruct expected as [e|]; [|naive_solver].
  destruct (str_falsy e) eqn:He.
  - apply str_falsy_true in He as ->. naive_solver.
  - apply str_falsy_false in He. case_bool_decide; naive_solver.
Qed.

(** X15: The configured admin password opens an admin session of 12 hours for a
    client the limiter does not block: with a token that no admin session
    carries yet, the answer names the token and its expiry, the counter of
    the client is at 0 with no block, and until the expiry, that instant
    included, [requireAdminSession] lets the token pass without touching
    the store and [validateAdminSession] confirms it; after it,
    [validateAdminSession] reports it expired. *)
Theorem admin_password_opens_a_session now token password client db :
  blocked (checkRateLimit now client db) = false →
  password ≠ [] →
  db_first (fun s => bool_decide (admin_token s = token)) (adminSessions db) = None →
  (verifyAdminPassword now token (Some password) password client db).1
  = Return (VerifyOk token (now + ADMIN_SESSION_TTL_MS)
              (length (adminSessions db)))
  ∧ (∃ id,
       limiter_by_clientId
         (verifyAdminPassword now token (Some password) password client db).2
         client
       = Some (id, {| clientId := client; windowStart := now; attempts := 0;
                      blockedUntil := None |}))
  ∧ ∀ later,
      (later ≤ now + ADMIN_SESSION_TTL_MS →
         requireAdminSession later token
           (verifyAdminPassword now token (Some password) password client db).2
         = (Return (),
            (verifyAdminPassword now token (Some password) password client db).2)
         ∧ validateAdminSession later token
             (verifyAdminPassword now token (Some password) password client db).2
           = ValidateOk (now + ADMIN_SESSION_TTL_MS))
      ∧ (now + ADMIN_SESSION_TTL_MS < later →
           validateAdminSession later token
             (verifyAdminPassword now token (Some password) password client db).2
           = ValidateError (js "Session expired.")).
Proof.
  intros Hunblocked Hpw Hfresh.
  assert (requireAdminPassword (Some password) password = Return ()) as Hreq.
  { by apply requireAdminPassword_Return. }
  set (session := {| admin_token := token; admin_createdAt := now;
                     admin_expiresAt := now + ADMIN_SESSION_TTL_MS |}).
  assert (∃ limits,
            verifyAdminPassword now token (Some password) password client db
            = (Return (VerifyOk token (now + ADMIN_SESSION_TTL_MS)
                         (length (adminSessions db))),
               with_adminSessions (with_adminRateLimits db limits)
                 (adminSessions db ++ [Some session]))
            ∧ ∃ id,
                db_first (fun l => bool_decide (clientId l = client)) limits
                = Some (id, {| clientId := client; windowStart := now;
                               attempts := 0; blockedUntil := None |}))
    as (limits & -> & Hlimits).
  { unfold verifyAdminPassword. rewrite Hreq.
    unfold checkRateLimit in Hunblocked.
    destruct (limiter_by_clientId db client) as [[id l]|] eqn:Hl.
    - destruct (number_truthy (blockedUntil l)
                && bool_decide (default 0 (blockedUntil l) > now)); [done|].
      unfold mbind, M_bind, mret, M_ret, patchRateLimit, insertAdminSession.
      pose proof (db_first_Some _ _ _ _ Hl) as [Hget _].
      rewrite (db_patch_is_Some _ _ _ l Hget). simpl.
      eexists. split; [done|]. exists id.
      rewrite (limiter_clientId _ _ _ _ Hl).
      apply (db_first_patch _ _ _ l); [done|]. by apply bool_decide_eq_true.
    - cbn [number_truthy andb].
      unfold mbind, M_bind, mret, M_ret, insertRateLimit, insertAdminSession.
      simpl. eexists. split; [done|]. exists (length (adminRateLimits db)).
      apply (db_first_insert _ (adminRateLimits db)); [done|].
      by apply bool_decide_eq_true. }
  cbn [fst snd]. split; [done|]. split; [done|].
  assert (db_first (fun s => bool_decide (admin_token s = token))
            (adminSessions db ++ [Some session])
          = Some (length (adminSessions db), session)) as Hfound.
  { apply (db_first_insert _ (adminSessions db)); [done|].
    by apply bool_decide_eq_true. }
  intros later.
  split; intros Hlater; unfold requireAdminSession, validateAdminSession;
    cbn [adminSessions with_adminSessions]; rewrite Hfound;
    cbn [admin_expiresAt session].
  - by rewrite bool_decide_false by lia.
  - by rewrite bool_decide_true by lia.
Qed.

(** [validateAdminSession] answers for [requireAdminSession] without
    writing: it confirms a token exactly when the gate lets it pass, and
    then the gate leaves the store as it is and the expiry it reports has
    not passed; it reports a token as not found, or as expired, exactly
    when the gate throws for that reason. *)
Lemma validateAdminSession_follows_the_gate now token db :
  match validateAdminSession now token db with
  | ValidateOk expiresAt =>
      requireAdminSession now token db = (Return (), db) ∧ now ≤ expiresAt
  | ValidateError error =>
      (error = js "Session not found."
       ∧ requireAdminSession now token db
         = (Throw (js "Admin session invalid. Sign in again."), db))
      ∨ (error = js "Session expired."
         ∧ (requireAdminSession now token db).1
           = Throw (js "Admin session expired. Sign in again."))
  end.
Proof.
  unfold validateAdminSession, requireAdminSession.
  destruct (db_first _ (adminSessions db)) as [[id session]|] eqn:Hs.
  - case_bool_decide as Hexp.
    + right. split; [done|].
      pose proof (db_first_Some _ _ _ _ Hs) as [Hget _].
      by rewrite (db_delete_is_Some _ _ _ Hget).
    + split; [done|]. lia.
  - by left.
Qed.

End LimiterMore.

(** ** Listings *)

Section Collect.
Context {A : Type}.
Implicit Types (t : table A) (matches : A → bool).

Lemma elem_of_db_collect_from matches t i id doc :
  (id, doc) ∈ db_collect_from matches t i
  ↔ ∃ k, id = (i + k)%nat ∧ db_get t k = Some doc ∧ matches doc = true.
Proof.
  revert i. induction t as [|d t IH]; intros i.
  - simpl. split; [by intros ?%elem_of_nil|]. intros (k & _ & Hget & _).
    unfold db_get in Hget. by rewrite lookup_nil in Hget.
  - assert ((id, doc) ∈ db_collect_from matches t (S i)
            ↔ ∃ k, id = (i + S k)%nat ∧ db_get t k = Some doc
                   ∧ matches doc = true) as IH'.
    { rewrite IH. split; intros (k & -> & ?); exists k; (split; [lia|done]). }
    destruct d as [d|]; simpl.
    + destruct (matches d) eqn:Hd.
      * rewrite elem_of_cons, IH'. split.
        -- intros [[= -> ->]|(k & -> & Hget & Hm)].
           ++ exists 0%nat. by rewrite Nat.add_0_r.
           ++ by exists (S k).
        -- intros ([|k] & -> & Hget & Hm).
           ++ left. rewrite Nat.add_0_r. by injection Hget as ->.
           ++ right. by exists k.
      * rewrite IH'. split.
        -- intros (k & -> & Hget & Hm). by exists (S k).
        -- intros ([|k] & -> & Hget & Hm).
           ++ injection Hget as ->. congruence.
           ++ by exists k.
    + rewrite IH'. split.
      * intros (k & -> & Hget & Hm). by exists (S k).
      * intros ([|k] & -> & Hget & Hm); [done|]. by exists k.
Qed.

Lemma elem_of_db_collect matches t id doc :
  (id, doc) ∈ db_collect matches t
  ↔ db_get t id = Some doc ∧ matches doc = true.
Proof.
  unfold db_collect. rewrite elem_of_db_collect_from. split.
  - by intros (k & -> & ?).
  - intros ?. by exists id.
Qed.

Lemma db_collect_from_app matches t t' i :
  db_collect_from matches (t ++ t') i
  = db_collect_from matches t i
    ++ db_collect_from matches t' (i + length t).
Proof.
  revert i. induction t as [|[d|] t IH]; intros i; simpl.
  - by rewrite Nat.add_0_r.
  - rewrite IH, Nat.add_succ_r. by destruct (matches d).
  - by rewrite IH, Nat.add_succ_r.
Qed.

Lemma db_collect_insert matches t doc :
  db_collect matches (t ++ [Some doc])
  = db_collect matches t ++ (if matches doc then [(length t, doc)] else []).
Proof.
  unfold db_collect. rewrite db_collect_from_app. simpl. by destruct (matches doc).
Qed.

End Collect.

Lemma elem_of_listPublicTests db id t :
  (id, t) ∈ listPublicTests db ↔ getTest id db = Some t ∧ status t = Some approved.
Proof.
  unfold listPublicTests. rewrite elem_of_reverse, elem_of_db_collect.
  by rewrite bool_decide_eq_true.
Qed.

Lemma public_test_listed db id :
  public_test id db ↔ ∃ t, (id, t) ∈ listPublicTests db.
Proof. unfold public_test. by setoid_rewrite elem_of_listPublicTests. Qed.

(** ** What makes a test public *)

Section Publishes.
Context (ids : Id → Prop).

Lemma publishes_only_ret {A} (a : A) : publishes_only ids (mret a).
Proof. intros db id Hp. by left. Qed.

Lemma publishes_only_throw {A} msg : publishes_only ids (@throw A msg).
Proof. intros db id Hp. by left. Qed.

Lemma publishes_only_query {A} (q : Store → outcome A) : publishes_only ids (query q).
Proof. intros db id Hp. by left. Qed.

Lemma publishes_only_readTest id : publishes_only ids (readTest id).
Proof. intros db id' Hp. by left. Qed.

Lemma publishes_only_bind {A B} (m : M A) (f : A → M B) :
  publishes_only ids m → (∀ a, publishes_only ids (f a)) →
  publishes_only ids (m ≫= f).
Proof.
  intros Hm Hf db id. unfold mbind, M_bind.
  destruct (m db) as [[a|e] db1] eqn:Hrun.
  - intros [Hp|Hp]%Hf; [|by right]. apply Hm. by rewrite Hrun.
  - intros Hp. apply Hm. by rewrite Hrun.
Qed.

Lemma publishes_only_patchTest id (f : Test → Test) :
  (ids id ∨ ∀ t, status (f t) = Some approved → status t = Some approved) →
  publishes_only ids (patchTest id f).
Proof.
  intros Hf db id' (t' & Hget' & Hst'). unfold patchTest in Hget'.
  destruct (db_get (tests db) id) as [t|] eqn:Hget.
  - rewrite (db_patch_is_Some _ _ _ t Hget) in Hget'. cbn [snd] in Hget'.
    destruct (decide (id = id')) as [<-|Hne].
    + rewrite (getTest_with_tests_eq _ _ t) in Hget' by done.
      injection Hget' as <-. destruct Hf as [Hid|Hf]; [by right|].
      left. exists t. split; [done|]. by apply Hf.
    + rewrite getTest_with_tests_ne in Hget' by done. left. by exists t'.
  - rewrite (db_patch_None _ _ _ Hget) in Hget'. left. by exists t'.
Qed.

Lemma publishes_only_insertTest doc :
  status doc ≠ Some approved → publishes_only ids (insertTest doc).
Proof.
  intros Hdoc db id (t' & Hget' & Hst'). left. exists t'. split; [|done].
  unfold insertTest, db_insert, getTest, db_get in *. cbn in Hget'.
  destruct (decide (id < length (tests db))%nat) as [Hlt|Hge].
  - by rewrite lookup_app_l in Hget'.
  - rewrite lookup_app_r in Hget' by lia.
    destruct (id - length (tests db))%nat; [|done].
    injection Hget' as <-. done.
Qed.

End Publishes.

Ltac publishes_only_step :=
  match goal with
  | |- publishes_only _ (_ ≫= _) => apply publishes_only_bind; [|intros ?]
  | |- publishes_only _ (patchTest _ _) =>
      apply publishes_only_patchTest; first [by left | by right]
  | |- publishes_only _ (match ?o with _ => _ end) => destruct o
  | |- publishes_only _ (if ?b then _ else _) => destruct b
  | |- publishes_only _ (mret _) => by apply publishes_only_ret
  | |- publishes_only _ (throw _) => by apply publishes_only_throw
  | |- publishes_only _ (query _) => by apply publishes_only_query
  | |- publishes_only _ (readTest _) => by apply publishes_only_readTest
  | |- publishes_only _ (insertTest _) => by apply publishes_only_insertTest
  end.

Lemma moderation_step_publishes (c : ModerationCall) :
  publishes_only (approval_of [c]) (moderation_step c).
Proof.
  destruct c; simpl; unfold_handlers; repeat publishes_only_step.
  apply publishes_only_patchTest. left. exists now, token.
  by apply list_elem_of_singleton.
Qed.

(** X16: Only an approval makes a test public: whatever moderation calls run, a
    test that [listPublicTests] lists afterwards was listed before them, or
    one of the calls is [approveTest] on that test. *)
Theorem only_an_approval_publishes (calls : list ModerationCall) db id t' :
  (id, t') ∈ listPublicTests (moderation_run calls db) →
  (∃ t, (id, t) ∈ listPublicTests db) ∨ approval_of calls id.
Proof.
  intros Hlisted. assert (public_test id (moderation_run calls db)) as Hp.
  { apply public_test_listed. by exists t'. }
  clear Hlisted. rewrite <- public_test_listed.
  revert db Hp. induction calls as [|c calls IH]; intros db Hp; simpl in *.
  - by left.
  - destruct (IH _ Hp) as [Hp'|(now & token & Hin)].
    + destruct (moderation_step_publishes c db id Hp')
        as [?|(now & token & Hin)]; [by left|].
      right. exists now, token. apply list_elem_of_singleton in Hin as <-.
      by left.
    + right. exists now, token. by right.
Qed.

Lemma moderation_step_keeps_stamp (c : ModerationCall) :
  keeps_all_tests approval_stamped (moderation_step c).
Proof.
  destruct c; simpl; unfold_handlers; repeat keeps_all_step.
Qed.
(** A test that [listPublicTests] lists says who approved it and when:
    the moderation calls keep that true of a store of which it is true. *)
Lemma approved_tests_carry_their_approval (calls : list ModerationCall) db :
  all_tests approval_stamped db →
  ∀ id t,
    (id, t) ∈ listPublicTests (moderation_run calls db) →
    is_Some (approvedBy t) ∧ is_Some (approvedAt t).
Proof.
  intros Hall id t [Hget Hst]%elem_of_listPublicTests.
  assert (all_tests approval_stamped (moderation_run calls db)) as Hall'.
  { clear id t Hget Hst. revert db Hall.
    induction calls as [|c calls IH]; intros db Hall; simpl; [done|].
    apply IH. by apply moderation_step_keeps_stamp. }
  by apply (Hall' id t).
Qed.

(** ** The listings of a user *)

Lemma requireUserSession_same_user now later token db userId admin userId' admin' :
  requireUserSession now token db = Return (userId, admin) →
  requireUserSession later token db = Return (userId', admin') →
  userId' = userId ∧ admin' = admin.
Proof.
  unfold requireUserSession.
  destruct (session_by_token db token) as [[sid session]|]; [|done].
  destruct (bool_decide (session_expiresAt session < now)); [done|].
  destruct (bool_decide (session_expiresAt session < later)); [done|].
  destruct (db_get (users db) (session_userId session)) as [user|]; [|done].
  by intros [= <- <-] [= <- <-].
Qed.

(** X17: A test a user creates is pending, theirs, and the first of
    [listMyTests] from then on, before the tests it listed; the public
    listing is the one it was. *)
Theorem created_test_heads_my_list now later token args db userId admin mine :
  requireUserSession now token db = Return (userId, admin) →
  youExists (arg_board args) (arg_youId args) = true →
  listMyTests later token db = Return mine →
  ∃ test,
    (createUserTest now token args db).1 = Return (Some test)
    ∧ content_of test = args
    ∧ status test = Some pending ∧ ownerId test = Some userId
    ∧ listMyTests later token (createUserTest now token args db).2
      = Return ((length (tests db), test) :: mine)
    ∧ listPublicTests (createUserTest now token args db).2 = listPublicTests db.
Proof.
  intros Hgate Hyou Hmine. unfold createUserTest. unfold_M.
  rewrite Hgate, Hyou. cbn [negb]. unfold insertTest, db_insert. cbn [fst snd].
  unfold getTest, db_get. cbn [tests with_tests].
  rewrite lookup_app_r, Nat.sub_diag by done.
  cbn [lookup list_lookup mjoin option_join option_ret].
  eexists. split; [done|]. split; [by destruct args|]. split; [done|].
  split; [done|]. split.
  - unfold listMyTests in *. cbn [users userSessions with_tests].
    assert (requireUserSession later token
              (with_tests db (tests db ++ [Some _]))
            = requireUserSession later token db) as ->; [done|].
    destruct (requireUserSession later token db) as [[userId' admin']|] eqn:Hlater;
      [|done].
    destruct (requireUserSession_same_user _ _ _ _ _ _ _ _ Hgate Hlater) as [-> ->].
    injection Hmine as <-. cbn [tests with_tests]. rewrite db_collect_insert.
    cbn [ownerId]. rewrite bool_decide_true by done.
    by rewrite reverse_app.
  - unfold listPublicTests. cbn [tests with_tests]. rewrite db_collect_insert.
    cbn [status]. rewrite bool_decide_false by done. by rewrite app_nil_r.
Qed.

(** [listUserTestRuns] answers with runs of the caller that are in the
    store, at most [limit] of them, and at most 50 when no limit is
    given. *)
Lemma listUserTestRuns_lists_own_runs now token limit db runs :
  listUserTestRuns now token limit db = Return runs →
  (length runs ≤ default 50%nat limit)%nat
  ∧ ∃ userId admin,
      requireUserSession now token db = Return (userId, admin)
      ∧ ∀ id run, (id, run) ∈ runs →
          getTestRun id db = Some run ∧ run_userId run = userId.
Proof.
  unfold listUserTestRuns.
  destruct (requireUserSession now token db) as [[userId admin]|]; [|done].
  intros [= <-]. split; [rewrite length_take; lia|].
  exists userId, admin. split; [done|]. intros id run Hin.
  apply elem_of_take in Hin as (i & Hin & _).
  apply list_elem_of_lookup_2 in Hin.
  apply elem_of_reverse, elem_of_db_collect in Hin as [Hget Hm].
  by apply bool_decide_eq_true in Hm.
Qed.

(** X18: The run a user starts is the first of their runs from then on, before
    the runs listed until then, as long as the limit asks for one run at
    least. *)
Theorem started_run_heads_my_runs
    now later token testId url limit db userId admin test runs :
  requireUserSession now token db = Return (userId, admin) →
  getTest testId db = Some test →
  listUserTestRuns later token limit db = Return runs →
  (0 < default 50%nat limit)%nat →
  ∃ run,
    getTestRun (length (testRuns db)) (startTestRun now token testId url db).2
    = Some run
    ∧ run_status run = running ∧ botUrl run = url
    ∧ listUserTestRuns later token limit (startTestRun now token testId url db).2
      = Return ((length (testRuns db), run)
                :: take (default 50%nat limit - 1)%nat runs).
Proof.
  intros Hgate Htest Hruns Hlimit. unfold startTestRun. unfold_M.
  rewrite Hgate, Htest. unfold insertTestRun, db_insert. cbn [fst snd].
  unfold getTestRun, db_get. cbn [testRuns with_testRuns].
  rewrite lookup_app_r, Nat.sub_diag by done.
  cbn [lookup list_lookup mjoin option_join option_ret].
  eexists. split; [done|]. split; [done|]. split; [done|].
  unfold listUserTestRuns in *.
  assert (requireUserSession later token
            (with_testRuns db (testRuns db ++ [Some _]))
          = requireUserSession later token db) as ->; [done|].
  destruct (requireUserSession later token db) as [[userId' admin']|] eqn:Hlater;
    [|done].
  destruct (requireUserSession_same_user _ _ _ _ _ _ _ _ Hgate Hlater) as [-> ->].
  injection Hruns as <-. cbn [testRuns with_testRuns]. rewrite db_collect_insert.
  cbn [run_userId]. rewrite bool_decide_true by done. rewrite reverse_app.
  destruct (default 50%nat limit) as [|n]; [lia|]. cbn [reverse rev_append app take].
  f_equal. f_equal. rewrite take_take. f_equal. lia.
Qed.

(** ** Running a test with and without a run record *)

Section RunTest.
Context `{Runtime}.
Implicit Types (env : Env) (db : Store) (runId : Id).

(** X19: [runTest] and [executeTestRun] are the same exchange: for a run that is
    running, the execution makes the calls that [runTest] makes for the
    test and the URL of the run, answers with the move and the shout that
    [runTest] answers with when it succeeds, and with the error of
    [runTest] when it fails. *)
Theorem runTest_agrees_with_executeTestRun env runId db run :
  getTestRun runId db = Some run → run_status run = running →
  calls_of (executeTestRun env runId db)
  = (runTest env (run_testId run) (botUrl run) db).2
  ∧ match (runTest env (run_testId run) (botUrl run) db).1 with
    | RunTestOk move shout _ _ =>
        ∃ passed responseTimeMs,
          answer_of (executeTestRun env runId db)
          = Return (ExecOk move shout passed responseTimeMs)
    | RunTestError error _ _ =>
        answer_of (executeTestRun env runId db) = Return (ExecError error)
    end.
Proof.
  intros Hrun Hst. unfold executeTestRun, runTest.
  rewrite Hrun, bool_decide_true by done. cbn [negb].
  destruct (getTest (run_testId run) db) as [test|].
  2: { by rewrite (record_result_existing _ _ _ _ _ _ run Hrun). }
  destruct (List.find _ _) as [you|].
  2: { by rewrite (record_result_existing _ _ _ _ _ _ run Hrun). }
  destruct (endpoint_of (botUrl run)) as [endpoint|].
  2: { by rewrite (record_result_existing _ _ _ _ _ _ run Hrun). }
  cbv zeta. destruct (fetch env _ _) as [e|http_status [e|text]].
  { by rewrite (record_caught_existing _ _ _ _ _ run Hrun). }
  { by rewrite (record_caught_existing _ _ _ _ _ run Hrun). }
  destruct (if str_falsy text then _ else _) as [data|].
  - destruct (response_ok http_status); cbn [negb];
      rewrite (record_result_try_existing _ _ _ _ _ _ run Hrun);
      [|done]. split; [done|]. by eexists _, _.
  - by rewrite (record_result_try_existing _ _ _ _ _ _ run Hrun).
Qed.

End RunTest.

(** ** The handlers behind the admin password *)

Lemma requireAdminSession_store now token db :
  (requireAdminSession now token db).2 = db.
Proof.
  unfold requireAdminSession.
  destruct (db_first _ (adminSessions db)) as [[id session]|]; [|done].
  destruct (bool_decide (admin_expiresAt session < now)); [|done].
  by destruct (db_delete (adminSessions db) id).
Qed.

(** Without an admin session the handlers behind the admin password throw
    what the gate throws and leave the store as it is; with one, a [youId]
    that names no snake of the board is refused by [createTest] and
    [updateTest] with the store left as it is. *)
Lemma legacy_calls_need_an_admin_session now adminToken id args db :
  (∀ e, (requireAdminSession now adminToken db).1 = Throw e →
     createTest now adminToken args db = (Throw e, db)
     ∧ updateTest now adminToken id args db = (Throw e, db)
     ∧ deleteTest now adminToken id db = (Throw e, db))
  ∧ (requireAdminSession now adminToken db = (Return (), db) →
     youExists (arg_board args) (arg_youId args) = false →
     createTest now adminToken args db
     = (Throw (js "youId must match a snake in the board."), db)
     ∧ updateTest now adminToken id args db
       = (Throw (js "youId must match a snake in the board."), db)).
Proof.
  split.
  - intros e Hgate.
    pose proof (requireAdminSession_store now adminToken db) as Hstore.
    unfold createTest, updateTest, deleteTest. unfold_M.
    destruct (requireAdminSession now adminToken db) as [[[]|e'] db'];
      [done|]. cbn [fst snd] in *. injection Hgate as ->. by subst db'.
  - intros Hgate Hyou. unfold createTest, updateTest. unfold_M.
    by rewrite Hgate, Hyou.
Qed.

(** X20: A test made by [createTest] has neither an owner nor a status: it is
    not in the public listing, and no session can edit it through
    [updateUserTest] or resubmit it, which both throw and change nothing. *)
Theorem legacy_tests_have_no_owner now adminToken args db :
  requireAdminSession now adminToken db = (Return (), db) →
  youExists (arg_board args) (arg_youId args) = true →
  ∃ test,
    createTest now adminToken args db
    = (Return (Some test), with_tests db (tests db ++ [Some test]))
    ∧ getTest (length (tests db)) (createTest now adminToken args db).2
      = Some test
    ∧ content_of test = args ∧ ownerId test = None ∧ status test = None
    ∧ listPublicTests (createTest now adminToken args db).2 = listPublicTests db
    ∧ ∀ later token args',
        (∃ e, updateUserTest later token (length (tests db)) args'
                (createTest now adminToken args db).2
              = (Throw e, (createTest now adminToken args db).2))
        ∧ (∃ e, resubmitTest later token (length (tests db))
                  (createTest now adminToken args db).2
                = (Throw e, (createTest now adminToken args db).2)).
Proof.
  intros Hgate Hyou. unfold createTest. unfold_M. rewrite Hgate, Hyou.
  cbn [negb]. unfold insertTest, db_insert. cbn [fst snd].
  set (test := {| name := arg_name args; description := arg_description args;
                  board := arg_board args; game := arg_game args;
                  turn := arg_turn args; youId := arg_youId args;
                  expectedSafeMoves := arg_expectedSafeMoves args;
                  createdAt := now; ownerId := None; status := None;
                  approvedBy := None; approvedAt := None;
                  rejectionReason := None; permaRejected := None |}).
  assert (getTest (length (tests db)) (with_tests db (tests db ++ [Some test]))
          = Some test) as Hget.
  { unfold getTest, db_get. cbn [tests with_tests].
    by rewrite lookup_app_r, Nat.sub_diag. }
  rewrite Hget. exists test. split; [done|]. split; [done|].
  split; [by destruct args|]. split; [done|]. split; [done|]. split.
  - unfold listPublicTests. cbn [tests with_tests]. rewrite db_collect_insert.
    cbn [status test]. rewrite bool_decide_false by done. by rewrite app_nil_r.
  - intros later token args'. unfold updateUserTest, resubmitTest. unfold_M.
    destruct (requireUserSession later token _) as [[userId admin]|e];
      [|split; by eexists].
    rewrite Hget. cbn [ownerId test]. rewrite bool_decide_false by done.
    split; by eexists.
Qed.

(** [updateTest] edits the content only, as [adminUpdateTest] does: owner,
    status, approval and rejection stay, so a public test stays public
    with its new content. *)
Lemma legacy_update_edits_content_only now adminToken id args db test :
  requireAdminSession now adminToken db = (Return (), db) →
  getTest id db = Some test →
  youExists (arg_board args) (arg_youId args) = true →
  ∃ test',
    updateTest now adminToken id args db
    = (Return (Some test'), with_tests db (<[id := Some test']> (tests db)))
    ∧ content_of test' = args
    ∧ ownerId test' = ownerId test ∧ createdAt test' = createdAt test
    ∧ status test' = status test
    ∧ approvedBy test' = approvedBy test ∧ approvedAt test' = approvedAt test
    ∧ rejectionReason test' = rejectionReason test
    ∧ permaRejected test' = permaRejected test
    ∧ ((id, test) ∈ listPublicTests db →
       (id, test') ∈ listPublicTests (updateTest now adminToken id args db).2).
Proof.
  intros Hgate Hget Hyou. unfold updateTest. unfold_M. rewrite Hgate, Hyou.
  cbn [negb]. rewrite (getTest_patched _ _ _ test Hget). cbn [fst snd].
  rewrite (getTest_with_tests_eq _ _ test) by done.
  eexists. split; [done|]. split; [by destruct args|].
  do 7 (split; [done|]).
  intros [_ Hst]%elem_of_listPublicTests. apply elem_of_listPublicTests.
  by rewrite (getTest_with_tests_eq _ _ test).
Qed.


(** ** Collections *)

Section DeleteEach.
Context {A : Type}.
Implicit Types (t : table A) (matches : A → bool).

Lemma db_collect_from_fst_ge matches t i id :
  id ∈ (db_collect_from matches t i).*1 → (i ≤ id)%nat.
Proof.
  intros ((id' & doc) & -> & Hin)%list_elem_of_fmap.
  apply elem_of_db_collect_from in Hin as (k & -> & _). simpl. lia.
Qed.

Lemma NoDup_db_collect_from matches t i :
  NoDup (db_collect_from matches t i).*1.
Proof.
  revert i. induction t as [|[d|] t IH]; intros i; simpl.
  - constructor.
  - destruct (matches d); [|apply IH]. simpl. constructor; [|apply IH].
    intros Hin%db_collect_from_fst_ge. lia.
  - apply IH.
Qed.

Lemma delete_each_spec (ids : list Id) t :
  NoDup ids → (∀ id, id ∈ ids → is_Some (db_get t id)) →
  ∃ t',
    delete_each ids t = (Return (), t')
    ∧ length t' = length t
    ∧ ∀ i, db_get t' i = if decide (i ∈ ids) then None else db_get t i.
Proof.
  revert t. induction ids as [|id ids IH]; intros t Hnd Hall; simpl.
  - exists t. split; [done|]. split; [done|]. intros i.
    destruct (decide (i ∈ [])) as [Hin|_]; [|done]. by apply elem_of_nil in Hin.
  - apply NoDup_cons in Hnd as [Hnotin Hnd].
    destruct (Hall id) as [doc Hdoc]; [by left|].
    rewrite (db_delete_is_Some _ _ _ Hdoc).
    destruct (IH (<[id := None]> t) Hnd) as (t' & -> & Hlen & Hget).
    { intros id' Hin. unfold db_get. rewrite list_lookup_insert_ne.
      - apply Hall. by right.
      - intros ->. done. }
    exists t'. split; [done|]. split; [by rewrite Hlen, length_insert|].
    intros i. rewrite Hget. destruct (decide (i = id)) as [->|Hne].
    + rewrite decide_False by done. rewrite decide_True by by left.
      unfold db_get. rewrite list_lookup_insert_eq; [done|].
      by eapply db_get_Some_lt.
    + destruct (decide (i ∈ ids)) as [Hin|Hnin].
      * rewrite decide_True; [done|by right].
      * rewrite decide_False.
        -- unfold db_get. by rewrite list_lookup_insert_ne.
        -- intros [->|?]%elem_of_cons; done.
Qed.

(** Deleting the rows a key selects leaves the other rows. *)
Lemma delete_each_collect matches t :
  ∃ t',
    delete_each (db_collect matches t).*1 t = (Return (), t')
    ∧ length t' = length t
    ∧ ∀ i, db_get t' i
           = match db_get t i with
             | Some doc => if matches doc then None else Some doc
             | None => None
             end.
Proof.
  destruct (delete_each_spec (db_collect matches t).*1 t) as (t' & Hrun & Hlen & Hget).
  - apply NoDup_db_collect_from.
  - intros id ((id' & doc) & -> & Hin)%list_elem_of_fmap.
    apply elem_of_db_collect in Hin as [Hdoc _]. by exists doc.
  - exists t'. split; [done|]. split; [done|]. intros i. rewrite Hget.
    destruct (db_get t i) as [doc|] eqn:Hdoc.
    + destruct (matches doc) eqn:Hm.
      * rewrite decide_True; [done|]. apply list_elem_of_fmap.
        exists (i, doc). split; [done|]. by apply elem_of_db_collect.
      * rewrite decide_False; [done|].
        intros ((id' & doc') & Hid & Hin)%list_elem_of_fmap. simpl in Hid. subst id'.
        apply elem_of_db_collect in Hin as [Hdoc' Hm']. congruence.
    + by destruct (decide _).
Qed.

End DeleteEach.

Lemma own_collection_owner now token id message lib userId collection :
  own_collection now token id message lib = Return (userId, collection) →
  (∃ admin, requireUserSession now token (lib_store lib) = Return (userId, admin))
  ∧ db_get (collections lib) id = Some collection
  ∧ col_ownerId collection = userId.
Proof.
  unfold own_collection.
  destruct (requireUserSession now token (lib_store lib)) as [[u admin]|]; [|done].
  destruct (db_get (collections lib) id) as [c|]; [|done].
  case_bool_decide; [|done]. cbn [negb]. intros [= <- <-].
  split; [by exists admin|done].
Qed.

Lemma own_collection_stranger now token id message lib userId admin collection :
  requireUserSession now token (lib_store lib) = Return (userId, admin) →
  db_get (collections lib) id = Some collection →
  col_ownerId collection ≠ userId →
  own_collection now token id message lib = Throw (js message).
Proof.
  intros Hgate Hget Hown. unfold own_collection. rewrite Hgate, Hget.
  by rewrite bool_decide_false.
Qed.

(** X22: A collection is its owner's alone, also before an admin: whoever else
    tries to edit it, delete it, change its slug, add a test to it, remove
    one from it or see its tests is refused, and the library stays as it
    is; nor does [listCollections] show it to them. *)
Theorem collections_belong_to_their_owner
    now draw token id name description public testId lib userId admin collection :
  requireUserSession now token (lib_store lib) = Return (userId, admin) →
  db_get (collections lib) id = Some collection →
  col_ownerId collection ≠ userId →
  updateCollection now token id name description public lib
  = (Throw (js "You don't have permission to edit this collection."), lib)
  ∧ deleteCollection now token id lib
    = (Throw (js "You don't have permission to delete this collection."), lib)
  ∧ regenerateShareSlug now draw token id lib
    = (Throw (js "You don't have permission to modify this collection."), lib)
  ∧ addTestToCollection now token id testId lib
    = (Throw (js "You don't have permission to modify this collection."), lib)
  ∧ removeTestFromCollection now token id testId lib
    = (Throw (js "You don't have permission to modify this collection."), lib)
  ∧ getCollectionTests now token id lib
    = Throw (js "You don't have permission to view this collection.")
  ∧ ∃ mine, listCollections now token lib = Return mine
            ∧ (id, collection) ∉ mine.
Proof.
  intros Hgate Hget Hown.
  unfold updateCollection, deleteCollection, regenerateShareSlug,
    addTestToCollection, removeTestFromCollection, getCollectionTests.
  rewrite !(own_collection_stranger _ _ _ _ _ _ _ _ Hgate Hget Hown).
  do 6 (split; [done|]). unfold listCollections. rewrite Hgate.
  eexists. split; [done|].
  intros [_ Hm]%elem_of_reverse%elem_of_db_collect.
  by apply bool_decide_eq_true in Hm.
Qed.
(** *** Memberships stay consistent *)

Lemma db_patch_keeps {A} (t t' : table A) id f i :
  db_patch t id f = Some t' → is_Some (db_get t i) → is_Some (db_get t' i).
Proof.
  intros Hpatch Hi. destruct (decide (id = i)) as [<-|Hne].
  - destruct Hi as [doc Hdoc].
    rewrite (db_get_patch_eq _ _ _ _ _ Hdoc Hpatch). by eexists.
  - by rewrite (db_get_patch_ne _ _ _ _ _ Hne Hpatch).
Qed.

Lemma db_get_app_old {A} (t : table A) doc i :
  is_Some (db_get t i) → db_get (t ++ [Some doc]) i = db_get t i.
Proof.
  intros [d Hd]. unfold db_get. rewrite lookup_app_l; [done|].
  by eapply db_get_Some_lt.
Qed.

Lemma moderation_step_keeps_every_test (c : ModerationCall) db id :
  is_Some (getTest id db) → is_Some (getTest id (moderation_step c db).2).
Proof.
  set (R := λ _ _ : Test, True).
  assert (∀ t, R t t) as Hrefl by done.
  assert (∀ t1 t2 t3, R t1 t2 → R t2 t3 → R t1 t3) as Htrans by done.
  assert (keeps_tests R (moderation_step c)) as Hstep.
  { destruct c; simpl; unfold_handlers; repeat keeps_tests_step. }
  intros [t Ht]. destruct (Hstep db id t Ht) as (t' & Ht' & _). by exists t'.
Qed.

Lemma members_shrink lib lib' :
  members_unique lib → members_resolve lib →
  (∀ i row,
     db_get (collectionTests lib') i = Some row →
     db_get (collectionTests lib) i = Some row
     ∧ (is_Some (db_get (collections lib) (collectionId row)) →
        is_Some (db_get (collections lib') (collectionId row)))
     ∧ (is_Some (getTest (ct_testId row) (lib_store lib)) →
        is_Some (getTest (ct_testId row) (lib_store lib')))) →
  members_unique lib' ∧ members_resolve lib'.
Proof.
  intros Hu Hr Hsub. split.
  - intros i j row row' Hi Hj. apply (Hu i j row row'); by apply Hsub.
  - intros i row Hi. destruct (Hsub i row Hi) as (Hold & Hc & Ht).
    destruct (Hr i row Hold) as [Hc' Ht']. split; [by apply Hc|by apply Ht].
Qed.

Lemma library_step_consistent (c : LibraryCall) lib :
  members_unique lib → members_resolve lib →
  members_unique (library_step c lib) ∧ members_resolve (library_step c lib).
Proof.
  intros Hu Hr.
  assert (members_unique lib ∧ members_resolve lib) as Hsame by done.
  destruct c; simpl.
  - (* createCollection *)
    unfold createCollection.
    destruct (requireUserSession now token (lib_store lib)) as [[userId admin]|];
      [|done].
    apply (members_shrink lib); [done..|]. intros i row Hi. cbn in *.
    split; [done|]. split; [|done]. intros Hc. by rewrite db_get_app_old.
  - (* updateCollection *)
    unfold updateCollection. destruct (own_collection _ _ _ _ _); [|done].
    destruct (db_patch _ _ _) as [t'|] eqn:Hpatch; [|done].
    apply (members_shrink lib); [done..|]. intros i row Hi. cbn in *.
    split; [done|]. split; [|done]. by apply (db_patch_keeps _ _ _ _ _ Hpatch).
  - (* deleteCollection *)
    unfold deleteCollection. destruct (own_collection _ _ _ _ _); [|done].
    unfold rows_of_collection.
    destruct (delete_each_collect
                (fun ct => bool_decide (collectionId ct = id))
                (collectionTests lib)) as (rows' & -> & _ & Hrows).
    assert (∀ i row, db_get rows' i = Some row →
              db_get (collectionTests lib) i = Some row ∧ collectionId row ≠ id)
      as Hkept.
    { intros i row. rewrite Hrows.
      destruct (db_get (collectionTests lib) i) as [r|]; [|done].
      case_bool_decide; [done|]. by intros [= <-]. }
    destruct (db_delete (collections lib) id) as [t'|] eqn:Hdel; cbn [snd].
    + apply (members_shrink lib); [done..|]. intros i row Hi. cbn in *.
      destruct (Hkept i row Hi) as [Hold Hne]. split; [done|]. split; [|done].
      by rewrite (db_get_delete_ne _ _ _ _ (not_eq_sym Hne) Hdel).
    + done.
  - (* regenerateShareSlug *)
    unfold regenerateShareSlug. destruct (own_collection _ _ _ _ _); [|done].
    destruct (db_patch _ _ _) as [t'|] eqn:Hpatch; [|done].
    apply (members_shrink lib); [done..|]. intros i row Hi. cbn in *.
    split; [done|]. split; [|done]. by apply (db_patch_keeps _ _ _ _ _ Hpatch).
  - (* addTestToCollection *)
    unfold addTestToCollection.
    destruct (own_collection _ _ _ _ _) as [[userId collection]|] eqn:Hown;
      [|done].
    apply own_collection_owner in Hown as (_ & Hcol & _).
    destruct (getTest testId (lib_store lib)) as [test|] eqn:Htest; [|done].
    destruct (negb _ && negb _); [done|].
    destruct (member_row lib id testId) as [[]|] eqn:Hmember; [done|].
    unfold db_insert. cbn [snd]. unfold member_row in Hmember.
    assert (∀ i row, db_get (collectionTests lib) i = Some row →
              ¬ (collectionId row = id ∧ ct_testId row = testId)) as Hfresh.
    { intros i row Hi [Hc Ht].
      pose proof (proj1 (db_first_None _ _) Hmember i row Hi) as Hm.
      cbv beta in Hm. by rewrite !bool_decide_true in Hm by done. }
    assert (∀ i row,
              db_get (collectionTests lib
                      ++ [Some {| collectionId := id; ct_testId := testId;
                                  addedAt := now |}]) i = Some row →
              db_get (collectionTests lib) i = Some row
              ∨ (i = length (collectionTests lib)
                 ∧ row = {| collectionId := id; ct_testId := testId;
                            addedAt := now |})) as Hcases.
    { intros i row. unfold db_get.
      destruct (decide (i < length (collectionTests lib))%nat) as [Hlt|Hge].
      - rewrite lookup_app_l by done. by left.
      - rewrite lookup_app_r by lia.
        destruct (i - length (collectionTests lib))%nat eqn:Hd; [|done].
        intros [= <-]. right. split; [lia|done]. }
    split.
    + intros i j row row' Hi Hj Hc Ht. cbn in *.
      destruct (Hcases i row Hi) as [Hi'|[-> ->]];
        destruct (Hcases j row' Hj) as [Hj'|[-> ->]]; cbn in *.
      * by apply (Hu i j row row').
      * by destruct (Hfresh i row Hi').
      * by destruct (Hfresh j row' Hj').
      * done.
    + intros i row Hi. cbn in *.
      destruct (Hcases i row Hi) as [Hi'|[-> ->]]; [by apply (Hr i)|].
      cbn. split; by eexists.
  - (* removeTestFromCollection *)
    unfold removeTestFromCollection. destruct (own_collection _ _ _ _ _); [|done].
    destruct (member_row lib id testId) as [[rowId r]|]; [|done].
    destruct (db_delete (collectionTests lib) rowId) as [rows'|] eqn:Hdel; [|done].
    apply (members_shrink lib); [done..|]. intros i row Hi. cbn in *.
    split; [|done]. destruct (decide (rowId = i)) as [<-|Hne].
    + by rewrite (db_get_delete_eq _ _ _ Hdel) in Hi.
    + by rewrite (db_get_delete_ne _ _ _ _ Hne Hdel) in Hi.
  - (* deleteUserTest *)
    unfold deleteUserTest.
    destruct (requireUserSession now token (lib_store lib)) as [[userId admin]|];
      [|done].
    destruct (getTest id (lib_store lib)) as [test|] eqn:Htest; [|done].
    destruct (negb _ && negb _); [done|].
    unfold rows_of_test.
    destruct (delete_each_collect
                (fun ct => bool_decide (ct_testId ct = id))
                (collectionTests lib)) as (rows' & -> & _ & Hrows).
    assert (∀ i row, db_get rows' i = Some row →
              db_get (collectionTests lib) i = Some row ∧ ct_testId row ≠ id)
      as Hkept.
    { intros i row. rewrite Hrows.
      destruct (db_get (collectionTests lib) i) as [r|]; [|done].
      case_bool_decide; [done|]. by intros [= <-]. }
    unfold deleteTestDoc.
    destruct (db_delete (tests (lib_store lib)) id) as [t'|] eqn:Hdel; cbn [snd].
    + apply (members_shrink lib); [done..|]. intros i row Hi. cbn in *.
      destruct (Hkept i row Hi) as [Hold Hne]. split; [done|]. split; [done|].
      unfold getTest. cbn.
      by rewrite (db_get_delete_ne _ _ _ _ (not_eq_sym Hne) Hdel).
    + done.
  - (* a moderation call *)
    apply (members_shrink lib); [done..|]. intros i row Hi. cbn in *.
    split; [done|]. split; [done|]. apply moderation_step_keeps_every_test.
Qed.

(** X23: The memberships stay consistent: whatever calls run on the library
    (on collections, [deleteUserTest], moderation), no test is twice in a
    collection, and every membership names a collection and a test that
    exist, provided that was so before. *)
Theorem memberships_stay_consistent (calls : list LibraryCall) lib :
  members_unique lib → members_resolve lib →
  members_unique (library_run calls lib) ∧ members_resolve (library_run calls lib).
Proof.
  revert lib. induction calls as [|c calls IH]; intros lib Hu Hr; simpl; [done|].
  destruct (library_step_consistent c lib Hu Hr) as [Hu' Hr']. by apply IH.
Qed.
(** *** Deleting *)

Lemma db_collect_from_nil {A} (matches : A → bool) (t : table A) i :
  (∀ k doc, db_get t k = Some doc → matches doc = false) →
  db_collect_from matches t i = [].
Proof.
  intros Hnone. destruct (db_collect_from matches t i) as [|[id doc] l] eqn:Hc;
    [done|].
  assert ((id, doc) ∈ db_collect_from matches t i) as Hin by (rewrite Hc; left).
  apply elem_of_db_collect_from in Hin as (k & _ & Hget & Hm).
  rewrite (Hnone k doc Hget) in Hm. done.
Qed.

(** X24: Deleting takes the memberships along.  [deleteUserTest] is for the
    owner of the test and for admins; it removes the test together with its
    memberships, in whatever collection and of whatever owner they are, and
    leaves the other tests, the other memberships, the collections and the
    runs as they are; anybody else is refused and nothing changes.
    [deleteCollection], by its owner, removes the collection together with
    its memberships and leaves the other collections, the other memberships
    and the store as they are. *)
Theorem deleting_takes_the_memberships_along now token id lib userId admin :
  requireUserSession now token (lib_store lib) = Return (userId, admin) →
  (∀ test,
     getTest id (lib_store lib) = Some test →
     (ownerId test ≠ Some userId → admin = false →
        deleteUserTest now token id lib
        = (Throw (js "You don't have permission to delete this test."), lib))
     ∧ (ownerId test = Some userId ∨ admin = true →
        (deleteUserTest now token id lib).1 = Return ()
        ∧ getTest id (lib_store (deleteUserTest now token id lib).2) = None
        ∧ (∀ id', id' ≠ id →
             getTest id' (lib_store (deleteUserTest now token id lib).2)
             = getTest id' (lib_store lib))
        ∧ rows_of_test (deleteUserTest now token id lib).2 id = []
        ∧ (∀ i, db_get (collectionTests (deleteUserTest now token id lib).2) i
                = match db_get (collectionTests lib) i with
                  | Some row =>
                      if bool_decide (ct_testId row = id) then None else Some row
                  | None => None
                  end)
        ∧ collections (deleteUserTest now token id lib).2 = collections lib
        ∧ testRuns (lib_store (deleteUserTest now token id lib).2)
          = testRuns (lib_store lib)))
  ∧ (∀ collection,
       db_get (collections lib) id = Some collection →
       col_ownerId collection = userId →
       (deleteCollection now token id lib).1 = Return ()
       ∧ db_get (collections (deleteCollection now token id lib).2) id = None
       ∧ (∀ id', id' ≠ id →
            db_get (collections (deleteCollection now token id lib).2) id'
            = db_get (collections lib) id')
       ∧ rows_of_collection (deleteCollection now token id lib).2 id = []
       ∧ (∀ i, db_get (collectionTests (deleteCollection now token id lib).2) i
               = match db_get (collectionTests lib) i with
                 | Some row =>
                     if bool_decide (collectionId row = id) then None
                     else Some row
                 | None => None
                 end)
       ∧ lib_store (deleteCollection now token id lib).2 = lib_store lib).
Proof.
  intros Hgate. split.
  - intros test Htest. unfold deleteUserTest. rewrite Hgate, Htest. split.
    + intros Hown ->. by rewrite bool_decide_false.
    + intros Hmay.
      assert (negb (bool_decide (ownerId test = Some userId)) && negb admin
              = false) as ->.
      { destruct Hmay as [Hown| ->]; [by rewrite bool_decide_true|].
        by rewrite andb_false_r. }
      unfold rows_of_test.
      destruct (delete_each_collect
                  (fun ct => bool_decide (ct_testId ct = id))
                  (collectionTests lib)) as (rows' & -> & _ & Hrows).
      unfold deleteTestDoc. unfold getTest in Htest.
      rewrite (db_delete_is_Some _ _ _ Htest). cbn.
      split; [done|]. unfold getTest, db_get. cbn.
      split; [rewrite list_lookup_insert_eq; [done|by eapply db_get_Some_lt]|].
      split; [intros id' Hne; by rewrite list_lookup_insert_ne|].
      split; [|done].
      apply db_collect_from_nil. intros k row. rewrite Hrows.
      destruct (db_get (collectionTests lib) k) as [r|]; [|done].
      case_bool_decide as Hr; [done|]. intros [= <-].
      by apply bool_decide_eq_false.
  - intros collection Hcol Hown. unfold deleteCollection, own_collection.
    rewrite Hgate, Hcol, bool_decide_true by done. cbn [negb].
    unfold rows_of_collection.
    destruct (delete_each_collect
                (fun ct => bool_decide (collectionId ct = id))
                (collectionTests lib)) as (rows' & -> & _ & Hrows).
    rewrite (db_delete_is_Some _ _ _ Hcol). cbn.
    split; [done|]. unfold db_get at 1 2 3. cbn.
    split; [rewrite list_lookup_insert_eq; [done|by eapply db_get_Some_lt]|].
    split; [intros id' Hne; by rewrite list_lookup_insert_ne|].
    split; [|done].
    apply db_collect_from_nil. intros k row. rewrite Hrows.
    destruct (db_get (collectionTests lib) k) as [r|]; [|done].
    case_bool_decide as Hr; [done|]. intros [= <-].
    by apply bool_decide_eq_false.
Qed.

(** *** Adding, removing and sharing *)

Lemma db_collect_hole {A} (matches : A → bool) (t : table A) doc :
  db_collect matches (<[length t := None]> (t ++ [Some doc]))
  = db_collect matches t.
Proof.
  unfold db_collect.
  replace (<[length t := None]> (t ++ [Some doc])) with (t ++ [None]).
  - rewrite db_collect_from_app. simpl. by rewrite app_nil_r.
  - rewrite insert_app_r_alt by done. by rewrite Nat.sub_diag.
Qed.

(** X25: The owner of a collection can add a test of their own, or an approved
    one, that is not in it yet: the test is then the last of the
    collection; adding it again is refused; removing it gives back the
    collection as it was.  A test that is neither the caller's nor
    approved is refused. *)
Theorem added_test_is_listed_once
    now token id testId lib userId admin collection test :
  requireUserSession now token (lib_store lib) = Return (userId, admin) →
  db_get (collections lib) id = Some collection →
  col_ownerId collection = userId →
  getTest testId (lib_store lib) = Some test →
  (ownerId test ≠ Some userId → status test ≠ Some approved →
     addTestToCollection now token id testId lib
     = (Throw (js "You can only add your own tests or public tests to collections."),
        lib))
  ∧ (ownerId test = Some userId ∨ status test = Some approved →
     member_row lib id testId = None →
     (addTestToCollection now token id testId lib).1 = Return ()
     ∧ getCollectionTests now token id
         (addTestToCollection now token id testId lib).2
       = Return (member_tests lib id ++ [(testId, test)])
     ∧ addTestToCollection now token id testId
         (addTestToCollection now token id testId lib).2
       = (Throw (js "Test is already in this collection."),
          (addTestToCollection now token id testId lib).2)
     ∧ (removeTestFromCollection now token id testId
          (addTestToCollection now token id testId lib).2).1 = Return ()
     ∧ getCollectionTests now token id
         (removeTestFromCollection now token id testId
            (addTestToCollection now token id testId lib).2).2
       = Return (member_tests lib id)).
Proof.
  intros Hgate Hcol Hown Htest.
  assert (∀ message rows,
            own_collection now token id message (with_collectionTests lib rows)
            = Return (userId, collection)) as Hmine.
  { intros message rows. unfold own_collection. cbn.
    by rewrite Hgate, Hcol, bool_decide_true. }
  assert (∀ message,
            own_collection now token id message lib = Return (userId, collection))
    as Hmine0.
  { intros message. unfold own_collection.
    by rewrite Hgate, Hcol, bool_decide_true. }
  split.
  - intros Hnot Hst. unfold addTestToCollection. rewrite Hmine0, Htest.
    by rewrite !bool_decide_false.
  - intros Hmay Hfree.
    assert (negb (bool_decide (ownerId test = Some userId))
            && negb (bool_decide (status test = Some approved)) = false) as Hok.
    { destruct Hmay as [?|?]; [by rewrite bool_decide_true|].
      rewrite (bool_decide_true (status test = _)) by done.
      by rewrite andb_false_r. }
    set (row := {| collectionId := id; ct_testId := testId; addedAt := now |}).
    set (lib' := with_collectionTests lib (collectionTests lib ++ [Some row])).
    assert (addTestToCollection now token id testId lib = (Return (), lib'))
      as ->.
    { unfold addTestToCollection. by rewrite Hmine0, Htest, Hfree, Hok. }
    cbn [fst snd].
    assert (member_row lib' id testId = Some (length (collectionTests lib), row))
      as Hmember.
    { unfold member_row, lib'. cbn.
      apply (db_first_insert _ (collectionTests lib)); [done|].
      by rewrite !bool_decide_true. }
    assert (removeTestFromCollection now token id testId lib'
            = (Return (),
               with_collectionTests lib
                 (<[length (collectionTests lib) := None]>
                    (collectionTests lib ++ [Some row])))) as ->.
    { unfold removeTestFromCollection. unfold lib' at 1. rewrite Hmine, Hmember.
      unfold lib'. cbn [collectionTests with_collectionTests].
      erewrite db_delete_is_Some; [done|].
      unfold db_get. by rewrite lookup_app_r, Nat.sub_diag. }
    cbn [fst snd].
    split; [done|]. split; [|split; [|split; [done|]]].
    + unfold getCollectionTests, lib'. rewrite Hmine. f_equal.
      unfold member_tests, rows_of_collection.
      cbn [collectionTests with_collectionTests lib_store].
      rewrite db_collect_insert. cbn. rewrite bool_decide_true by done.
      rewrite omap_app. cbn. by rewrite Htest.
    + unfold addTestToCollection. unfold lib' at 1. rewrite Hmine.
      unfold lib' at 1. cbn [lib_store with_collectionTests].
      by rewrite Htest, Hok, Hmember.
    + unfold getCollectionTests. rewrite Hmine. f_equal.
      unfold member_tests, rows_of_collection.
      cbn [collectionTests with_collectionTests lib_store].
      by rewrite db_collect_hole.
Qed.

(** X26: Only public collections are served by their slug: what
    [getCollectionBySlug] answers with is a collection of the library that
    is public and has that slug, with its tests.  Once its owner makes the
    collection it resolves to private, the slug answers [null]. *)
Theorem private_collections_are_not_shared slug lib :
  (∀ shared,
     getCollectionBySlug slug lib = Some shared →
     db_get (collections lib) (shared_id shared) = Some (shared_collection shared)
     ∧ isPublic (shared_collection shared) = true
     ∧ shareSlug (shared_collection shared) = slug
     ∧ shared_tests shared = member_tests lib (shared_id shared))
  ∧ (∀ now token name description shared userId admin,
       getCollectionBySlug slug lib = Some shared →
       requireUserSession now token (lib_store lib) = Return (userId, admin) →
       col_ownerId (shared_collection shared) = userId →
       (updateCollection now token (shared_id shared) name description false
          lib).1
       = Return (Some {| col_name := name; col_description := description;
                         col_ownerId := userId; isPublic := false;
                         shareSlug := slug;
                         col_createdAt := col_createdAt (shared_collection shared);
                         updatedAt := now |})
       ∧ getCollectionBySlug slug
           (updateCollection now token (shared_id shared) name description
              false lib).2
         = None).
Proof.
  unfold getCollectionBySlug.
  destruct (db_first _ (collections lib)) as [[id c]|] eqn:Hfirst;
    [|by split; intros].
  pose proof (db_first_Some _ _ _ _ Hfirst) as [Hget Hslug].
  apply bool_decide_eq_true in Hslug.
  destruct (isPublic c) eqn:Hpub; cbn [negb]; [|by split; intros].
  split.
  - by intros shared [= <-].
  - intros now token name description shared userId admin [= <-] Hgate Hown.
    cbn [shared_id shared_collection] in *.
    unfold updateCollection, own_collection.
    rewrite Hgate, Hget, bool_decide_true by done. cbn [negb].
    rewrite (db_patch_is_Some _ _ _ c Hget). cbn [fst snd].
    unfold db_get at 1. rewrite list_lookup_insert_eq by by eapply db_get_Some_lt.
    cbn [col_ownerId shareSlug col_createdAt]. rewrite Hown, Hslug.
    split; [done|]. cbn [collections with_collections].
    erewrite db_first_patch; [|exact Hfirst|by apply bool_decide_eq_true].
    done.
Qed.

Lemma charAt_slug_chars (d : nat) :
  (d < 36)%nat →
  ∃ c, charAt slug_chars d = [c] ∧ c ∈ slug_chars.
Proof.
  intros Hd. unfold charAt.
  destruct (slug_chars !! d) as [c|] eqn:Hc.
  - exists c. split; [done|]. by eapply list_elem_of_lookup_2.
  - apply lookup_ge_None in Hc.
    assert (length slug_chars = 36%nat) as Hlen by reflexivity. lia.
Qed.

(** X27: A collection that is created belongs to the caller, carries a slug of
    8 characters out of the lower-case letters and the digits, and is the
    first of [listCollections] from then on. *)
Theorem created_collection_is_its_creators
    now draw token name description public lib userId admin mine :
  requireUserSession now token (lib_store lib) = Return (userId, admin) →
  (∀ i, (draw i < 36)%nat) →
  listCollections now token lib = Return mine →
  ∃ collection,
    (createCollection now draw token name description public lib).1
    = Return (Some collection)
    ∧ col_name collection = name ∧ col_ownerId collection = userId
    ∧ isPublic collection = public
    ∧ length (shareSlug collection) = 8%nat
    ∧ Forall (λ c, c ∈ slug_chars) (shareSlug collection)
    ∧ listCollections now token
        (createCollection now draw token name description public lib).2
      = Return ((length (collections lib), collection) :: mine)
    ∧ collectionTests (createCollection now draw token name description public
                         lib).2
      = collectionTests lib.
Proof.
  intros Hgate Hdraw Hmine. unfold createCollection. rewrite Hgate.
  unfold db_insert. cbn [fst snd]. unfold db_get at 1. cbn.
  rewrite lookup_app_r, Nat.sub_diag by done. cbn.
  eexists. split; [done|]. cbn. do 3 (split; [done|]).
  assert (length (generateSlug draw) = 8%nat
          ∧ Forall (λ c, c ∈ slug_chars) (generateSlug draw)) as [Hlen Hchars].
  { unfold generateSlug. cbn [seq foldl].
    destruct (charAt_slug_chars (draw 0%nat) (Hdraw _)) as (c0 & -> & ?).
    destruct (charAt_slug_chars (draw 1%nat) (Hdraw _)) as (c1 & -> & ?).
    destruct (charAt_slug_chars (draw 2%nat) (Hdraw _)) as (c2 & -> & ?).
    destruct (charAt_slug_chars (draw 3%nat) (Hdraw _)) as (c3 & -> & ?).
    destruct (charAt_slug_chars (draw 4%nat) (Hdraw _)) as (c4 & -> & ?).
    destruct (charAt_slug_chars (draw 5%nat) (Hdraw _)) as (c5 & -> & ?).
    destruct (charAt_slug_chars (draw 6%nat) (Hdraw _)) as (c6 & -> & ?).
    destruct (charAt_slug_chars (draw 7%nat) (Hdraw _)) as (c7 & -> & ?).
    cbn. split; [done|]. by repeat (apply Forall_cons; split; [done|]). }
  split; [done|]. split; [done|]. split; [|done].
  unfold listCollections in *. cbn [lib_store with_collections collections].
  rewrite Hgate in *. injection Hmine as <-.
  rewrite db_collect_insert. cbn [col_ownerId]. rewrite bool_decide_true by done.
  by rewrite reverse_app.
Qed.

(** ** The engine quota *)

Section Engine.
Implicit Types (db : EngineDb) (user : EngineUser) (token : jsstring).

(** What a use that goes through leaves. *)
Lemma incrementEngineUsage_counts currentMonth token db sid session user :
  db_first (fun s => bool_decide (session_token s = token)) (engine_sessions db)
  = Some (sid, session) →
  db_get (engine_users db) (session_userId session) = Some user →
  flag_set (bannedFromEngine user) = false →
  flag_set (isSuperAdmin user) = false →
  usage_in currentMonth user < MONTHLY_ENGINE_LIMIT →
  incrementEngineUsage currentMonth token db
  = (Return None,
     {| engine_sessions := engine_sessions db;
        engine_users :=
          <[session_userId session :=
              Some {| bannedFromEngine := bannedFromEngine user;
                      isSuperAdmin := isSuperAdmin user;
                      engineUsageCount := Some (usage_in currentMonth user + 1);
                      engineUsageResetMonth := Some currentMonth |}]>
            (engine_users db) |}).
Proof.
  intros Hs Hu Hban Hsuper Hlt. unfold incrementEngineUsage.
  rewrite Hs, Hu, Hban, Hsuper. rewrite bool_decide_false by lia.
  by rewrite (db_patch_is_Some _ _ _ user Hu).
Qed.

Lemma usage_in_counted currentMonth banned super count :
  usage_in currentMonth
    {| bannedFromEngine := banned; isSuperAdmin := super;
       engineUsageCount := Some count;
       engineUsageResetMonth := Some currentMonth |} = count.
Proof. unfold usage_in. cbn. by rewrite bool_decide_true. Qed.

(** X28: A use of the engine is counted against the month: for a user who is
    neither banned nor a super admin, [incrementEngineUsage] goes through
    while fewer than 5 uses count in the current month, and then counts one
    more and stamps the month; from 5 on it refuses and writes nothing.
    It does not look at the expiry of the session.  [checkEngineAccess]
    announces exactly that for a session that has not expired, with the
    uses that remain, and denies an expired one. *)
Theorem engine_use_is_counted currentMonth token db sid session user :
  db_first (fun s => bool_decide (session_token s = token)) (engine_sessions db)
  = Some (sid, session) →
  db_get (engine_users db) (session_userId session) = Some user →
  flag_set (bannedFromEngine user) = false →
  flag_set (isSuperAdmin user) = false →
  (usage_in currentMonth user < MONTHLY_ENGINE_LIMIT →
     (incrementEngineUsage currentMonth token db).1 = Return None
     ∧ engine_sessions (incrementEngineUsage currentMonth token db).2
       = engine_sessions db
     ∧ (∃ user',
          db_get (engine_users (incrementEngineUsage currentMonth token db).2)
            (session_userId session) = Some user'
          ∧ usage_in currentMonth user' = usage_in currentMonth user + 1
          ∧ bannedFromEngine user' = bannedFromEngine user
          ∧ isSuperAdmin user' = isSuperAdmin user)
     ∧ ∀ id, id ≠ session_userId session →
         db_get (engine_users (incrementEngineUsage currentMonth token db).2) id
         = db_get (engine_users db) id)
  ∧ (MONTHLY_ENGINE_LIMIT ≤ usage_in currentMonth user →
       incrementEngineUsage currentMonth token db
       = (Return (Some (js "Monthly engine usage limit reached (5 uses per month).")),
          db))
  ∧ ∀ now,
      (now ≤ session_expiresAt session →
         checkEngineAccess now currentMonth token db
         = EngineAllowed
             (bool_decide (usage_in currentMonth user < MONTHLY_ENGINE_LIMIT))
             (MONTHLY_ENGINE_LIMIT - usage_in currentMonth user))
      ∧ (session_expiresAt session < now →
           checkEngineAccess now currentMonth token db
           = EngineDenied (js "Session expired.")).
Proof.
  intros Hs Hu Hban Hsuper. split; [|split].
  - intros Hlt.
    rewrite (incrementEngineUsage_counts _ _ _ _ _ _ Hs Hu Hban Hsuper Hlt).
    cbn [fst snd engine_sessions engine_users].
    split; [done|]. split; [done|]. split.
    + eexists. split.
      * unfold db_get. rewrite list_lookup_insert_eq; [done|].
        by eapply db_get_Some_lt.
      * by rewrite usage_in_counted.
    + intros id Hne. unfold db_get. by rewrite list_lookup_insert_ne.
  - intros Hge. unfold incrementEngineUsage.
    rewrite Hs, Hu, Hban, Hsuper. by rewrite bool_decide_true by lia.
  - intros now. unfold checkEngineAccess. rewrite Hs.
    split; intros Hnow.
    + rewrite bool_decide_false by lia. rewrite Hu, Hban, Hsuper.
      f_equal. apply bool_decide_ext. lia.
    + by rewrite bool_decide_true by lia.
Qed.

Lemma engine_uses_count (n : nat) currentMonth token db sid session user :
  db_first (fun s => bool_decide (session_token s = token)) (engine_sessions db)
  = Some (sid, session) →
  db_get (engine_users db) (session_userId session) = Some user →
  flag_set (bannedFromEngine user) = false →
  flag_set (isSuperAdmin user) = false →
  0 ≤ usage_in currentMonth user ≤ MONTHLY_ENGINE_LIMIT →
  engine_sessions (engine_uses n currentMonth token db) = engine_sessions db
  ∧ ∃ user',
      db_get (engine_users (engine_uses n currentMonth token db))
        (session_userId session) = Some user'
      ∧ flag_set (bannedFromEngine user') = false
      ∧ flag_set (isSuperAdmin user') = false
      ∧ usage_in currentMonth user'
        = Z.min (usage_in currentMonth user + Z.of_nat n) MONTHLY_ENGINE_LIMIT.
Proof.
  revert db user. induction n as [|n IH]; intros db user Hs Hu Hban Hsuper Hc.
  - simpl. split; [done|]. exists user. do 3 (split; [done|]). lia.
  - cbn [engine_uses].
    destruct (decide (usage_in currentMonth user < MONTHLY_ENGINE_LIMIT))
      as [Hlt|Hge].
    + rewrite (incrementEngineUsage_counts _ _ _ _ _ _ Hs Hu Hban Hsuper Hlt).
      cbn [snd].
      set (user1 := {| bannedFromEngine := bannedFromEngine user;
                       isSuperAdmin := isSuperAdmin user;
                       engineUsageCount := Some (usage_in currentMonth user + 1);
                       engineUsageResetMonth := Some currentMonth |}).
      destruct (IH {| engine_sessions := engine_sessions db;
                      engine_users := <[session_userId session := Some user1]>
                                        (engine_users db) |} user1)
        as (Hsess & user' & Hu' & Hban' & Hsuper' & Hcount).
      * exact Hs.
      * cbn. unfold db_get. rewrite list_lookup_insert_eq; [done|].
        by eapply db_get_Some_lt.
      * done.
      * done.
      * unfold user1. rewrite usage_in_counted. lia.
      * split; [done|]. exists user'. do 3 (split; [done|]).
        rewrite Hcount. unfold user1. rewrite usage_in_counted. lia.
    + assert (incrementEngineUsage currentMonth token db
              = (Return (Some (js "Monthly engine usage limit reached (5 uses per month).")),
                 db)) as ->.
      { unfold incrementEngineUsage. rewrite Hs, Hu, Hban, Hsuper.
        by rewrite bool_decide_true by lia. }
      cbn [snd]. destruct (IH db user Hs Hu Hban Hsuper Hc)
        as (Hsess & user' & Hu' & Hban' & Hsuper' & Hcount).
      split; [done|]. exists user'. do 3 (split; [done|]). lia.
Qed.

(** X29: Five uses a month: in a month the user has not used the engine in yet,
    whatever the count of the month before, the first five uses go
    through and every later one is refused. *)
Theorem five_engine_uses_a_month (n : nat) currentMonth token db sid session user :
  db_first (fun s => bool_decide (session_token s = token)) (engine_sessions db)
  = Some (sid, session) →
  db_get (engine_users db) (session_userId session) = Some user →
  flag_set (bannedFromEngine user) = false →
  flag_set (isSuperAdmin user) = false →
  engineUsageResetMonth user ≠ Some currentMonth →
  (incrementEngineUsage currentMonth token
     (engine_uses n currentMonth token db)).1
  = Return (if bool_decide (n < 5)%nat then None
            else Some (js "Monthly engine usage limit reached (5 uses per month).")).
Proof.
  intros Hs Hu Hban Hsuper Hmonth.
  assert (usage_in currentMonth user = 0) as Hzero.
  { unfold usage_in. by rewrite bool_decide_false. }
  destruct (engine_uses_count n currentMonth token db sid session user
              Hs Hu Hban Hsuper) as (Hsess & user' & Hu' & Hban' & Hsuper' & Hcount).
  { rewrite Hzero. unfold MONTHLY_ENGINE_LIMIT. lia. }
  rewrite Hzero in Hcount. unfold MONTHLY_ENGINE_LIMIT in Hcount.
  unfold incrementEngineUsage. rewrite Hsess, Hs, Hu', Hban', Hsuper'.
  unfold MONTHLY_ENGINE_LIMIT. destruct (decide (n < 5)%nat) as [Hn|Hn].
  - rewrite (bool_decide_true (n < 5)%nat) by done.
    rewrite (bool_decide_false (usage_in currentMonth user' >= 5)) by lia.
    by rewrite (db_patch_is_Some _ _ _ user' Hu').
  - rewrite (bool_decide_false (n < 5)%nat) by done.
    by rewrite (bool_decide_true (usage_in currentMonth user' >= 5)) by lia.
Qed.

(** A banned user is refused by both handlers, also when a super admin; a
    super admin who is not banned is always let through and is never
    counted. *)
Lemma engine_bans_and_super_admins now currentMonth token db sid session user :
  db_first (fun s => bool_decide (session_token s = token)) (engine_sessions db)
  = Some (sid, session) →
  db_get (engine_users db) (session_userId session) = Some user →
  now ≤ session_expiresAt session →
  (bannedFromEngine user = Some true →
     checkEngineAccess now currentMonth token db
     = EngineDenied (js "You are banned from using the engine.")
     ∧ incrementEngineUsage currentMonth token db
       = (Return (Some (js "You are banned from using the engine.")), db))
  ∧ (flag_set (bannedFromEngine user) = false → isSuperAdmin user = Some true →
       checkEngineAccess now currentMonth token db = EngineAllowed true (-1)
       ∧ incrementEngineUsage currentMonth token db = (Return None, db)).
Proof.
  intros Hs Hu Hnow. unfold checkEngineAccess, incrementEngineUsage.
  rewrite Hs, Hu. rewrite bool_decide_false by lia. split.
  - by intros ->.
  - by intros -> ->.
Qed.

End Engine.

(** ** The first admin *)

Section FirstAdmin.
Context `{Runtime}.
Implicit Types (db : Store).

(** [createAdminUser] asks for the admin password of the deployment: with
    none configured, or with another secret, it throws and changes
    nothing.  With it, a user of that email becomes an admin in place and
    keeps the password they had; an admin of that email is left as is. *)
Lemma createAdminUser_upgrades_in_place
    expected hash arg_email arg_username adminSecret db :
  ((expected = None ∨ expected = Some []) →
     createAdminUser expected hash arg_email arg_username adminSecret db
     = (Throw (js "Admin password not configured."), db))
  ∧ (∀ secret, expected = Some secret → secret ≠ [] → adminSecret ≠ secret →
       createAdminUser expected hash arg_email arg_username adminSecret db
       = (Throw (js "Invalid admin secret."), db))
  ∧ (∀ id user,
       expected = Some adminSecret → adminSecret ≠ [] →
       db_first (fun u => bool_decide (emailLower u = trim (toLowerCase arg_email)))
         (users db) = Some (id, user) →
       (isAdmin user = true →
          createAdminUser expected hash arg_email arg_username adminSecret db
          = (Return (js "Admin user already exists."), db))
       ∧ (isAdmin user = false →
            (createAdminUser expected hash arg_email arg_username adminSecret
               db).1
            = Return (js "Existing user upgraded to admin.")
            ∧ db_get
                (users (createAdminUser expected hash arg_email arg_username
                          adminSecret db).2) id
              = Some {| email := email user; emailLower := emailLower user;
                        passwordHash := passwordHash user;
                        username := username user; isAdmin := true |}
            ∧ length (users (createAdminUser expected hash arg_email
                               arg_username adminSecret db).2)
              = length (users db)
            ∧ hasAdminUser
                (createAdminUser expected hash arg_email arg_username
                   adminSecret db).2 = true)).
Proof.
  split; [|split].
  - intros [-> | ->]; done.
  - intros secret -> Hsecret%str_falsy_false Hne. unfold createAdminUser.
    by rewrite Hsecret, bool_decide_false.
  - intros id user -> Hsecret%str_falsy_false Hfirst. unfold createAdminUser.
    rewrite Hsecret, bool_decide_true by done. cbn [negb]. rewrite Hfirst.
    pose proof (db_first_Some _ _ _ _ Hfirst) as [Hget _].
    split; intros ->; [done|].
    rewrite (db_patch_is_Some _ _ _ user Hget). cbn [fst snd users with_users].
    split; [done|].
    assert (db_get (<[id := Some {| email := email user;
                                     emailLower := emailLower user;
                                     passwordHash := passwordHash user;
                                     username := username user;
                                     isAdmin := true |}]> (users db)) id
            = Some {| email := email user; emailLower := emailLower user;
                      passwordHash := passwordHash user;
                      username := username user; isAdmin := true |}) as Hnew.
    { unfold db_get. rewrite list_lookup_insert_eq; [done|].
      by eapply db_get_Some_lt. }
    split; [done|]. split; [by rewrite length_insert|].
    unfold hasAdminUser. cbn [users with_users].
    destruct (db_first isAdmin _) as [[]|] eqn:Hnone; [done|].
    by pose proof (proj1 (db_first_None _ _) Hnone _ _ Hnew).
Qed.

(** X30: The admin that [createAdminUser] creates can log in: with the secret
    of the deployment and an email no user has yet, the new user is an
    admin, [hasAdminUser] says so, and a login with the email and the
    password whose hash was stored opens a session that passes
    [requireAdmin]. *)
Theorem created_admin_can_log_in
    hash arg_email arg_password arg_username adminSecret now token client db :
  adminSecret ≠ [] →
  db_first (fun u => bool_decide (emailLower u = trim (toLowerCase arg_email)))
    (users db) = None →
  bcrypt_compareSync arg_password hash = true →
  blocked (checkRateLimit now client db) = false →
  session_by_token db token = None →
  let db' := (createAdminUser (Some adminSecret) hash arg_email arg_username
                adminSecret db).2 in
  (createAdminUser (Some adminSecret) hash arg_email arg_username adminSecret
     db).1 = Return (js "Admin user created.")
  ∧ hasAdminUser db' = true
  ∧ (login now token arg_email arg_password client db').1
    = Return (LoginOk token
                {| info_id := length (users db); info_email := trim arg_email;
                   info_username := trim arg_username; info_isAdmin := true |})
  ∧ requireAdmin now token (login now token arg_email arg_password client db').2
    = Return (length (users db)).
Proof.
  intros Hsecret%str_falsy_false Hnone Hpw Hunblocked Hfresh db'.
  set (user := {| email := trim arg_email;
                  emailLower := trim (toLowerCase arg_email);
                  passwordHash := hash; username := trim arg_username;
                  isAdmin := true |}).
  assert (createAdminUser (Some adminSecret) hash arg_email arg_username
            adminSecret db
          = (Return (js "Admin user created."),
             with_users db (users db ++ [Some user]))) as Hcreate.
  { unfold createAdminUser.
    by rewrite Hsecret, bool_decide_true, Hnone. }
  unfold db'. rewrite Hcreate. cbn [fst snd]. split; [done|].
  set (db1 := with_users db (users db ++ [Some user])).
  assert (db_first (fun u => bool_decide (emailLower u = trim (toLowerCase arg_email)))
            (users db1) = Some (length (users db), user)) as Hfirst.
  { apply (db_first_insert _ (users db)); [done|]. by apply bool_decide_eq_true. }
  split.
  { unfold hasAdminUser.
    destruct (db_first isAdmin (users db1)) as [[]|] eqn:Hadm; [done|].
    pose proof (db_first_Some _ _ _ _ Hfirst) as [Hget _].
    by pose proof (proj1 (db_first_None _ _) Hadm _ _ Hget). }
  assert (blocked (checkRateLimit now client db1) = false) as Hunblocked' by done.
  destruct (login_success_store now token arg_email arg_password client db1
              (length (users db)) user Hunblocked' Hfirst Hpw)
    as (db2 & Hlogin & Husers & _ & Hsess).
  rewrite Hlogin. cbn [fst snd]. split; [done|].
  unfold requireAdmin, requireUserSession.
  assert (session_by_token db2 token
          = Some (length (userSessions db1),
                  {| session_userId := length (users db); session_token := token;
                     session_createdAt := now;
                     session_expiresAt := now + SESSION_TTL_MS |})) as ->.
  { unfold session_by_token. rewrite Hsess.
    apply (db_first_insert _ (userSessions db1)); [done|].
    by apply bool_decide_eq_true. }
  cbn [session_expiresAt session_userId].
  rewrite bool_decide_false by (unfold SESSION_TTL_MS; lia).
  rewrite Husers. pose proof (db_first_Some _ _ _ _ Hfirst) as [-> _]. done.
Qed.

End FirstAdmin.

(** * Worked examples *)

Example trim_removes_white_space :
  trim (js "  https://x.com " ++ [160; 10]%N) = js "https://x.com".
Proof. by vm_compute. Qed.

Example replace_trailing_slashes_all :
  replace_trailing_slashes (js "https://x.com/a///") = js "https://x.com/a".
Proof. by vm_compute. Qed.

Example endpoint_of_root : endpoint_of (js "https://x.com") = Some (js "https://x.com/move").
Proof. by vm_compute. Qed.

Example endpoint_of_move_slash :
  endpoint_of (js " https://x.com/move/ ") = Some (js "https://x.com/move").
Proof. by vm_compute. Qed.

Example endpoint_of_blank_url : endpoint_of (js "   ") = None.
Proof. by vm_compute. Qed.

Example Number_toString_404 : Number_toString 404 = js "404".
Proof. by vm_compute. Qed.

Example JSON_parse_ref_object :
  JSON_parse_ref (js "{ " ++ quoted (js "move") ++ js " : " ++ quoted (js "up")
                  ++ js ", " ++ quoted (js "n") ++ js ":[1,-2.5e3,true,null]}")
  = Some (JObject [(js "move", JString (js "up"));
                   (js "n", JArray [JNumber (js "1"); JNumber (js "-2.5e3");
                                    JBool true; JNull])]).
Proof. by vm_compute. Qed.

Example JSON_parse_ref_rejects :
  JSON_parse_ref [] = None
  ∧ JSON_parse_ref (js "not json") = None
  ∧ JSON_parse_ref (js "[1,]") = None
  ∧ JSON_parse_ref (js "{}x") = None.
Proof. by vm_compute. Qed.

Example JSON_stringify_ref_roundtrip :
  JSON_stringify_ref (JObject [(js "move", JString (js "up")); (js "ok", JBool true)])
  = js "{" ++ quoted (js "move") ++ js ":" ++ quoted (js "up") ++ js ","
    ++ quoted (js "ok") ++ js ":true}".
Proof. by vm_compute. Qed.

(** ** The sample world *)

(** The run [0] of the sample world posts to [https://x.com/move]. *)
Lemma sample_bot_responds (http_status : N) (text : jsstring) :
  bot_responds (sample_env http_status text) 0 (sample_db sample_approved)
    sample_approved http_status text.
Proof.
  exists (sample_run (js "https://x.com") running), sample_snake,
    (js "https://x.com/move").
  repeat split; by vm_compute.
Defined.

(** The examples of the specification: with the safe moves [up] and
    [right], the answer [up] passes, [down] does not, and an object without
    a move gives no move and does not pass; neither does a move in another
    case, or one with a space before it, or one that is not a string. *)
Example run_passes_on_up :
  answer_of (@executeTestRun reference_runtime
               (sample_env 200 (move_body (js "up"))) 0 (sample_db sample_approved))
  = Return (ExecOk (Some (js "up")) None true 42).
Proof. by vm_compute. Qed.

Example run_fails_on_down :
  answer_of (@executeTestRun reference_runtime
               (sample_env 200 (move_body (js "down"))) 0 (sample_db sample_approved))
  = Return (ExecOk (Some (js "down")) None false 42).
Proof. by vm_compute. Qed.

Example run_fails_without_move :
  answer_of (@executeTestRun reference_runtime
               (sample_env 200 (js "{}")) 0 (sample_db sample_approved))
  = Return (ExecOk None None false 42).
Proof. by vm_compute. Qed.

Example run_fails_on_other_case :
  answer_of (@executeTestRun reference_runtime
               (sample_env 200 (move_body (js "UP"))) 0 (sample_db sample_approved))
  = Return (ExecOk (Some (js "UP")) None false 42).
Proof. by vm_compute. Qed.

Example run_fails_on_padded_move :
  answer_of (@executeTestRun reference_runtime
               (sample_env 200 (move_body (js " up"))) 0 (sample_db sample_approved))
  = Return (ExecOk (Some (js " up")) None false 42).
Proof. by vm_compute. Qed.

Example run_fails_on_number_move :
  answer_of (@executeTestRun reference_runtime
               (sample_env 200 (js "{" ++ quoted (js "move") ++ js ":5}"))
               0 (sample_db sample_approved))
  = Return (ExecOk None None false 42).
Proof. by vm_compute. Qed.

Lemma passed_iff_move_expected_witness :
  response_ok 200 = true
  ∧ move_body (js "up") ≠ []
  ∧ @JSON_parse reference_runtime (move_body (js "up"))
    = Some (JObject [(js "move", JString (js "up"))])
  ∧ ∃ run',
      getTestRun 0%nat
        (store_after (@executeTestRun reference_runtime
                        (sample_env 200 (move_body (js "up"))) 0
                        (sample_db sample_approved))) = Some run'
      ∧ run_status run' = completed
      ∧ run_move run' = Some (js "up")
      ∧ run_passed run' = Some true
      ∧ answer_of (@executeTestRun reference_runtime
                     (sample_env 200 (move_body (js "up"))) 0
                     (sample_db sample_approved))
        = Return (ExecOk (Some (js "up")) (run_shout run') true
                    (clock_fetchEnd (sample_env 200 (move_body (js "up")))
                     - clock_fetchStart (sample_env 200 (move_body (js "up"))))).
Proof.
  assert (response_ok 200 = true) as H1 by reflexivity.
  assert (move_body (js "up") ≠ []) as H2 by (by vm_compute).
  assert (@JSON_parse reference_runtime (move_body (js "up"))
          = Some (JObject [(js "move", JString (js "up"))])) as H3
    by (vm_compute; reflexivity).
  split; [exact H1|]. split; [exact H2|]. split; [exact H3|].
  destruct (@passed_iff_move_expected reference_runtime _ _ _ _ _ _ _
              (sample_bot_responds 200 (move_body (js "up"))) H1 H2 H3)
    as (run' & b & Hrun & Hstatus & Hmove & Hpassed & Hb & Hanswer).
  assert (run_move run' = Some (js "up")) as Hup.
  { apply Hmove. exists [], []. split; [reflexivity|apply not_elem_of_nil]. }
  assert (b = true) as ->.
  { apply Hb. exists (js "up"). split; [exact Hup|]. by left. }
  exists run'. rewrite Hup in Hanswer. by repeat split.
Defined.

Lemma guard_fails_without_mutation_witness :
  (getTestRun 7%nat (sample_db sample_approved) = None
   ∧ @executeTestRun reference_runtime (sample_env 200 []) 7
       (sample_db sample_approved)
     = (Return (ExecError (js "Test run not found.")),
        sample_db sample_approved, []))
  ∧ (getTestRun 3%nat (sample_db sample_approved)
     = Some (sample_run (js "https://x.com") completed)
     ∧ @executeTestRun reference_runtime (sample_env 200 []) 3
         (sample_db sample_approved)
       = (Return (ExecError (js "Test run is not in running state.")),
          sample_db sample_approved, [])).
Proof.
  split.
  - assert (getTestRun 7%nat (sample_db sample_approved) = None) as Hnone
      by reflexivity.
    split; [exact Hnone|].
    exact (proj1 (@guard_fails_without_mutation reference_runtime
                    (sample_env 200 []) 7%nat (sample_db sample_approved)) Hnone).
  - assert (getTestRun 3%nat (sample_db sample_approved)
            = Some (sample_run (js "https://x.com") completed)) as Hrun
      by reflexivity.
    split; [exact Hrun|].
    apply (proj1 (proj2 (@guard_fails_without_mutation reference_runtime
                    (sample_env 200 []) 3%nat (sample_db sample_approved)))
             _ Hrun).
    by vm_compute.
Defined.


(** C4 as stated fails on the empty body: [JSON.parse] rejects the empty
    string, yet the run is closed as completed, with no error, and the raw
    response recorded is the serialisation of [null]. *)
Lemma empty_body_is_not_recorded_as_failure :
  bot_responds (sample_env 200 []) 0 (sample_db sample_approved)
    sample_approved 200 []
  ∧ @JSON_parse reference_runtime [] = None
  ∧ ∃ run',
      getTestRun 0%nat
        (store_after (@executeTestRun reference_runtime (sample_env 200 []) 0
                        (sample_db sample_approved))) = Some run'
      ∧ run_status run' = completed
      ∧ run_error run' = None
      ∧ run_rawResponse run' = Some (js "null").
Proof.
  split; [apply sample_bot_responds|]. split; [reflexivity|].
  eexists. split; [by vm_compute|]. by vm_compute.
Qed.

Lemma non_json_body_fails_witness :
  js "<html>" ≠ []
  ∧ @JSON_parse reference_runtime (js "<html>") = None
  ∧ ∃ run',
      getTestRun 0%nat
        (store_after (@executeTestRun reference_runtime
                        (sample_env 502 (js "<html>")) 0
                        (sample_db sample_approved))) = Some run'
      ∧ run_status run' = failed
      ∧ run_error run'
        = Some (js "Non-JSON response (" ++ Number_toString 502 ++ js ").")
      ∧ run_rawResponse run' = Some (take 1000 (js "<html>"))
      ∧ run_httpStatus run' = Some 502%N
      ∧ run_responseTimeMs run'
        = Some (clock_fetchEnd (sample_env 502 (js "<html>"))
                - clock_fetchStart (sample_env 502 (js "<html>")))
      ∧ answer_of (@executeTestRun reference_runtime
                     (sample_env 502 (js "<html>")) 0 (sample_db sample_approved))
        = Return (ExecError (js "Non-JSON response ("
                             ++ Number_toString 502 ++ js ").")).
Proof.
  assert (js "<html>" ≠ []) as H1 by (by vm_compute).
  assert (@JSON_parse reference_runtime (js "<html>") = None) as H2
    by (vm_compute; reflexivity).
  split; [exact H1|]. split; [exact H2|].
  exact (@non_json_body_fails reference_runtime _ _ _ _ _ _
           (sample_bot_responds 502 (js "<html>")) H1 H2).
Defined.

Lemma empty_body_completes_witness :
  response_ok 200 = true
  ∧ ∃ run',
      getTestRun 0%nat
        (store_after (@executeTestRun reference_runtime (sample_env 200 []) 0
                        (sample_db sample_approved))) = Some run'
      ∧ run_status run' = completed ∧ run_move run' = None
      ∧ run_shout run' = None ∧ run_passed run' = Some false.
Proof.
  assert (response_ok 200 = true) as H1 by reflexivity.
  split; [exact H1|].
  destruct (@empty_body_completes reference_runtime _ _ _ _ _ _
              (sample_bot_responds 200 []) H1) as (run' & Hget & Hempty & _).
  exists run'. split; [exact Hget|].
  destruct (Hempty eq_refl) as (? & ? & ? & ? & _). done.
Defined.

Lemma resubmit_requires_plain_rejection_witness :
  (∃ test',
     (resubmitTest 5000 (js "tok-owner") 0 (sample_db sample_rejected)).1
     = Return (Some test')
     ∧ getTest 0 (resubmitTest 5000 (js "tok-owner") 0 (sample_db sample_rejected)).2
       = Some test'
     ∧ test' = patch_rejectionReason None (patch_status pending sample_rejected)
     ∧ status test' = Some pending
     ∧ rejectionReason test' = None)
  ∧ resubmitTest 5000 (js "tok-owner") 0 (sample_db sample_perma)
    = (Throw (js "This test has been permanently rejected and cannot be resubmitted."),
       sample_db sample_perma).
Proof.
  split.
  - apply (proj1 (proj2 (resubmit_requires_plain_rejection 5000 (js "tok-owner")
                           0%nat (sample_db sample_rejected))) 0%nat false);
      by vm_compute.
  - destruct (proj2 (proj2 (resubmit_requires_plain_rejection 5000 (js "tok-owner")
                              0%nat (sample_db sample_perma)))
                sample_perma eq_refl eq_refl) as (_ & Hdb & Hmsg).
    pose proof (Hmsg 0%nat false) as Hm.
    destruct (resubmitTest 5000 (js "tok-owner") 0%nat (sample_db sample_perma))
      as [r d].
    cbn [fst snd] in Hdb, Hm. rewrite Hdb, Hm; [done|by vm_compute..].
Defined.

(** A perma-rejected test through an approval, a rejection, a move to
    private, an owner edit, an admin edit and a resubmission. *)
Lemma permaRejected_is_sticky_witness :
  ∃ t',
    getTest 0
      (moderation_run
         [CallApproveTest 5000 (js "tok-admin") 0;
          CallRejectTest 5001 (js "tok-admin") 0 None;
          CallMakeTestPrivate 5002 (js "tok-admin") 0;
          CallUpdateUserTest 5003 (js "tok-owner") 0 sample_args;
          CallAdminUpdateTest 5004 (js "tok-admin") 0 sample_args;
          CallResubmitTest 5005 (js "tok-owner") 0]
         (sample_db sample_perma)) = Some t'
    ∧ permaRejected t' = Some true.
Proof.
  apply (proj1 permaRejected_is_sticky _ (sample_db sample_perma) 0%nat sample_perma);
    reflexivity.
Defined.

(** The owner edits a rejected test: it is pending again, and the reason of
    the rejection is still on it. *)
Lemma owner_edit_forces_pending_witness :
  ∃ test',
    (updateUserTest 5000 (js "tok-owner") 0 sample_args (sample_db sample_rejected)).1
    = Return (Some test')
    ∧ getTest 0 (updateUserTest 5000 (js "tok-owner") 0 sample_args
                   (sample_db sample_rejected)).2 = Some test'
    ∧ status test' = Some pending
    ∧ rejectionReason test' = Some (js "needs food")
    ∧ permaRejected test' = None
    ∧ approvedBy test' = None
    ∧ approvedAt test' = None.
Proof.
  apply (owner_edit_forces_pending 5000 (js "tok-owner") 0%nat sample_args
           (sample_db sample_rejected) 0%nat false sample_rejected);
    by vm_compute.
Defined.

Example owner_edit_leaves_reason :
  (rejectionReason <$>
     getTest 0 (updateUserTest 5000 (js "tok-owner") 0 sample_args
                  (sample_db sample_rejected)).2)
  = Some (Some (js "needs food"))
  ∧ (rejectionReason <$>
       getTest 0 (resubmitTest 5000 (js "tok-owner") 0 (sample_db sample_rejected)).2)
    = Some None.
Proof. by vm_compute. Qed.

(** Five wrong passwords of one client within five seconds, then the right
    one: the sixth attempt is refused and changes nothing. *)
Lemma login_rate_limit_witness :
  ∃ id,
    limiter_by_clientId
      (@login_run reference_runtime (js "client-1")
         [owner_attempt 1000 (js "a"); owner_attempt 2000 (js "b");
          owner_attempt 3000 (js "c"); owner_attempt 4000 (js "d");
          owner_attempt 5000 (js "e")]
         (sample_db sample_approved)) (js "client-1")
    = Some (id, {| clientId := js "client-1"; windowStart := 1000; attempts := 5;
                   blockedUntil := Some (5000 + RATE_LIMIT_WINDOW_MS) |})
    ∧ ∀ a6, at_time a6 < 5000 + RATE_LIMIT_WINDOW_MS →
        @login_attempt reference_runtime (js "client-1") a6
          (@login_run reference_runtime (js "client-1")
             [owner_attempt 1000 (js "a"); owner_attempt 2000 (js "b");
              owner_attempt 3000 (js "c"); owner_attempt 4000 (js "d");
              owner_attempt 5000 (js "e")]
             (sample_db sample_approved))
        = (Return (LoginError (js "Too many attempts. Try again later.")
                     (Some (5000 + RATE_LIMIT_WINDOW_MS))),
           @login_run reference_runtime (js "client-1")
             [owner_attempt 1000 (js "a"); owner_attempt 2000 (js "b");
              owner_attempt 3000 (js "c"); owner_attempt 4000 (js "d");
              owner_attempt 5000 (js "e")]
             (sample_db sample_approved)).
Proof.
  apply (proj1 (@login_rate_limit reference_runtime (js "client-1"))
           (sample_db sample_approved)
           (owner_attempt 1000 (js "a")) (owner_attempt 2000 (js "b"))
           (owner_attempt 3000 (js "c")) (owner_attempt 4000 (js "d"))
           (owner_attempt 5000 (js "e"))).
  - reflexivity.
  - repeat constructor; by vm_compute.
  - by vm_compute.
Defined.

Example sixth_attempt_with_right_password_is_refused :
  (@login_attempt reference_runtime (js "client-1")
     (owner_attempt 6000 (js "hunter2"))
     (@login_run reference_runtime (js "client-1")
        [owner_attempt 1000 (js "a"); owner_attempt 2000 (js "b");
         owner_attempt 3000 (js "c"); owner_attempt 4000 (js "d");
         owner_attempt 5000 (js "e")]
        (sample_db sample_approved))).1
  = Return (LoginError (js "Too many attempts. Try again later.") (Some 305000)).
Proof. by vm_compute. Qed.

Example success_after_four_failures_resets :
  limiter_by_clientId
    (@login_run reference_runtime (js "client-1")
       [owner_attempt 1000 (js "a"); owner_attempt 2000 (js "b");
        owner_attempt 3000 (js "c"); owner_attempt 4000 (js "d");
        owner_attempt 5000 (js "hunter2")]
       (sample_db sample_approved)) (js "client-1")
  = Some (0%nat, {| clientId := js "client-1"; windowStart := 5000; attempts := 0;
                    blockedUntil := None |}).
Proof. by vm_compute. Qed.



(** * Further properties on the sample world *)

Lemma moderation_calls_are_gated_witness :
  moderation_step (CallCreateUserTest 5000 (js "nobody") sample_args)
    (sample_db sample_approved)
  = (Throw (js "Session invalid. Please log in again."),
     sample_db sample_approved)
  ∧ moderation_step (CallApproveTest 5000 (js "tok-owner") 0)
      (sample_db sample_approved)
    = (Throw (js "Admin access required."), sample_db sample_approved).
Proof.
  split.
  - apply (proj1 (moderation_calls_are_gated
                    (CallCreateUserTest 5000 (js "nobody") sample_args)
                    (sample_db sample_approved))).
    by vm_compute.
  - apply (proj2 (moderation_calls_are_gated
                    (CallApproveTest 5000 (js "tok-owner") 0)
                    (sample_db sample_approved)) 0%nat); by vm_compute.
Defined.

Lemma edits_and_moderation_touch_different_fields_witness :
  tests_kept (λ t t', content_of t' = content_of t) (sample_db sample_approved)
    (moderation_step (CallRejectTest 5000 (js "tok-admin") 0 None)
       (sample_db sample_approved)).2
  ∧ ∃ test',
      getTest 0 (adminUpdateTest 5000 (js "tok-admin") 0 sample_args
                   (sample_db sample_approved)).2 = Some test'
      ∧ content_of test' = sample_args
      ∧ status test' = status sample_approved.
Proof.
  destruct (edits_and_moderation_touch_different_fields 5000 (js "tok-admin")
              0%nat sample_args (sample_db sample_approved))
    as (Hcontent & _ & Hedit).
  split.
  - apply Hcontent. reflexivity.
  - apply (Hedit 1%nat sample_approved); by vm_compute.
Defined.

Lemma sample_tests_have_you : all_tests you_on_board (sample_db sample_approved).
Proof.
  intros [|id] t.
  - intros [= <-]. reflexivity.
  - destruct id; discriminate.
Defined.

Lemma you_is_always_on_board_witness :
  all_tests you_on_board
    (moderation_run [CallRejectTest 5001 (js "tok-admin") 0 None]
       (sample_db sample_approved))
  ∧ ∃ you,
      calls_of (@executeTestRun reference_runtime (sample_env 200 []) 0
                  (moderation_run [CallRejectTest 5001 (js "tok-admin") 0 None]
                     (sample_db sample_approved)))
      = [(js "https://x.com/move",
          requestBody 0 (sample_test (Some rejected) None None) you)]
      ∧ you ∈ snakes (board (sample_test (Some rejected) None None))
      ∧ snake_id you = youId (sample_test (Some rejected) None None).
Proof.
  destruct (you_is_always_on_board
              [CallRejectTest 5001 (js "tok-admin") 0 None]
              (sample_db sample_approved) sample_tests_have_you) as [Hall Hrun].
  split; [exact Hall|].
  apply (Hrun reference_runtime (sample_env 200 []) 0%nat
           (sample_run (js "https://x.com") running)
           (sample_test (Some rejected) None None) (js "https://x.com/move"));
    by vm_compute.
Defined.

Lemma closed_run_is_well_formed_witness :
  ∃ run',
    getTestRun 0
      (store_after (@executeTestRun reference_runtime
                      (sample_env 200 (move_body (js "up"))) 0
                      (sample_db sample_approved))) = Some run'
    ∧ run_testId run' = 0%nat ∧ run_userId run' = 0%nat
    ∧ botUrl run' = js "https://x.com" ∧ startedAt run' = 2000
    ∧ completedAt run' = Some 5050
    ∧ (∀ raw, run_rawResponse run' = Some raw → (length raw ≤ 1000)%nat)
    ∧ ((run_status run' = completed ∧ is_Some (run_passed run')
        ∧ run_error run' = None ∧ is_Some (run_httpStatus run')
        ∧ is_Some (run_responseTimeMs run'))
       ∨ (run_status run' = failed ∧ is_Some (run_error run')
          ∧ run_passed run' = None ∧ run_move run' = None
          ∧ run_shout run' = None)).
Proof.
  apply (@closed_run_is_well_formed reference_runtime
           (sample_env 200 (move_body (js "up"))) 0%nat
           (sample_db sample_approved) (sample_run (js "https://x.com") running));
    reflexivity.
Defined.

Lemma sample_bot_exchange (env : Env) :
  bot_exchange env 0 (sample_db sample_approved)
    (sample_run (js "https://x.com") running) sample_approved
    (fetch env (js "https://x.com/move") (requestBody 0 sample_approved sample_snake)).
Proof.
  exists sample_snake, (js "https://x.com/move").
  repeat split; by vm_compute.
Defined.

Lemma failures_are_recorded_by_kind_witness :
  (∃ run',
     getTestRun 0
       (store_after (@executeTestRun reference_runtime sample_dead_env 0
                       (sample_db sample_approved))) = Some run'
     ∧ run_status run' = failed
     ∧ run_error run' = Some (js "connect ECONNREFUSED")
     ∧ run_httpStatus run' = None
     ∧ run_rawResponse run' = None
     ∧ run_responseTimeMs run' = None
     ∧ answer_of (@executeTestRun reference_runtime sample_dead_env 0
                    (sample_db sample_approved))
       = Return (ExecError (js "connect ECONNREFUSED")))
  ∧ ∃ run',
      getTestRun 0
        (store_after (@executeTestRun reference_runtime
                        (sample_env 500 (js "{}")) 0
                        (sample_db sample_approved))) = Some run'
      ∧ run_status run' = failed
      ∧ run_error run' = Some (js "HTTP " ++ Number_toString 500)
      ∧ run_httpStatus run' = Some 500%N
      ∧ run_rawResponse run'
        = Some (take 1000 (@JSON_stringify reference_runtime (JObject [])))
      ∧ run_responseTimeMs run' = Some (5042 - 5000)
      ∧ run_passed run' = None
      ∧ answer_of (@executeTestRun reference_runtime
                     (sample_env 500 (js "{}")) 0 (sample_db sample_approved))
        = Return (ExecError (js "HTTP " ++ Number_toString 500)).
Proof.
  split.
  - apply (proj1 (@failures_are_recorded_by_kind reference_runtime
                    sample_dead_env 0%nat (sample_db sample_approved)
                    (sample_run (js "https://x.com") running) sample_approved)
             (FetchRejected (ThrownError (js "connect ECONNREFUSED")))
             (ThrownError (js "connect ECONNREFUSED"))).
    + exact (sample_bot_exchange sample_dead_env).
    + by left.
  - apply (proj2 (@failures_are_recorded_by_kind reference_runtime
                    (sample_env 500 (js "{}")) 0%nat (sample_db sample_approved)
                    (sample_run (js "https://x.com") running) sample_approved)
             500%N (js "{}") (JObject [])).
    + exact (sample_bot_exchange (sample_env 500 (js "{}"))).
    + reflexivity.
    + right. split; by vm_compute.
Defined.

Lemma start_then_execute_witness :
  ∃ runId db' run',
    startTestRun 5000 (js "tok-owner") 0 (js " https://x.com/ ")
      (sample_db sample_approved) = (Return runId, db')
    ∧ getTestRun runId
        (store_after (@executeTestRun reference_runtime
                        (sample_env 200 (move_body (js "up"))) runId db'))
      = Some run'
    ∧ run_status run' ≠ running
    ∧ (Forall (λ c, is_white_space c = true) (js " https://x.com/ ") →
         answer_of (@executeTestRun reference_runtime
                      (sample_env 200 (move_body (js "up"))) runId db')
         = Return (ExecError (js "Bot URL is required."))
         ∧ calls_of (@executeTestRun reference_runtime
                       (sample_env 200 (move_body (js "up"))) runId db') = [])
    ∧ (∀ endpoint, endpoint_of (js " https://x.com/ ") = Some endpoint →
         ∃ you, calls_of (@executeTestRun reference_runtime
                            (sample_env 200 (move_body (js "up"))) runId db')
                = [(endpoint, requestBody 0 sample_approved you)]).
Proof.
  apply (@start_then_execute reference_runtime 5000 (js "tok-owner") 0%nat
           (js " https://x.com/ ") (sample_db sample_approved)
           (sample_env 200 (move_body (js "up"))) 0%nat false sample_approved);
    by vm_compute.
Defined.

Lemma login_opens_a_session_witness :
  (@login reference_runtime 1000 (js "tok-new") (js " Owner@X.com ")
     (js "hunter2") (js "client-1") (sample_db sample_approved)).1
  = Return (LoginOk (js "tok-new")
              {| info_id := 0%nat; info_email := js "Owner@x.com";
                 info_username := js "owner"; info_isAdmin := false |})
  ∧ ∀ later,
      (later ≤ 1000 + SESSION_TTL_MS →
         requireUserSession later (js "tok-new")
           (@login reference_runtime 1000 (js "tok-new") (js " Owner@X.com ")
              (js "hunter2") (js "client-1") (sample_db sample_approved)).2
         = Return (0%nat, false))
      ∧ (1000 + SESSION_TTL_MS < later →
           requireUserSession later (js "tok-new")
             (@login reference_runtime 1000 (js "tok-new") (js " Owner@X.com ")
                (js "hunter2") (js "client-1") (sample_db sample_approved)).2
           = Throw (js "Session expired. Please log in again.")).
Proof.
  apply (@login_opens_a_session reference_runtime 1000 (js "tok-new")
           (js " Owner@X.com ") (js "hunter2") (js "client-1")
           (sample_db sample_approved) 0%nat
           {| email := js "Owner@x.com"; emailLower := js "owner@x.com";
              passwordHash := sample_hash (js "hunter2");
              username := js "owner"; isAdmin := false |});
    by vm_compute.
Defined.

Lemma getCurrentUser_follows_the_gate_witness :
  ∃ user,
    db_get (users (sample_db sample_approved)) 0 = Some user
    ∧ isAdmin user = false
    ∧ getCurrentUser 5000 (Some (js "tok-owner")) (sample_db sample_approved)
      = Some {| info_id := 0%nat; info_email := email user;
                info_username := username user; info_isAdmin := false |}.
Proof.
  assert (js "tok-owner" ≠ []) as Htoken by (by vm_compute).
  exact (proj2 (proj2 (getCurrentUser_follows_the_gate 5000 (js "tok-owner")
                         (sample_db sample_approved))) Htoken).
Defined.

Lemma logout_closes_the_session_witness :
  (logout (js "tok-owner") (sample_db sample_approved)).1 = Return ()
  ∧ db_get (userSessions (logout (js "tok-owner") (sample_db sample_approved)).2)
      0 = None
  ∧ ∀ later,
      requireUserSession later (js "tok-owner")
        (logout (js "tok-owner") (sample_db sample_approved)).2
      = Throw (js "Session invalid. Please log in again.").
Proof.
  destruct (proj2 (logout_closes_the_session (js "tok-owner")
                     (sample_db sample_approved))
              0%nat {| session_userId := 0%nat; session_token := js "tok-owner";
                       session_createdAt := 0; session_expiresAt := 90000000 |})
    as (Hok & Hgone & _ & _ & _ & Hinvalid); [by vm_compute|].
  split; [exact Hok|]. split; [exact Hgone|].
  apply Hinvalid. intros [|[|[|id']]] session' Hget Htoken.
  - reflexivity.
  - injection Hget as <-. by vm_compute in Htoken.
  - injection Hget as <-. by vm_compute in Htoken.
  - destruct id'; discriminate.
Defined.

Lemma a_window_that_is_over_starts_afresh_witness :
  ((@login reference_runtime 305000 (js "tok-new") (js "owner@x.com")
      (js "wrong") (js "client-1")
      (@login_run reference_runtime (js "client-1") five_failures
         (sample_db sample_approved))).1
   = Return (LoginError (js "Invalid email or password.") None)
   ∧ limiter_by_clientId
       (@login reference_runtime 305000 (js "tok-new") (js "owner@x.com")
          (js "wrong") (js "client-1")
          (@login_run reference_runtime (js "client-1") five_failures
             (sample_db sample_approved))).2 (js "client-1")
     = Some (0%nat, {| clientId := js "client-1"; windowStart := 305000;
                       attempts := 1; blockedUntil := None |}))
  ∧ ∃ user,
      (@login reference_runtime 305000 (js "tok-new") (js "owner@x.com")
         (js "hunter2") (js "client-1")
         (@login_run reference_runtime (js "client-1") five_failures
            (sample_db sample_approved))).1
      = Return (LoginOk (js "tok-new") user).
Proof.
  assert (limiter_by_clientId
            (@login_run reference_runtime (js "client-1") five_failures
               (sample_db sample_approved)) (js "client-1")
          = Some (0%nat, {| clientId := js "client-1"; windowStart := 1000;
                            attempts := 5; blockedUntil := Some 305000 |}))
    as Hlimiter by (by vm_compute).
  assert (RATE_LIMIT_WINDOW_MS ≤ 305000 - 1000) as Hover by (by vm_compute).
  assert (∀ until, Some 305000 = Some until → until ≤ 305000) as Hblock.
  { intros b [= <-]. lia. }
  split.
  - apply (proj1 (@a_window_that_is_over_starts_afresh reference_runtime 305000
                    (js "tok-new") (js "owner@x.com") (js "wrong")
                    (js "client-1") _ _ _ Hlimiter Hover Hblock)).
    by vm_compute.
  - apply (proj2 (@a_window_that_is_over_starts_afresh reference_runtime 305000
                    (js "tok-new") (js "owner@x.com") (js "hunter2")
                    (js "client-1") _ _ _ Hlimiter Hover Hblock)).
    by vm_compute.
Defined.

Lemma admin_password_shares_the_limiter_witness :
  verifyAdminPassword 6000 (js "adm-1") (Some (js "pw")) (js "pw")
    (js "client-1")
    (@login_run reference_runtime (js "client-1") five_failures
       (sample_db sample_approved))
  = (Return (VerifyError (js "Too many attempts. Try again later.")
               (retryAt (checkRateLimit 6000 (js "client-1")
                           (@login_run reference_runtime (js "client-1")
                              five_failures (sample_db sample_approved))))),
     @login_run reference_runtime (js "client-1") five_failures
       (sample_db sample_approved))
  ∧ verifyAdminPassword 6000 (js "adm-1") (Some (js "pw")) (js "guess")
      (js "client-1") (sample_db sample_approved)
    = (Return (VerifyError (js "Invalid admin password.") None),
       (recordFailedAttempt 6000 (js "client-1") (sample_db sample_approved)).2)
  ∧ verifyAdminPassword 6000 (js "adm-1") None (js "guess")
      (js "client-1") (sample_db sample_approved)
    = (Return (VerifyError
                 (js "Admin password not configured. Set BATTLESNAKE_ADMIN_PASSWORD in Convex env.")
                 None),
       (recordFailedAttempt 6000 (js "client-1") (sample_db sample_approved)).2).
Proof.
  split; [|split].
  - apply (proj1 (admin_password_shares_the_limiter 6000 (js "adm-1")
                    (Some (js "pw")) (js "pw") (js "client-1")
                    (@login_run reference_runtime (js "client-1") five_failures
                       (sample_db sample_approved)))).
    by vm_compute.
  - apply (proj2 (admin_password_shares_the_limiter 6000 (js "adm-1")
                    (Some (js "pw")) (js "guess") (js "client-1")
                    (sample_db sample_approved))); by vm_compute.
  - apply (proj2 (admin_password_shares_the_limiter 6000 (js "adm-1")
                    None (js "guess") (js "client-1")
                    (sample_db sample_approved))); by vm_compute.
Defined.

Lemma admin_password_opens_a_session_witness :
  (verifyAdminPassword 1000 (js "adm-1") (Some (js "s3cret")) (js "s3cret")
     (js "client-1") (sample_db sample_approved)).1
  = Return (VerifyOk (js "adm-1") (1000 + ADMIN_SESSION_TTL_MS) 1)
  ∧ (∃ id,
       limiter_by_clientId
         (verifyAdminPassword 1000 (js "adm-1") (Some (js "s3cret"))
            (js "s3cret") (js "client-1") (sample_db sample_approved)).2
         (js "client-1")
       = Some (id, {| clientId := js "client-1"; windowStart := 1000;
                      attempts := 0; blockedUntil := None |}))
  ∧ ∀ later,
      (later ≤ 1000 + ADMIN_SESSION_TTL_MS →
         requireAdminSession later (js "adm-1")
           (verifyAdminPassword 1000 (js "adm-1") (Some (js "s3cret"))
              (js "s3cret") (js "client-1") (sample_db sample_approved)).2
         = (Return (),
            (verifyAdminPassword 1000 (js "adm-1") (Some (js "s3cret"))
               (js "s3cret") (js "client-1") (sample_db sample_approved)).2)
         ∧ validateAdminSession later (js "adm-1")
             (verifyAdminPassword 1000 (js "adm-1") (Some (js "s3cret"))
                (js "s3cret") (js "client-1") (sample_db sample_approved)).2
           = ValidateOk (1000 + ADMIN_SESSION_TTL_MS))
      ∧ (1000 + ADMIN_SESSION_TTL_MS < later →
           validateAdminSession later (js "adm-1")
             (verifyAdminPassword 1000 (js "adm-1") (Some (js "s3cret"))
                (js "s3cret") (js "client-1") (sample_db sample_approved)).2
           = ValidateError (js "Session expired.")).
Proof.
  apply (admin_password_opens_a_session 1000 (js "adm-1") (js "s3cret")
           (js "client-1") (sample_db sample_approved)); by vm_compute.
Defined.

Lemma only_an_approval_publishes_witness :
  (∃ t, (0%nat, t) ∈ listPublicTests (sample_db sample_rejected))
  ∨ approval_of [CallUpdateUserTest 4000 (js "tok-owner") 0 sample_args;
                 CallApproveTest 5000 (js "tok-admin") 0] 0%nat.
Proof.
  apply (only_an_approval_publishes
           [CallUpdateUserTest 4000 (js "tok-owner") 0 sample_args;
            CallApproveTest 5000 (js "tok-admin") 0]
           (sample_db sample_rejected) 0%nat
           (patch_rejectionReason None
              (patch_approval 1 5000
                 (patch_status approved
                    (patch_status pending
                       (patch_content sample_args sample_rejected)))))).
  vm_compute. left.
Defined.

Lemma created_test_heads_my_list_witness :
  ∃ test,
    (createUserTest 5000 (js "tok-owner") sample_args
       (sample_db sample_approved)).1 = Return (Some test)
    ∧ content_of test = sample_args
    ∧ status test = Some pending ∧ ownerId test = Some 0%nat
    ∧ listMyTests 6000 (js "tok-owner")
        (createUserTest 5000 (js "tok-owner") sample_args
           (sample_db sample_approved)).2
      = Return [(1%nat, test); (0%nat, sample_approved)]
    ∧ listPublicTests (createUserTest 5000 (js "tok-owner") sample_args
                         (sample_db sample_approved)).2
      = listPublicTests (sample_db sample_approved).
Proof.
  apply (created_test_heads_my_list 5000 6000 (js "tok-owner") sample_args
           (sample_db sample_approved) 0%nat false [(0%nat, sample_approved)]);
    by vm_compute.
Defined.

Lemma started_run_heads_my_runs_witness :
  ∃ run,
    getTestRun 4
      (startTestRun 5000 (js "tok-owner") 0 (js "https://y.com")
         (sample_db sample_approved)).2 = Some run
    ∧ run_status run = running ∧ botUrl run = js "https://y.com"
    ∧ listUserTestRuns 6000 (js "tok-owner") (Some 2%nat)
        (startTestRun 5000 (js "tok-owner") 0 (js "https://y.com")
           (sample_db sample_approved)).2
      = Return [(4%nat, run); (3%nat, sample_run (js "https://x.com") completed)].
Proof.
  apply (started_run_heads_my_runs 5000 6000 (js "tok-owner") 0%nat
           (js "https://y.com") (Some 2%nat) (sample_db sample_approved)
           0%nat false sample_approved
           [(3%nat, sample_run (js "https://x.com") completed);
            (2%nat, sample_run (js "  ") running)]);
    first [by vm_compute | cbn; lia].
Defined.

Lemma runTest_agrees_with_executeTestRun_witness :
  calls_of (@executeTestRun reference_runtime
              (sample_env 200 (move_body (js "up"))) 1 (sample_db sample_approved))
  = (@runTest reference_runtime (sample_env 200 (move_body (js "up"))) 0
       (js "https://x.com/move/") (sample_db sample_approved)).2
  ∧ ∃ passed responseTimeMs,
      answer_of (@executeTestRun reference_runtime
                   (sample_env 200 (move_body (js "up"))) 1
                   (sample_db sample_approved))
      = Return (ExecOk (Some (js "up")) None passed responseTimeMs).
Proof.
  exact (@runTest_agrees_with_executeTestRun reference_runtime
           (sample_env 200 (move_body (js "up"))) 1%nat
           (sample_db sample_approved)
           (sample_run (js "https://x.com/move/") running) eq_refl eq_refl).
Defined.

Lemma legacy_tests_have_no_owner_witness :
  ∃ test,
    createTest 5000 (js "adm-new") sample_args sample_admin_db
    = (Return (Some test),
       with_tests sample_admin_db (tests sample_admin_db ++ [Some test]))
    ∧ getTest (length (tests sample_admin_db))
        (createTest 5000 (js "adm-new") sample_args sample_admin_db).2
      = Some test
    ∧ content_of test = sample_args ∧ ownerId test = None ∧ status test = None
    ∧ listPublicTests (createTest 5000 (js "adm-new") sample_args
                         sample_admin_db).2
      = listPublicTests sample_admin_db
    ∧ ∀ later token args',
        (∃ e, updateUserTest later token (length (tests sample_admin_db)) args'
                (createTest 5000 (js "adm-new") sample_args sample_admin_db).2
              = (Throw e,
                 (createTest 5000 (js "adm-new") sample_args sample_admin_db).2))
        ∧ (∃ e, resubmitTest later token (length (tests sample_admin_db))
                  (createTest 5000 (js "adm-new") sample_args sample_admin_db).2
                = (Throw e,
                   (createTest 5000 (js "adm-new") sample_args
                      sample_admin_db).2)).
Proof.
  apply (legacy_tests_have_no_owner 5000 (js "adm-new") sample_args
           sample_admin_db); by vm_compute.
Defined.


Lemma collections_belong_to_their_owner_witness :
  updateCollection 5000 (js "tok-owner") 1 (js "mine now") None true
    sample_library
  = (Throw (js "You don't have permission to edit this collection."),
     sample_library)
  ∧ deleteCollection 5000 (js "tok-owner") 1 sample_library
    = (Throw (js "You don't have permission to delete this collection."),
       sample_library)
  ∧ regenerateShareSlug 5000 (fun _ => 7%nat) (js "tok-owner") 1 sample_library
    = (Throw (js "You don't have permission to modify this collection."),
       sample_library)
  ∧ addTestToCollection 5000 (js "tok-owner") 1 0 sample_library
    = (Throw (js "You don't have permission to modify this collection."),
       sample_library)
  ∧ removeTestFromCollection 5000 (js "tok-owner") 1 0 sample_library
    = (Throw (js "You don't have permission to modify this collection."),
       sample_library)
  ∧ getCollectionTests 5000 (js "tok-owner") 1 sample_library
    = Throw (js "You don't have permission to view this collection.")
  ∧ ∃ mine, listCollections 5000 (js "tok-owner") sample_library = Return mine
            ∧ (1%nat, sample_collection 1 false (js "wxyz5678")) ∉ mine.
Proof.
  apply (collections_belong_to_their_owner 5000 (fun _ => 7%nat)
           (js "tok-owner") 1%nat (js "mine now") None true 0%nat
           sample_library 0%nat false
           (sample_collection 1 false (js "wxyz5678"))); by vm_compute.
Defined.

Lemma sample_members_unique : members_unique sample_library.
Proof.
  intros [|i] [|j] row row' Hi Hj _ _.
  - reflexivity.
  - destruct j; discriminate.
  - destruct i; discriminate.
  - destruct i; discriminate.
Defined.

Lemma sample_members_resolve : members_resolve sample_library.
Proof.
  intros [|i] row Hi.
  - injection Hi as <-. split; by eexists.
  - destruct i; discriminate.
Defined.

Lemma memberships_stay_consistent_witness :
  members_unique
    (library_run
       [CallAddTestToCollection 5000 (js "tok-owner") 0 0;
        CallAddTestToCollection 5001 (js "tok-owner") 0 0;
        CallModeration (CallRejectTest 5002 (js "tok-admin") 0 None);
        CallDeleteCollection 5003 (js "tok-admin") 1;
        CallDeleteUserTest 5004 (js "tok-owner") 0]
       sample_library)
  ∧ members_resolve
      (library_run
         [CallAddTestToCollection 5000 (js "tok-owner") 0 0;
          CallAddTestToCollection 5001 (js "tok-owner") 0 0;
          CallModeration (CallRejectTest 5002 (js "tok-admin") 0 None);
          CallDeleteCollection 5003 (js "tok-admin") 1;
          CallDeleteUserTest 5004 (js "tok-owner") 0]
         sample_library).
Proof.
  exact (memberships_stay_consistent _ sample_library
           sample_members_unique sample_members_resolve).
Defined.

Lemma deleting_takes_the_memberships_along_witness :
  ((deleteUserTest 5000 (js "tok-owner") 0 sample_library).1 = Return ()
   ∧ getTest 0 (lib_store (deleteUserTest 5000 (js "tok-owner") 0
                             sample_library).2) = None
   ∧ rows_of_test (deleteUserTest 5000 (js "tok-owner") 0 sample_library).2 0
     = []
   ∧ collections (deleteUserTest 5000 (js "tok-owner") 0 sample_library).2
     = collections sample_library)
  ∧ ((deleteCollection 5000 (js "tok-owner") 0 sample_library).1 = Return ()
     ∧ db_get (collections (deleteCollection 5000 (js "tok-owner") 0
                              sample_library).2) 0 = None
     ∧ lib_store (deleteCollection 5000 (js "tok-owner") 0 sample_library).2
       = lib_store sample_library).
Proof.
  assert (requireUserSession 5000 (js "tok-owner") (lib_store sample_library)
          = Return (0%nat, false)) as Hgate by (by vm_compute).
  destruct (deleting_takes_the_memberships_along 5000 (js "tok-owner") 0%nat
              sample_library 0%nat false Hgate) as [Htest Hcollection].
  split.
  - destruct (proj2 (Htest sample_approved eq_refl))
      as (Hok & Hgone & _ & Hrows & _ & Hcols & _); [by left|].
    split; [exact Hok|]. split; [exact Hgone|]. split; [exact Hrows|exact Hcols].
  - destruct (Hcollection (sample_collection 0 true (js "abcd1234"))
                eq_refl eq_refl) as (Hok & Hgone & _ & _ & _ & Hstore).
    split; [exact Hok|]. split; [exact Hgone|exact Hstore].
Defined.

Lemma added_test_is_listed_once_witness :
  (addTestToCollection 5000 (js "tok-owner") 0 0 sample_library).1 = Return ()
  ∧ getCollectionTests 5000 (js "tok-owner") 0
      (addTestToCollection 5000 (js "tok-owner") 0 0 sample_library).2
    = Return (member_tests sample_library 0 ++ [(0%nat, sample_approved)])
  ∧ addTestToCollection 5000 (js "tok-owner") 0 0
      (addTestToCollection 5000 (js "tok-owner") 0 0 sample_library).2
    = (Throw (js "Test is already in this collection."),
       (addTestToCollection 5000 (js "tok-owner") 0 0 sample_library).2)
  ∧ (removeTestFromCollection 5000 (js "tok-owner") 0 0
       (addTestToCollection 5000 (js "tok-owner") 0 0 sample_library).2).1
    = Return ()
  ∧ getCollectionTests 5000 (js "tok-owner") 0
      (removeTestFromCollection 5000 (js "tok-owner") 0 0
         (addTestToCollection 5000 (js "tok-owner") 0 0 sample_library).2).2
    = Return (member_tests sample_library 0).
Proof.
  apply (proj2 (added_test_is_listed_once 5000 (js "tok-owner") 0%nat 0%nat
                  sample_library 0%nat false
                  (sample_collection 0 true (js "abcd1234")) sample_approved
                  ltac:(by vm_compute) eq_refl eq_refl eq_refl)).
  - by left.
  - reflexivity.
Defined.

Lemma private_collections_are_not_shared_witness :
  (db_get (collections sample_library) 0
   = Some (sample_collection 0 true (js "abcd1234"))
   ∧ isPublic (sample_collection 0 true (js "abcd1234")) = true
   ∧ shareSlug (sample_collection 0 true (js "abcd1234")) = js "abcd1234")
  ∧ getCollectionBySlug (js "abcd1234")
      (updateCollection 5000 (js "tok-owner") 0 (js "openings") None false
         sample_library).2
    = None
  ∧ getCollectionBySlug (js "wxyz5678") sample_library = None.
Proof.
  assert (getCollectionBySlug (js "abcd1234") sample_library
          = Some {| shared_id := 0%nat;
                    shared_collection := sample_collection 0 true (js "abcd1234");
                    ownerName := js "owner"; shared_tests := [] |}) as Hshared
    by (by vm_compute).
  destruct (private_collections_are_not_shared (js "abcd1234") sample_library)
    as [Hpublic Hprivate].
  split; [|split].
  - destruct (Hpublic _ Hshared) as (Hget & Hpub & Hslug & _).
    split; [exact Hget|]. split; [exact Hpub|exact Hslug].
  - apply (Hprivate 5000 (js "tok-owner") (js "openings") None _ 0%nat false
             Hshared); by vm_compute.
  - by vm_compute.
Defined.

Lemma created_collection_is_its_creators_witness :
  ∃ collection,
    (createCollection 5000 (fun _ => 7%nat) (js "tok-owner") (js "endgames")
       None false sample_library).1 = Return (Some collection)
    ∧ col_name collection = js "endgames" ∧ col_ownerId collection = 0%nat
    ∧ isPublic collection = false
    ∧ length (shareSlug collection) = 8%nat
    ∧ Forall (λ c, c ∈ slug_chars) (shareSlug collection)
    ∧ listCollections 5000 (js "tok-owner")
        (createCollection 5000 (fun _ => 7%nat) (js "tok-owner") (js "endgames")
           None false sample_library).2
      = Return [(2%nat, collection);
                (0%nat, sample_collection 0 true (js "abcd1234"))]
    ∧ collectionTests
        (createCollection 5000 (fun _ => 7%nat) (js "tok-owner") (js "endgames")
           None false sample_library).2
      = collectionTests sample_library.
Proof.
  apply (created_collection_is_its_creators 5000 (fun _ => 7%nat)
           (js "tok-owner") (js "endgames") None false sample_library
           0%nat false [(0%nat, sample_collection 0 true (js "abcd1234"))]).
  - by vm_compute.
  - intros i. lia.
  - by vm_compute.
Defined.

Lemma engine_use_is_counted_witness :
  ((incrementEngineUsage 24311 (js "tok-owner") sample_engine_db).1 = Return None
   ∧ ∃ user',
       db_get (engine_users
                 (incrementEngineUsage 24311 (js "tok-owner") sample_engine_db).2)
         0 = Some user'
       ∧ usage_in 24311 user' = 0 + 1)
  ∧ incrementEngineUsage 24310 (js "tok-owner") sample_engine_db
    = (Return (Some (js "Monthly engine usage limit reached (5 uses per month).")),
       sample_engine_db)
  ∧ checkEngineAccess 5000 24311 (js "tok-owner") sample_engine_db
    = EngineAllowed true 5
  ∧ checkEngineAccess 5000 24310 (js "tok-owner") sample_engine_db
    = EngineAllowed false 0
  ∧ checkEngineAccess 5000 24311 (js "tok-old") sample_engine_db
    = EngineDenied (js "Session expired.")
  ∧ (incrementEngineUsage 24311 (js "tok-old") sample_engine_db).1 = Return None.
Proof.
  pose proof (engine_use_is_counted 24311 (js "tok-owner") sample_engine_db
                0%nat _ _ eq_refl eq_refl eq_refl eq_refl) as (Hnew & _ & Hcheck).
  pose proof (engine_use_is_counted 24310 (js "tok-owner") sample_engine_db
                0%nat _ _ eq_refl eq_refl eq_refl eq_refl) as (_ & Hfull & Hcheck').
  pose proof (engine_use_is_counted 24311 (js "tok-old") sample_engine_db
                2%nat _ _ eq_refl eq_refl eq_refl eq_refl) as (Hold & _ & Hexpired).
  split; [|split; [|split; [|split; [|split]]]].
  - destruct Hnew as (Hok & _ & (user' & Hget & Hcount & _) & _); [by vm_compute|].
    split; [exact Hok|]. by exists user'.
  - apply Hfull. by vm_compute.
  - apply (proj1 (Hcheck 5000)). by vm_compute.
  - apply (proj1 (Hcheck' 5000)). by vm_compute.
  - apply (proj2 (Hexpired 5000)). by vm_compute.
  - apply Hold. by vm_compute.
Defined.

Lemma five_engine_uses_a_month_witness :
  (incrementEngineUsage 24311 (js "tok-owner")
     (engine_uses 4 24311 (js "tok-owner") sample_engine_db)).1 = Return None
  ∧ (incrementEngineUsage 24311 (js "tok-owner")
       (engine_uses 5 24311 (js "tok-owner") sample_engine_db)).1
    = Return (Some (js "Monthly engine usage limit reached (5 uses per month).")).
Proof.
  split.
  - apply (five_engine_uses_a_month 4 24311 (js "tok-owner") sample_engine_db
             0%nat _ _ eq_refl eq_refl eq_refl eq_refl). by vm_compute.
  - apply (five_engine_uses_a_month 5 24311 (js "tok-owner") sample_engine_db
             0%nat _ _ eq_refl eq_refl eq_refl eq_refl). by vm_compute.
Defined.

Lemma created_admin_can_log_in_witness :
  (@createAdminUser reference_runtime (Some (js "root-secret"))
     (sample_hash (js "pw1")) (js " Root@X.com ") (js " root ")
     (js "root-secret") (sample_db sample_approved)).1
  = Return (js "Admin user created.")
  ∧ hasAdminUser
      (@createAdminUser reference_runtime (Some (js "root-secret"))
         (sample_hash (js "pw1")) (js " Root@X.com ") (js " root ")
         (js "root-secret") (sample_db sample_approved)).2 = true
  ∧ (@login reference_runtime 1000 (js "tok-new") (js " Root@X.com ")
       (js "pw1") (js "client-1")
       (@createAdminUser reference_runtime (Some (js "root-secret"))
          (sample_hash (js "pw1")) (js " Root@X.com ") (js " root ")
          (js "root-secret") (sample_db sample_approved)).2).1
    = Return (LoginOk (js "tok-new")
                {| info_id := 2%nat; info_email := js "Root@X.com";
                   info_username := js "root"; info_isAdmin := true |})
  ∧ requireAdmin 1000 (js "tok-new")
      (@login reference_runtime 1000 (js "tok-new") (js " Root@X.com ")
         (js "pw1") (js "client-1")
         (@createAdminUser reference_runtime (Some (js "root-secret"))
            (sample_hash (js "pw1")) (js " Root@X.com ") (js " root ")
            (js "root-secret") (sample_db sample_approved)).2).2
    = Return 2%nat.
Proof.
  apply (@created_admin_can_log_in reference_runtime (sample_hash (js "pw1"))
           (js " Root@X.com ") (js "pw1") (js " root ") (js "root-secret")
           1000 (js "tok-new") (js "client-1") (sample_db sample_approved));
    by vm_compute.
Defined.
